(** * wechat_chat_extractor.py: a shallow embedding and its properties

    The development follows [src/wechat_chat_extractor.py].  Python values
    that a SQLite cursor can hand back are an inductive type, a Python [str]
    is a Rocq [string] (the text in UTF-8; only the ASCII range is cased,
    blank or a digit, every other byte is opaque), a [dict] is an
    association list that keeps insertion order, and the methods of
    [WeChatChatExtractor] thread the object and its surroundings (clock,
    database driver, log) through an explicit state. *)

From Stdlib Require Import List Bool Arith ZArith Lia Ascii String.
From Stdlib Require Import SpecFloat Permutation Sorted.
Import ListNotations.

Local Open Scope string_scope.
Local Open Scope list_scope.
Local Open Scope nat_scope.

(** ** Python string operations *)

Module PyStr.

Definition lower_char (c : ascii) : ascii :=
  let n := nat_of_ascii c in
  if (65 <=? n) && (n <=? 90) then ascii_of_nat (n + 32) else c.

(** [str.lower] *)
Fixpoint lower (s : string) : string :=
  match s with
  | EmptyString => EmptyString
  | String c r => String (lower_char c) (lower r)
  end.

(** [s.startswith(p)] *)
Fixpoint startswith (p s : string) : bool :=
  match p, s with
  | EmptyString, _ => true
  | String a p', String b s' => Ascii.eqb a b && startswith p' s'
  | String _ _, EmptyString => false
  end.

(** [p in s] for two strings *)
Fixpoint contains (p s : string) : bool :=
  startswith p s ||
  match s with
  | EmptyString => false
  | String _ r => contains p r
  end.

(** the text left once the prefix [p] is taken off, when [s] starts with it *)
Fixpoint strip_prefix (p s : string) : option string :=
  match p, s with
  | EmptyString, _ => Some s
  | String a p', String b s' =>
      if Ascii.eqb a b then strip_prefix p' s' else None
  | String _ _, EmptyString => None
  end.

Fixpoint rev_onto (s acc : string) : string :=
  match s with
  | EmptyString => acc
  | String c r => rev_onto r (String c acc)
  end.

Definition rev (s : string) : string := rev_onto s EmptyString.

(** [s.endswith(p)] *)
Definition endswith (p s : string) : bool := startswith (rev p) (rev s).

(** the characters [str.isspace] accepts in the ASCII range *)
Definition is_space (c : ascii) : bool :=
  let n := nat_of_ascii c in
  ((9 <=? n) && (n <=? 13)) || ((28 <=? n) && (n <=? 32)).

Fixpoint lstrip (s : string) : string :=
  match s with
  | EmptyString => EmptyString
  | String c r => if is_space c then lstrip r else s
  end.

(** [s.strip()] *)
Definition strip (s : string) : string := rev (lstrip (rev (lstrip s))).

(** [s.split(sep)] for a one-character separator: never empty, the pieces
    hold no separator. *)
Fixpoint split (sep : ascii) (s : string) : list string :=
  match s with
  | EmptyString => [EmptyString]
  | String c r =>
      if Ascii.eqb c sep then EmptyString :: split sep r
      else match split sep r with
           | [] => [String c EmptyString]
           | w :: ws => String c w :: ws
           end
  end.

(** the longest prefix of characters satisfying [f], and the rest *)
Fixpoint span (f : ascii -> bool) (s : string) : string * string :=
  match s with
  | EmptyString => (EmptyString, EmptyString)
  | String c r =>
      if f c then let (a, b) := span f r in (String c a, b)
      else (EmptyString, s)
  end.

Definition is_digit (c : ascii) : bool :=
  let n := nat_of_ascii c in (48 <=? n) && (n <=? 57).

Fixpoint all_chars (f : ascii -> bool) (s : string) : bool :=
  match s with
  | EmptyString => true
  | String c r => f c && all_chars f r
  end.

(** truth value of a string: only the empty one is false *)
Definition truthy (s : string) : bool :=
  match s with EmptyString => false | _ => true end.

(** order of [str] values: by code unit, a proper prefix first *)
Fixpoint leb (a b : string) : bool :=
  match a, b with
  | EmptyString, _ => true
  | String _ _, EmptyString => false
  | String x a', String y b' =>
      let n := nat_of_ascii x in
      let m := nat_of_ascii y in
      if n <? m then true else if m <? n then false else leb a' b'
  end.

Definition newline : ascii := ascii_of_nat 10.

End PyStr.

(** ** Table classifier: [find_chat_tables] *)

(** [re.match(r'^chat\d+$', s)]: [chat], one digit or more, and then the
    end of the text or one line feed that ends it, which is where [$]
    matches without [re.MULTILINE]. *)
Definition match_chat_digits (s : string) : bool :=
  match PyStr.strip_prefix "chat" s with
  | None => false
  | Some r =>
      let (ds, tl) := PyStr.span PyStr.is_digit r in
      PyStr.truthy ds &&
      (String.eqb tl "" || String.eqb tl (String PyStr.newline ""))
  end.

(** The condition of the loop of [find_chat_tables]. *)
Definition is_chat_table_name (table : string) : bool :=
  let name_lower := PyStr.lower table in
  PyStr.startswith "chat_" name_lower
  || String.eqb name_lower "chat"
  || match_chat_digits name_lower
  || PyStr.startswith "chatroom_" name_lower
  || PyStr.startswith "message_" name_lower
  || (PyStr.contains "chat" name_lower && PyStr.contains "room" name_lower).

(** The key [chat_tables.sort] orders by, and the order of two keys. *)
Definition sort_key (x : string) : bool * string :=
  (negb (PyStr.startswith "chat_" (PyStr.lower x)), PyStr.lower x).

Definition key_leb (a b : bool * string) : bool :=
  match fst a, fst b with
  | false, true => true
  | true, false => false
  | _, _ => PyStr.leb (snd a) (snd b)
  end.

(** [list.sort] is stable: an element goes behind the ones it equals. *)
Fixpoint insert_sorted (x : string) (l : list string) : list string :=
  match l with
  | [] => [x]
  | y :: r =>
      if key_leb (sort_key y) (sort_key x) then y :: insert_sorted x r
      else x :: l
  end.

Definition sort_tables (l : list string) : list string :=
  fold_left (fun acc x => insert_sorted x acc) l [].

Definition find_chat_tables (tables : list string) : list string :=
  sort_tables (filter is_chat_table_name tables).

(** ** Values and dictionaries *)

(** What a cursor of the driver returns in a row, which is also what a
    message field can hold: [None], [int], [float] (IEEE binary64, through
    the specification of the Standard Library), [str] and [bytes]. *)
Inductive value :=
| VNone
| VInt (n : Z)
| VFloat (x : spec_float)
| VStr (s : string)
| VBytes (b : list Byte.byte).

(** A [dict] with [str] keys: assignment to a key it has replaces the value
    in place, a new key goes to the end. *)
Definition dict := list (string * value).

Fixpoint dict_get (k : string) (d : dict) : option value :=
  match d with
  | [] => None
  | (k', v) :: r => if String.eqb k k' then Some v else dict_get k r
  end.

Fixpoint dict_set (k : string) (v : value) (d : dict) : dict :=
  match d with
  | [] => [(k, v)]
  | (k', v') :: r =>
      if String.eqb k k' then (k, v) :: r else (k', v') :: dict_set k v r
  end.

Definition dict_has (k : string) (d : dict) : bool :=
  match dict_get k d with Some _ => true | None => false end.

(** ** Decoding of [bytes] fields *)

Module PyBytes.

Definition cont (b : nat) : bool := (128 <=? b) && (b <=? 191).

Definition between (lo hi b : nat) : bool := (lo <=? b) && (b <=? hi).

(** Whether [bytes.decode('utf-8')] succeeds: well-formed UTF-8, without
    overlong forms, surrogates or code points above U+10FFFF. *)
Fixpoint utf8_units (b : list nat) : bool :=
  match b with
  | [] => true
  | b0 :: r =>
      if b0 <=? 127 then utf8_units r
      else if between 194 223 b0 then
        match r with
        | b1 :: r1 => cont b1 && utf8_units r1
        | _ => false
        end
      else if between 224 239 b0 then
        match r with
        | b1 :: b2 :: r2 =>
            (if b0 =? 224 then between 160 191 b1
             else if b0 =? 237 then between 128 159 b1
             else cont b1)
            && cont b2 && utf8_units r2
        | _ => false
        end
      else if between 240 244 b0 then
        match r with
        | b1 :: b2 :: b3 :: r3 =>
            (if b0 =? 240 then between 144 191 b1
             else if b0 =? 244 then between 128 143 b1
             else cont b1)
            && cont b2 && cont b3 && utf8_units r3
        | _ => false
        end
      else false
  end.

Definition utf8_valid (b : list Byte.byte) : bool :=
  utf8_units (map Byte.to_nat b).

Definition hex_digit (n : nat) : ascii :=
  if n <? 10 then ascii_of_nat (48 + n) else ascii_of_nat (87 + n).

(** [bytes.hex] *)
Fixpoint hex (b : list Byte.byte) : string :=
  match b with
  | [] => EmptyString
  | x :: r =>
      let n := Byte.to_nat x in
      String (hex_digit (n / 16)) (String (hex_digit (n mod 16)) (hex r))
  end.

(** the decoded text: a [str] is kept as its UTF-8 bytes *)
Definition text (b : list Byte.byte) : string := string_of_list_byte b.

End PyBytes.

(** The [isinstance(value, bytes)] step of the row loop. *)
Definition decode_field (v : value) : value :=
  match v with
  | VBytes b =>
      if PyBytes.utf8_valid b then VStr (PyBytes.text b)
      else VStr (PyBytes.hex b)
  | _ => v
  end.

(** Truth value of a field, as the [and value] of the row loop reads it. *)
Definition value_truthy (v : value) : bool :=
  match v with
  | VNone => false
  | VInt n => negb (n =? 0)%Z
  | VFloat (S754_zero _) => false
  | VFloat _ => true
  | VStr s => PyStr.truthy s
  | VBytes b => match b with [] => false | _ => true end
  end.

(** ** [datetime]: the part [_convert_timestamp] uses *)

Module PyTime.

Local Open Scope Z_scope.

(** A naive [datetime]. *)
Record datetime := {
  year : Z; month : Z; day : Z;
  hour : Z; minute : Z; second : Z; microsecond : Z
}.

(** The proleptic Gregorian date of a count of days since 1970-01-01. *)
Definition civil_from_days (days : Z) : Z * Z * Z :=
  let z := days + 719468 in
  let era := z / 146097 in
  let doe := z - era * 146097 in
  let yoe := (doe - doe / 1460 + doe / 36524 - doe / 146096) / 365 in
  let doy := doe - (365 * yoe + yoe / 4 - yoe / 100) in
  let mp := (5 * doy + 2) / 153 in
  let d := doy - (153 * mp + 2) / 5 + 1 in
  let m := if mp <? 10 then mp + 3 else mp - 9 in
  let y := yoe + era * 400 in
  (if m <=? 2 then y + 1 else y, m, d).

(** The local date and time of an instant given as whole seconds since the
    epoch and microseconds, where [utcoffset] is the offset of local time
    in seconds at that instant.  [None] is the exception of
    [datetime.fromtimestamp] for an instant outside the years 1 to 9999. *)
Definition datetime_of_timeval (utcoffset : Z -> Z) (sec us : Z)
  : option datetime :=
  let loc := sec + utcoffset sec in
  let '(y, m, d) := civil_from_days (loc / 86400) in
  let r := loc mod 86400 in
  if (1 <=? y) && (y <=? 9999) then
    Some {| year := y; month := m; day := d;
            hour := r / 3600; minute := (r mod 3600) / 60; second := r mod 60;
            microsecond := us |}
  else None.

(** The value of a finite binary float is [m * 2^e]; its integral part and
    what is left below one, as [modf] splits them (magnitudes). *)
Definition modf (m : positive) (e : Z) : Z * spec_float :=
  if 0 <=? e then (Z.pos m * 2 ^ e, S754_zero false)
  else
    let k := 2 ^ (- e) in
    let ip := Z.pos m / k in
    match Z.pos m mod k with
    | Z.pos f => (ip, S754_finite false f e)
    | _ => (ip, S754_zero false)
    end.

(** Rounding of a non-negative float to the nearest integer, ties to even. *)
Definition round_half_even (x : spec_float) : Z :=
  match x with
  | S754_finite _ m e =>
      if 0 <=? e then Z.pos m * 2 ^ e
      else
        let k := 2 ^ (- e) in
        let q := Z.pos m / k in
        let r := Z.pos m mod k in
        match 2 * r ?= k with
        | Lt => q
        | Gt => q + 1
        | Eq => if Z.even q then q else q + 1
        end
  | _ => 0
  end.

Definition binary64_mul := SFmul 53 1024.
Definition binary64_div := SFdiv 53 1024.

Definition float_of_pos (p : positive) : spec_float := S754_finite false p 0.

(** Seconds and microseconds of a float timestamp: the fraction is scaled
    by [1e6] in binary64 and rounded half to even, and a carry moves into
    the seconds.  [None] for NaN and the infinities, which raise. *)
Definition timeval_of_float (x : spec_float) : option (Z * Z) :=
  match x with
  | S754_nan => None
  | S754_infinity _ => None
  | S754_zero _ => Some (0, 0)
  | S754_finite s m e =>
      let (ip, fr) := modf m e in
      let us := round_half_even (binary64_mul fr (float_of_pos 1000000)) in
      if s then
        if us =? 0 then Some (- ip, 0) else Some (- ip - 1, 1000000 - us)
      else
        if 1000000 <=? us then Some (ip + 1, us - 1000000) else Some (ip, us)
  end.

(** [datetime.fromtimestamp] of an [int] and of a [float]. *)
Definition fromtimestamp_int (utcoffset : Z -> Z) (n : Z) : option datetime :=
  datetime_of_timeval utcoffset n 0.

Definition fromtimestamp_float (utcoffset : Z -> Z) (x : spec_float)
  : option datetime :=
  match timeval_of_float x with
  | Some (sec, us) => datetime_of_timeval utcoffset sec us
  | None => None
  end.

(** Decimal digits, left-padded with zeros to a width. *)
Definition digit_char (d : Z) : ascii := ascii_of_nat (48 + Z.to_nat d).

Fixpoint pad (width : nat) (n : Z) : string :=
  match width with
  | O => EmptyString
  | S w => (pad w (n / 10) ++ String (digit_char (n mod 10)) EmptyString)%string
  end.

(** [datetime.isoformat] of a naive value: microseconds only when not 0. *)
Definition isoformat (dt : datetime) : string :=
  (pad 4 (year dt) ++ "-" ++ pad 2 (month dt) ++ "-" ++ pad 2 (day dt)
   ++ "T" ++ pad 2 (hour dt) ++ ":" ++ pad 2 (minute dt) ++ ":"
   ++ pad 2 (second dt)
   ++ (if (microsecond dt =? 0)%Z then ""
       else "." ++ pad 6 (microsecond dt)))%string.

(** Exact comparison of a float with an integer, as Python compares a
    [float] with [1e12] or [1e9] (both are integers a float holds
    exactly); false for NaN. *)
Definition float_gtb (x : spec_float) (n : Z) : bool :=
  match x with
  | S754_nan => false
  | S754_infinity s => negb s
  | S754_zero _ => n <? 0
  | S754_finite s m e =>
      let v := if s then Z.neg m else Z.pos m in
      if 0 <=? e then n <? v * 2 ^ e else n * 2 ^ (- e) <? v
  end.

(** [n / 1000] for an [int]: the quotient rounded once to binary64. *)
Definition int_truediv_1000 (n : Z) : spec_float :=
  match n with
  | Z0 => S754_zero false
  | Z.pos p => binary64_div (S754_finite false p 0) (float_of_pos 1000)
  | Z.neg p => binary64_div (S754_finite true p 0) (float_of_pos 1000)
  end.

Definition float_truediv_1000 (x : spec_float) : spec_float :=
  binary64_div x (float_of_pos 1000).

End PyTime.

(** ** The surroundings of a run *)

(** What an unlocked connection answers.  Statements are keyed by their
    SQL text, [None] stands for a raised exception. *)
Record Conn := {
  (** rows of a statement the code reads one text field from *)
  query_names : string -> option (list string);
  (** the single number of a [SELECT COUNT( * )] *)
  query_count : string -> option Z;
  (** all rows of a [SELECT] in the order the engine yields them; a
      [LIMIT]/[OFFSET] clause cuts a window out of them *)
  query_rows : string -> option (list (list value))
}.

(** What the file system, the driver, the time zone and the clock answer. *)
Record Env := {
  (** [os.path.exists] *)
  path_exists : string -> bool;
  (** [open(path).read()], [None] when it raises *)
  read_text : string -> option string;
  (** whether [sqlite.connect(path)] returns, rather than raises *)
  sqlite_connect : string -> bool;
  (** [PRAGMA key = key_format], [PRAGMA cipher_compatibility = n] and the
      probe of [sqlite_master] on a fresh connection to [path]: the
      unlocked connection when all three succeed *)
  sqlite_unlock : string -> string -> Z -> option Conn;
  (** offset of local time from UTC, in seconds, at an instant *)
  utcoffset : Z -> Z;
  (** [datetime.fromisoformat(s).isoformat()], [None] when parsing raises *)
  normalize_iso : string -> option string;
  (** [datetime.now().isoformat()] at the n-th reading of the clock *)
  now_iso : nat -> string;
  (** whether the output file can be created and written *)
  write_ok : string -> bool
}.

(** ** Record normalizer: [_convert_timestamp] *)

(** An [Optional[str]] as a field value. *)
Definition opt_str (o : option string) : value :=
  match o with Some s => VStr s | None => VNone end.

Definition _convert_timestamp (env : Env) (timestamp : value) : value :=
  match timestamp with
  | VInt n =>
      if (10 ^ 12 <? n)%Z then
        opt_str (option_map PyTime.isoformat
                   (PyTime.fromtimestamp_float (utcoffset env)
                      (PyTime.int_truediv_1000 n)))
      else if (10 ^ 9 <? n)%Z then
        opt_str (option_map PyTime.isoformat
                   (PyTime.fromtimestamp_int (utcoffset env) n))
      else VNone
  | VFloat x =>
      if PyTime.float_gtb x (10 ^ 12) then
        opt_str (option_map PyTime.isoformat
                   (PyTime.fromtimestamp_float (utcoffset env)
                      (PyTime.float_truediv_1000 x)))
      else if PyTime.float_gtb x (10 ^ 9) then
        opt_str (option_map PyTime.isoformat
                   (PyTime.fromtimestamp_float (utcoffset env) x))
      else VNone
  | VStr s =>
      match normalize_iso env s with
      | Some iso => VStr iso
      | None => VStr s
      end
  | _ => VNone
  end.

(** ** KeyStore: [extract_db_type], [parse_keys] *)

(** A database descriptor, the [dict] with the keys [path], [key],
    [cipher_compatibility] and [type]. *)
Record DbInfo := {
  db_path : string;
  db_key : string;
  cipher_compatibility : Z;
  db_type : string
}.

Fixpoint first_nonempty (parts : list string) : option string :=
  match parts with
  | [] => None
  | p :: r => if PyStr.truthy p then Some p else first_nonempty r
  end.

(** The loop runs [i] from [len(parts) - 2] down to 0: every part but the
    last, from the back. *)
Definition extract_db_type (filepath : string) : string :=
  let parts := PyStr.split "/" filepath in
  match first_nonempty (List.rev (removelast parts)) with
  | Some p => p
  | None => "unknown"
  end.

Definition not_char (q c : ascii) : bool := negb (Ascii.eqb c q).

(** [re.match(prefix + "([^q]+)" + q, line)] for a quote character [q]:
    the group is the longest run without [q] after the prefix, it is not
    empty, and [q] follows it.  What comes after is not looked at. *)
Definition match_quoted (prefix : string) (q : ascii) (line : string)
  : option string :=
  match PyStr.strip_prefix prefix line with
  | None => None
  | Some r =>
      let (g, tl) := PyStr.span (not_char q) r in
      if PyStr.truthy g && PyStr.startswith (String q "") tl then Some g
      else None
  end.

Definition path_match (line : string) : option string :=
  match_quoted "sqlcipher db path: '" "'" line.

Definition dquote : ascii := ascii_of_nat 34.

Definition key_match (line : string) : option string :=
  match_quoted ("PRAGMA key = " ++ String dquote "") dquote line.

Definition mk_key_info (current_path current_key : string) : DbInfo :=
  {| db_path := current_path;
     db_key := current_key;
     cipher_compatibility := 3;
     db_type := extract_db_type current_path |}.

(** The body of [for line in lines], with the variable [current_path] and
    the list [keys] as the state the loop carries. *)
Fixpoint parse_lines (lines : list string) (current_path : string)
    (keys : list DbInfo) : list DbInfo :=
  match lines with
  | [] => keys
  | line :: rest =>
      let line := PyStr.strip line in
      if negb (PyStr.truthy line) then parse_lines rest current_path keys
      else
        match path_match line with
        | Some p => parse_lines rest p keys
        | None =>
            match key_match line with
            | Some k =>
                if PyStr.truthy current_path then
                  parse_lines rest "" (keys ++ [mk_key_info current_path k])
                else parse_lines rest current_path keys
            | None => parse_lines rest current_path keys
            end
        end
  end.

Definition parse_keys (content : string) : list DbInfo :=
  parse_lines (PyStr.split PyStr.newline content) "" [].

(** ** The extractor object and its effects *)

Inductive exn :=
| UnboundLocalError   (** a local variable read before it was assigned *)
| IOError.            (** a file could not be read or written *)

Inductive level := ERROR | WARNING | INFO.

(** The log lines kept: the warnings and errors of [load_keys],
    [connect_database], [save_to_json], [run] and [main], and the closing
    line of [main].  The other log calls decide nothing and are left out. *)
Inductive log_msg :=
| MissingDatabaseFile (path : string)
| LoadKeysFailed
| DecryptFailed (path : string)
| NoValidDatabase
| NoChatRecords
| SaveFailed
| RunFailed
| ExtractionDone
| MainFailed.

(** What reaches the driver: each [sqlite.connect] and each [PRAGMA key]. *)
Inductive event :=
| EvConnect (path : string)
| EvKey (path : string) (key_format : string).

(** The document [save_to_json] writes. *)
Record OutputData := {
  meta_extracted_at : string;
  total_messages : nat;
  total_databases : nat;
  source_keys_file : string;
  messages : list dict
}.

Record State := {
  databases : list DbInfo;           (** [self.databases] *)
  chat_data : list dict;             (** [self.chat_data] *)
  clock : nat;                       (** readings of the clock so far *)
  trace : list event;
  log : list (level * log_msg);
  written : option (string * OutputData)
}.

Definition initial_state : State :=
  {| databases := []; chat_data := []; clock := 0; trace := []; log := [];
     written := None |}.

Inductive result (A : Type) :=
| Ok (a : A)
| Raise (e : exn).

Arguments Ok {A} a.
Arguments Raise {A} e.

Definition M (A : Type) : Type := State -> result A * State.

Definition ret {A} (a : A) : M A := fun st => (Ok a, st).

Definition raise {A} (e : exn) : M A := fun st => (Raise e, st).

Definition bind {A B} (m : M A) (k : A -> M B) : M B :=
  fun st =>
    match m st with
    | (Ok a, st') => k a st'
    | (Raise e, st') => (Raise e, st')
    end.

Notation "x <- m ;; k" := (bind m (fun x => k))
  (at level 61, m at next level, right associativity).
Notation "m ;;; k" := (bind m (fun _ => k))
  (at level 61, right associativity).

Definition emit (e : event) : M unit := fun st =>
  (Ok tt, {| databases := databases st; chat_data := chat_data st;
             clock := clock st; trace := trace st ++ [e]; log := log st;
             written := written st |}).

Definition logger (l : level) (m : log_msg) : M unit := fun st =>
  (Ok tt, {| databases := databases st; chat_data := chat_data st;
             clock := clock st; trace := trace st; log := log st ++ [(l, m)];
             written := written st |}).

(** [datetime.now().isoformat()] *)
Definition now (env : Env) : M string := fun st =>
  (Ok (now_iso env (clock st)),
   {| databases := databases st; chat_data := chat_data st;
      clock := S (clock st); trace := trace st; log := log st;
      written := written st |}).

Definition get_databases : M (list DbInfo) := fun st => (Ok (databases st), st).

Definition get_chat_data : M (list dict) := fun st => (Ok (chat_data st), st).

Definition append_database (d : DbInfo) : M unit := fun st =>
  (Ok tt, {| databases := databases st ++ [d]; chat_data := chat_data st;
             clock := clock st; trace := trace st; log := log st;
             written := written st |}).

Definition extend_chat_data (ms : list dict) : M unit := fun st =>
  (Ok tt, {| databases := databases st; chat_data := chat_data st ++ ms;
             clock := clock st; trace := trace st; log := log st;
             written := written st |}).

Definition write_output (path : string) (o : OutputData) : M unit := fun st =>
  (Ok tt, {| databases := databases st; chat_data := chat_data st;
             clock := clock st; trace := trace st; log := log st;
             written := Some (path, o) |}).

Fixpoint for_each {A} (l : list A) (body : A -> M unit) : M unit :=
  match l with
  | [] => ret tt
  | x :: r => body x ;;; for_each r body
  end.

(** ** [load_keys] *)

Definition load_key_info (env : Env) (key_info : DbInfo) : M unit :=
  let db_path := db_path key_info in
  if path_exists env db_path then
    append_database {| db_path := db_path;
                       db_key := db_key key_info;
                       cipher_compatibility := cipher_compatibility key_info;
                       db_type := db_type key_info |}
  else logger WARNING (MissingDatabaseFile db_path).

Definition load_keys (env : Env) (keys_file_path : string) : M unit :=
  match read_text env keys_file_path with
  | None => logger ERROR LoadKeysFailed ;;; raise IOError
  | Some content =>
      for_each (parse_keys content) (load_key_info env)
  end.

(** ** Opening a database: [connect_database] *)

(** [s[2:-1]] *)
Definition slice_2_m1 (s : string) : string :=
  match s with
  | String _ (String _ r) => PyStr.rev (match PyStr.rev r with
                                        | String _ t => t
                                        | EmptyString => EmptyString
                                        end)
  | _ => EmptyString
  end.

Definition quoted (s : string) : string :=
  (String dquote "" ++ s ++ String dquote "")%string.

Definition key_formats (original_key : string) : list string :=
  if PyStr.startswith "x'" original_key && PyStr.endswith "'" original_key
  then
    let hex_key := slice_2_m1 original_key in
    [("x'" ++ hex_key ++ "'")%string; original_key; quoted original_key;
     hex_key]
  else
    [original_key; quoted original_key; ("x'" ++ original_key ++ "'")%string].

(** The loop over [key_formats].  [conn_bound] tells whether the local
    variable [conn] has been assigned: the handler of a failed attempt
    reads it before it closes the connection.  Closing leaves nothing the
    state keeps. *)
Fixpoint try_key_formats (env : Env) (db_info : DbInfo)
    (formats : list string) (conn_bound : bool) : M (option Conn) :=
  match formats with
  | [] =>
      logger WARNING (DecryptFailed (db_path db_info)) ;;; ret None
  | key_format :: rest =>
      emit (EvConnect (db_path db_info)) ;;;
      if sqlite_connect env (db_path db_info) then
        emit (EvKey (db_path db_info) key_format) ;;;
        match sqlite_unlock env (db_path db_info) key_format
                (cipher_compatibility db_info) with
        | Some conn => ret (Some conn)
        | None => try_key_formats env db_info rest true
        end
      else if conn_bound then try_key_formats env db_info rest true
      else raise UnboundLocalError
  end.

Definition connect_database (env : Env) (db_info : DbInfo) : M (option Conn) :=
  try_key_formats env db_info (key_formats (db_key db_info)) false.

(** ** [get_table_names], [validate_chat_table] *)

Definition get_table_names (conn : Conn) : list string :=
  match query_names conn "SELECT name FROM sqlite_master WHERE type='table'" with
  | Some tables => tables
  | None => []
  end.

Definition table_info_sql (table_name : string) : string :=
  ("PRAGMA table_info(" ++ table_name ++ ")")%string.

Definition count_sql (table_name : string) : string :=
  ("SELECT COUNT(" ++ "*" ++ ") FROM " ++ table_name)%string.

Definition has_msg_id (columns : list string) : bool :=
  existsb (fun col => existsb (String.eqb col) columns)
    ["meslocalid"; "messvrid"; "localid"].

Definition has_time (columns : list string) : bool :=
  existsb (fun col => PyStr.contains "time" col) columns.

Definition has_content (columns : list string) : bool :=
  existsb (fun col =>
             existsb (fun keyword => PyStr.contains keyword col)
               ["content"; "message"; "msg"]) columns.

Definition validate_chat_table (conn : Conn) (table_name : string)
  : bool * list string :=
  match query_names conn (table_info_sql table_name) with
  | None => (false, [])
  | Some names =>
      let columns := map PyStr.lower names in
      match query_count conn (count_sql table_name) with
      | None => (false, [])
      | Some row_count =>
          if (row_count =? 0)%Z then (false, columns)
          else
            let is_valid :=
              has_msg_id columns || has_time columns || has_content columns in
            (is_valid, columns)
      end
  end.

(** ** Column resolver: [_find_column] *)

Fixpoint first_column_with (candidate : string) (columns : list string)
  : option string :=
  match columns with
  | [] => None
  | column :: r =>
      if PyStr.contains (PyStr.lower candidate) (PyStr.lower column)
      then Some column
      else first_column_with candidate r
  end.

Fixpoint _find_column (columns candidates : list string) : option string :=
  match candidates with
  | [] => None
  | candidate :: r =>
      match first_column_with candidate columns with
      | Some column => Some column
      | None => _find_column columns r
      end
  end.

(** ** Record normalizer: [extract_chat_data] *)

(** [if col:] for an [Optional[str]] *)
Definition col_truthy (c : option string) : bool :=
  match c with Some s => PyStr.truthy s | None => false end.

(** [field == field_mapping.get(role)] *)
Fixpoint mapping_get (role : string) (m : list (string * string))
  : option string :=
  match m with
  | [] => None
  | (r, c) :: t => if String.eqb role r then Some c else mapping_get role t
  end.

Definition is_role (field role : string) (m : list (string * string)) : bool :=
  match mapping_get role m with
  | Some c => String.eqb field c
  | None => false
  end.

Definition in_list (x : string) (l : list string) : bool :=
  existsb (String.eqb x) l.

(** One [if col:] block: the column joins [select_fields] and the mapping. *)
Definition add_role (role : string) (col : option string)
    (acc : list string * list (string * string))
  : list string * list (string * string) :=
  match col with
  | Some c =>
      if PyStr.truthy c then (fst acc ++ [c], snd acc ++ [(role, c)])
      else acc
  | None => acc
  end.

Definition sender_candidates := ["meslocalid"; "messvrid"; "localid"].
Definition time_candidates := ["msgcreatetime"; "createtime"; "timestamp"; "time"].
Definition content_candidates := ["msgcontent"; "content"; "message"; "msg"].
Definition msgid_candidates := ["meslocalid"; "messvrid"; "msgid"; "id"; "localid"].
Definition type_candidates := ["messagetype"; "msgtype"; "type"].

(** The five [if ..._col:] blocks, in the order of the source. *)
Definition role_fields (columns : list string)
  : list string * list (string * string) :=
  add_role "type" (_find_column columns type_candidates)
    (add_role "msgid" (_find_column columns msgid_candidates)
       (add_role "content" (_find_column columns content_candidates)
          (add_role "time" (_find_column columns time_candidates)
             (add_role "sender" (_find_column columns sender_candidates)
                ([], []))))).

(** [for col in columns: if col not in select_fields and col not in ['rowid']] *)
Fixpoint add_other_columns (columns select_fields : list string) : list string :=
  match columns with
  | [] => select_fields
  | col :: r =>
      if negb (in_list col select_fields) && negb (in_list col ["rowid"])
      then add_other_columns r (select_fields ++ [col])
      else add_other_columns r select_fields
  end.

Definition select_fields_of (columns : list string) : list string :=
  add_other_columns columns (fst (role_fields columns)).

Definition field_mapping_of (columns : list string) : list (string * string) :=
  snd (role_fields columns).

(** The body of [for i, field in enumerate(select_fields)]. *)
Definition store_field (env : Env) (field_mapping : list (string * string))
    (message : dict) (field : string) (raw : value) : dict :=
  let value := decode_field raw in
  if is_role field "time" field_mapping && value_truthy value then
    dict_set "timestamp_raw" value
      (dict_set "timestamp" (_convert_timestamp env value) message)
  else if is_role field "sender" field_mapping then
    dict_set "sender" value message
  else if is_role field "content" field_mapping then
    dict_set "content" value message
  else if is_role field "msgid" field_mapping then
    dict_set "message_id" value message
  else if is_role field "type" field_mapping then
    dict_set "message_type" value message
  else dict_set field value message.

(** [row[i] if i < len(row) else None], for the fields from index [i] on. *)
Fixpoint store_fields (env : Env) (field_mapping : list (string * string))
    (fields : list string) (i : nat) (row : list value) (message : dict)
  : dict :=
  match fields with
  | [] => message
  | field :: r =>
      let value := match nth_error row i with Some v => v | None => VNone end in
      store_fields env field_mapping r (S i) row
        (store_field env field_mapping message field value)
  end.

Definition new_message (db_info : DbInfo) (table_name extracted_at : string)
  : dict :=
  [("database_path", VStr (db_path db_info));
   ("database_type", VStr (db_type db_info));
   ("table_name", VStr table_name);
   ("extracted_at", VStr extracted_at)].

Definition build_message (env : Env) (db_info : DbInfo) (table_name : string)
    (select_fields : list string) (field_mapping : list (string * string))
    (row : list value) : M dict :=
  extracted_at <- now env ;;
  ret (store_fields env field_mapping select_fields 0 row
         (new_message db_info table_name extracted_at)).

Fixpoint build_messages (env : Env) (db_info : DbInfo) (table_name : string)
    (select_fields : list string) (field_mapping : list (string * string))
    (rows : list (list value)) : M (list dict) :=
  match rows with
  | [] => ret []
  | row :: r =>
      m <- build_message env db_info table_name select_fields field_mapping row ;;
      ms <- build_messages env db_info table_name select_fields field_mapping r ;;
      ret (m :: ms)
  end.

Fixpoint join (sep : string) (l : list string) : string :=
  match l with
  | [] => EmptyString
  | [x] => x
  | x :: r => (x ++ sep ++ join sep r)%string
  end.

(** The query text up to its [LIMIT] clause. *)
Definition select_sql (select_fields : list string) (table_name : string)
  : string :=
  ("SELECT " ++ join ", " select_fields ++ " FROM " ++ table_name)%string.

Definition batch_size : nat := 1000.

(** [while True]: one window of the rows per round, until a window is
    empty; an exception ends the loop with the messages so far.  The loop
    is cut after [fuel] rounds, which [extract_chat_data] sets past the
    last window. *)
Fixpoint fetch_batches (fuel : nat) (env : Env) (conn : Conn)
    (db_info : DbInfo) (table_name : string) (select_fields : list string)
    (field_mapping : list (string * string)) (offset : nat)
    (messages : list dict) : M (list dict) :=
  match fuel with
  | O => ret messages
  | S fuel' =>
      match query_rows conn (select_sql select_fields table_name) with
      | None => ret messages
      | Some all =>
          let rows := firstn batch_size (skipn offset all) in
          match rows with
          | [] => ret messages
          | _ =>
              ms <- build_messages env db_info table_name select_fields
                      field_mapping rows ;;
              fetch_batches fuel' env conn db_info table_name select_fields
                field_mapping (offset + batch_size) (messages ++ ms)
          end
      end
  end.

Definition extract_chat_data (env : Env) (conn : Conn) (table_name : string)
    (columns : list string) (db_info : DbInfo) : M (list dict) :=
  let select_fields := select_fields_of columns in
  let field_mapping := field_mapping_of columns in
  match select_fields with
  | [] => ret []
  | _ =>
      let rounds :=
        match query_rows conn (select_sql select_fields table_name) with
        | Some all => S (List.length all)
        | None => 1
        end in
      fetch_batches rounds env conn db_info table_name select_fields
        field_mapping 0 []
  end.

(** ** Orchestrator: [extract_all_chats], [save_to_json], [run], [main] *)

Definition process_table (env : Env) (conn : Conn) (db_info : DbInfo)
    (table_name : string) : M unit :=
  let (is_valid, columns) := validate_chat_table conn table_name in
  if is_valid then
    messages <- extract_chat_data env conn table_name columns db_info ;;
    extend_chat_data messages
  else ret tt.

(** The body of [for db_info in message_dbs + other_dbs]. *)
Definition process_database (env : Env) (db_info : DbInfo) : M unit :=
  conn <- connect_database env db_info ;;
  match conn with
  | None => ret tt
  | Some conn =>
      let tables := get_table_names conn in
      let chat_tables := find_chat_tables tables in
      for_each chat_tables (process_table env conn db_info)
  end.

Definition is_message_db (db : DbInfo) : bool := String.eqb (db_type db) "Message".

Definition processing_order (dbs : list DbInfo) : list DbInfo :=
  filter is_message_db dbs ++ filter (fun db => negb (is_message_db db)) dbs.

Definition extract_all_chats (env : Env) : M unit :=
  dbs <- get_databases ;;
  for_each (processing_order dbs) (process_database env).

Definition save_to_json (env : Env) (keys_file_path output_path : string)
  : M unit :=
  if write_ok env output_path then
    extracted_at <- now env ;;
    chat <- get_chat_data ;;
    dbs <- get_databases ;;
    write_output output_path
      {| meta_extracted_at := extracted_at;
         total_messages := List.length chat;
         total_databases := List.length dbs;
         source_keys_file := keys_file_path;
         messages := chat |}
  else logger ERROR SaveFailed ;;; raise IOError.

(** [try: ... except Exception as e: logger.error(...); raise] *)
Definition log_and_reraise {A} (m : M A) : M A := fun st =>
  match m st with
  | (Ok a, st') => (Ok a, st')
  | (Raise e, st') =>
      match logger ERROR RunFailed st' with
      | (_, st'') => (Raise e, st'')
      end
  end.

Definition run (env : Env) (keys_file_path output_path : string) : M unit :=
  log_and_reraise
    (load_keys env keys_file_path ;;;
     dbs <- get_databases ;;
     match dbs with
     | [] => logger ERROR NoValidDatabase
     | _ =>
         extract_all_chats env ;;;
         chat <- get_chat_data ;;
         match chat with
         | [] => logger WARNING NoChatRecords
         | _ => save_to_json env keys_file_path output_path
         end
     end).

(** [main] without the mode flags: the exit status of the process and the
    state it leaves. *)
Definition main (env : Env) (keys_file output : string) : Z * State :=
  if negb (path_exists env keys_file) then (1%Z, initial_state)
  else
    match run env keys_file output initial_state with
    | (Ok _, st) =>
        (0%Z, snd (logger INFO ExtractionDone st))
    | (Raise _, st) =>
        (1%Z, snd (logger ERROR MainFailed st))
    end.

(** ** A reference engine, to state scenarios over concrete databases *)

Module Engine.

Record Table := {
  table_name : string;
  table_columns : list string;
  table_rows : list (list value)
}.

(** SQLite matches identifiers without regard to ASCII case. *)
Definition same_name (a b : string) : bool :=
  String.eqb (PyStr.lower a) (PyStr.lower b).

Definition find_table (db : list Table) (name : string) : option Table :=
  find (fun t => same_name (table_name t) name) db.

Fixpoint column_index (columns : list string) (name : string) : option nat :=
  match columns with
  | [] => None
  | c :: r =>
      if same_name c name then Some 0
      else option_map S (column_index r name)
  end.

Fixpoint column_indexes (columns fields : list string) : option (list nat) :=
  match fields with
  | [] => Some []
  | f :: r =>
      match column_index columns f, column_indexes columns r with
      | Some i, Some ix => Some (i :: ix)
      | _, _ => None
      end
  end.

Definition project (t : Table) (fields : list string)
  : option (list (list value)) :=
  match column_indexes (table_columns t) fields with
  | Some ix => Some (map (fun row => map (fun i => nth i row VNone) ix)
                       (table_rows t))
  | None => None
  end.

(** the text before and after the first occurrence of [sep] *)
Fixpoint cut (sep s : string) : option (string * string) :=
  match PyStr.strip_prefix sep s with
  | Some r => Some (EmptyString, r)
  | None =>
      match s with
      | EmptyString => None
      | String c r =>
          match cut sep r with
          | Some (a, b) => Some (String c a, b)
          | None => None
          end
      end
  end.

Fixpoint split_list (fuel : nat) (s : string) : list string :=
  match fuel with
  | O => [s]
  | S f =>
      match cut ", " s with
      | Some (a, b) => a :: split_list f b
      | None => [s]
      end
  end.

Definition names_of (db : list Table) (sql : string) : option (list string) :=
  if String.eqb sql "SELECT name FROM sqlite_master WHERE type='table'"
  then Some (map table_name db)
  else
    match PyStr.strip_prefix "PRAGMA table_info(" sql with
    | Some r =>
        match cut ")" r with
        | Some (name, EmptyString) =>
            match find_table db name with
            | Some t => Some (table_columns t)
            | None => Some []
            end
        | _ => None
        end
    | None => None
    end.

Definition count_of (db : list Table) (sql : string) : option Z :=
  match PyStr.strip_prefix (count_sql "") sql with
  | Some name =>
      match find_table db name with
      | Some t => Some (Z.of_nat (List.length (table_rows t)))
      | None => None
      end
  | None => None
  end.

Definition rows_of (db : list Table) (sql : string)
  : option (list (list value)) :=
  match PyStr.strip_prefix "SELECT " sql with
  | Some r =>
      match cut " FROM " r with
      | Some (fields, name) =>
          match find_table db name with
          | Some t => project t (split_list (String.length fields) fields)
          | None => None
          end
      | None => None
      end
  | None => None
  end.

Definition connection (db : list Table) : Conn :=
  {| query_names := names_of db;
     query_count := count_of db;
     query_rows := rows_of db |}.

End Engine.

(** ** Reading the loops *)

(** How the loop of [parse_keys] reads one line. *)
Inductive line_kind :=
| Blank
| PathLine (path : string)
| KeyLine (key : string)
| OtherLine.

Definition classify (line : string) : line_kind :=
  let line := PyStr.strip line in
  if negb (PyStr.truthy line) then Blank
  else match path_match line with
       | Some p => PathLine p
       | None => match key_match line with
                 | Some k => KeyLine k
                 | None => OtherLine
                 end
       end.

Definition is_path_line (line : string) : Prop :=
  exists p, classify line = PathLine p.

Definition is_key_line (line : string) : Prop :=
  exists k, classify line = KeyLine k.

(** Neither a path line nor a key line. *)
Definition ignored (line : string) : Prop :=
  classify line = Blank \/ classify line = OtherLine.

(** The loop cut in two: the state the first part leaves. *)
Fixpoint pending_after (lines : list string) (cp : string) : string :=
  match lines with
  | [] => cp
  | line :: rest =>
      match classify line with
      | Blank | OtherLine => pending_after rest cp
      | PathLine p => pending_after rest p
      | KeyLine _ => pending_after rest (if PyStr.truthy cp then "" else cp)
      end
  end.

(** The messages [build_messages] makes of [rows] when the clock has been
    read [c] times, and the state with the clock read [n] times more. *)
Fixpoint messages_from (env : Env) (db_info : DbInfo) (table_name : string)
    (select_fields : list string) (field_mapping : list (string * string))
    (rows : list (list value)) (c : nat) : list dict :=
  match rows with
  | [] => []
  | row :: r =>
      store_fields env field_mapping select_fields 0 row
        (new_message db_info table_name (now_iso env c))
      :: messages_from env db_info table_name select_fields field_mapping r (S c)
  end.

Definition tick (st : State) (n : nat) : State :=
  {| databases := databases st; chat_data := chat_data st;
     clock := clock st + n; trace := trace st; log := log st;
     written := written st |}.

(** State updates, to say what a method leaves behind. *)
Definition with_trace (st : State) (evs : list event) : State :=
  {| databases := databases st; chat_data := chat_data st;
     clock := clock st; trace := trace st ++ evs; log := log st;
     written := written st |}.

Definition with_log (st : State) (entries : list (level * log_msg)) : State :=
  {| databases := databases st; chat_data := chat_data st;
     clock := clock st; trace := trace st; log := log st ++ entries;
     written := written st |}.

(** The driver events of trying the key formats [formats] one by one. *)
Definition attempts (path : string) (formats : list string) : list event :=
  flat_map (fun f => [EvConnect path; EvKey path f]) formats.

(** The key formats that reached the driver, in order. *)
Definition keys_tried (tr : list event) : list string :=
  flat_map (fun e => match e with EvKey _ f => [f] | EvConnect _ => [] end) tr.

Definition event_path (e : event) : string :=
  match e with
  | EvConnect p => p
  | EvKey p _ => p
  end.

(** What a step of the run may do to the state when every driver event it
    adds satisfies [P]: the databases and the written file stay, the
    messages and the trace only grow. *)
Definition grows (P : event -> Prop) (st st' : State) : Prop :=
  databases st' = databases st
  /\ written st' = written st
  /\ (exists ms, chat_data st' = chat_data st ++ ms)
  /\ (exists evs, trace st' = trace st ++ evs /\ Forall P evs).

(** The state [load_keys] leaves when the keys file reads as [content]. *)
Definition usable (env : Env) (content : string) : list DbInfo :=
  filter (fun d => path_exists env (db_path d)) (parse_keys content).

Definition missing_warnings (env : Env) (content : string)
  : list (level * log_msg) :=
  map (fun d => (WARNING, MissingDatabaseFile (db_path d)))
    (filter (fun d => negb (path_exists env (db_path d))) (parse_keys content)).

Definition loaded (env : Env) (content : string) : State :=
  {| databases := usable env content; chat_data := []; clock := 0;
     trace := []; log := missing_warnings env content; written := None |}.

(** Where a key of a message comes from: it was there, it is the name of
    the field stored, or it is the canonical name of a mapped role. *)
Definition role_key (fm : list (string * string)) (k : string) : Prop :=
  ((k = "timestamp" \/ k = "timestamp_raw") /\ mapping_get "time" fm <> None)
  \/ (k = "sender" /\ mapping_get "sender" fm <> None)
  \/ (k = "content" /\ mapping_get "content" fm <> None)
  \/ (k = "message_id" /\ mapping_get "msgid" fm <> None)
  \/ (k = "message_type" /\ mapping_get "type" fm <> None).

(** ** Reading a [datetime] back as an instant *)

(** The day count of a date, to read a [datetime] back as an instant. *)
Definition days_from_civil (y m d : Z) : Z :=
  (let y' := if m <=? 2 then y - 1 else y in
   let era := y' / 400 in
   let yoe := y' - era * 400 in
   let mp := if 2 <? m then m - 3 else m + 9 in
   let doy := (153 * mp + 2) / 5 + d - 1 in
   let doe := yoe * 365 + yoe / 4 - yoe / 100 + doy in
   era * 146097 + doe - 719468)%Z.

(** Seconds from 1970-01-01T00:00:00 to a naive [datetime]. *)
Definition seconds_of_datetime (dt : PyTime.datetime) : Z :=
  (days_from_civil (PyTime.year dt) (PyTime.month dt) (PyTime.day dt) * 86400
   + PyTime.hour dt * 3600 + PyTime.minute dt * 60 + PyTime.second dt)%Z.

(** Local seconds of 0001-01-01T00:00:00 and of 10000-01-01T00:00:00. *)
Definition min_local : Z := (-62135596800)%Z.
Definition max_local : Z := 253402300800%Z.

(** ** Statements of the specification, for comparison *)

(** The table-name predicate in the words of the specification: [chat]
    followed only by digits. *)
Definition chat_then_digits (s : string) : bool :=
  match PyStr.strip_prefix "chat" s with
  | Some r => PyStr.all_chars PyStr.is_digit r
  | None => false
  end.

Definition claimed_chat_table_name (name : string) : bool :=
  let l := PyStr.lower name in
  PyStr.startswith "chat_" l
  || PyStr.startswith "chatroom_" l
  || PyStr.startswith "message_" l
  || String.eqb l "chat"
  || chat_then_digits l
  || (PyStr.contains "chat" l && PyStr.contains "room" l).

(** What [$] lets through besides: digits and then one line feed. *)
Definition chat_digits_newline (s : string) : bool :=
  match PyStr.strip_prefix "chat" s with
  | Some r =>
      let (ds, tl) := PyStr.span PyStr.is_digit r in
      PyStr.truthy ds && String.eqb tl (String PyStr.newline "")
  | None => false
  end.

(** Validity of a table with rows in the words of the specification: the
    id fragments are looked for inside the column names. *)
Definition claimed_valid_columns (columns : list string) : bool :=
  existsb (fun col =>
             existsb (fun k => PyStr.contains k col)
               ["meslocalid"; "messvrid"; "localid"]) columns
  || has_time columns
  || has_content columns.

(** The key without its [x'...'] wrapping, as the specification puts the
    second encoding. *)
Definition strip_markers (key : string) : string :=
  if PyStr.startswith "x'" key && PyStr.endswith "'" key
  then slice_2_m1 key else key.

(** ** Scenarios *)

Definition line_feed : string := String PyStr.newline "".

Definition chat42_newline : string := ("chat42" ++ String PyStr.newline "")%string.

(** A table with one row whose only column is [LocalId2]. *)
Definition localid2_db : list Engine.Table :=
  [{| Engine.table_name := "Chat_1";
      Engine.table_columns := ["LocalId2"];
      Engine.table_rows := [[VInt 1]] |}].

(** A table that has a column named [sender]. *)
Definition sender_db : list Engine.Table :=
  [{| Engine.table_name := "Chat_7";
      Engine.table_columns := ["sender"; "msgcontent"];
      Engine.table_rows := [[VStr "bob"; VStr "hi"]] |}].

(** A keys file: two path lines, the first one without a key, and the key
    of the second. *)
Definition keys_text : string :=
  ("sqlcipher db path: '/a/Contact/c.db'" ++ line_feed
   ++ "sqlcipher db path: '/a/Message/m.db'" ++ line_feed
   ++ "PRAGMA key = " ++ quoted "x'ab'" ++ ";" ++ line_feed
   ++ "PRAGMA key = " ++ quoted "x'cd'" ++ ";")%string.

(** Surroundings with nothing on disk, UTC as the local time zone and a
    parser of ISO dates that accepts no text. *)
Definition utc_env : Env :=
  {| path_exists := fun _ => false;
     read_text := fun _ => None;
     sqlite_connect := fun _ => false;
     sqlite_unlock := fun _ _ _ => None;
     utcoffset := fun _ => 0%Z;
     normalize_iso := fun _ => None;
     now_iso := fun _ => "2024-01-01T00:00:00";
     write_ok := fun _ => true |}.

(** A driver that opens every file and accepts no key. *)
Definition locked_env : Env :=
  {| path_exists := fun _ => true;
     read_text := fun _ => None;
     sqlite_connect := fun _ => true;
     sqlite_unlock := fun _ _ _ => None;
     utcoffset := fun _ => 0%Z;
     normalize_iso := fun _ => None;
     now_iso := fun _ => "2024-01-01T00:00:00";
     write_ok := fun _ => true |}.

(** A readable keys file without any descriptor. *)
Definition empty_keys_env : Env :=
  {| path_exists := fun p => String.eqb p "/keys";
     read_text := fun p => if String.eqb p "/keys" then Some "" else None;
     sqlite_connect := fun _ => true;
     sqlite_unlock := fun _ _ _ => None;
     utcoffset := fun _ => 0%Z;
     normalize_iso := fun _ => None;
     now_iso := fun _ => "2024-01-01T00:00:00";
     write_ok := fun _ => true |}.

Definition db_ab : DbInfo := mk_key_info "/a/Message/m.db" "x'ab'".

(** A keys file with three descriptors: a [Message] database, a [Contact]
    database and a database whose file is gone. *)
Definition scenario_keys : string :=
  ("sqlcipher db path: '/a/Message/a.db'" ++ line_feed
   ++ "PRAGMA key = " ++ quoted "x'aa'" ++ ";" ++ line_feed
   ++ "sqlcipher db path: '/a/Contact/b.db'" ++ line_feed
   ++ "PRAGMA key = " ++ quoted "x'bb'" ++ ";" ++ line_feed
   ++ "sqlcipher db path: '/a/Group/gone.db'" ++ line_feed
   ++ "PRAGMA key = " ++ quoted "x'cc'" ++ ";")%string.

Definition db_a : DbInfo := mk_key_info "/a/Message/a.db" "x'aa'".
Definition db_b : DbInfo := mk_key_info "/a/Contact/b.db" "x'bb'".

(** The table of the end-to-end scenario. *)
Definition chat_100 (rows : list (list value)) : Engine.Table :=
  {| Engine.table_name := "Chat_100";
     Engine.table_columns := ["MesLocalID"; "MsgCreateTime"; "MsgContent"];
     Engine.table_rows := rows |}.

(** The surroundings of the scenarios.  The keys file is [/keys].  No key
    format unlocks [a.db]; [b.db] holds the table [Chat_100] with the rows
    [rows] and is unlocked by the bare hex digits of its key.  [a_opens]
    tells whether [sqlite.connect] returns for [a.db]: it raises, for
    instance, when the path is a directory. *)
Definition scenario_env (a_opens : bool) (rows : list (list value)) : Env :=
  {| path_exists := fun p =>
       in_list p ["/keys"; "/a/Message/a.db"; "/a/Contact/b.db"];
     read_text := fun p =>
       if String.eqb p "/keys" then Some scenario_keys else None;
     sqlite_connect := fun p =>
       if String.eqb p "/a/Message/a.db" then a_opens else true;
     sqlite_unlock := fun p key_format _ =>
       if String.eqb p "/a/Contact/b.db" && String.eqb key_format "bb"
       then Some (Engine.connection [chat_100 rows]) else None;
     utcoffset := fun _ => 0%Z;
     normalize_iso := fun _ => None;
     now_iso := fun _ => "2024-01-01T00:00:00";
     write_ok := fun _ => true |}.

Definition three_rows : list (list value) :=
  [[VInt 1; VInt 1700000000; VStr "hello"];
   [VInt 2; VInt 1700000060; VStr "world"];
   [VInt 3; VInt 0; VBytes [Byte.xff; Byte.x00]]].

(** A state whose [self.databases] is [dbs]. *)
Definition state_with (dbs : list DbInfo) : State :=
  {| databases := dbs; chat_data := []; clock := 0; trace := []; log := [];
     written := None |}.

(** The record the row [(id, time, content)] of [Chat_100] turns into when
    it is built at the [n]-th reading of the clock. *)
Definition chat_100_record (env : Env) (n : nat) (id time content : value)
  : dict :=
  new_message db_b "Chat_100" (now_iso env n)
  ++ [("sender", decode_field id)]
  ++ (if value_truthy (decode_field time)
      then [("timestamp", _convert_timestamp env (decode_field time));
            ("timestamp_raw", decode_field time)]
      else [("msgcreatetime", decode_field time)])
  ++ [("content", decode_field content)].

(** The properties the amended scenario keeps of a record of [Chat_100]. *)
Definition record_of_row (env : Env) (m : dict) (id time content : value)
  : Prop :=
  dict_get "sender" m = Some (decode_field id)
  /\ dict_get "content" m = Some (decode_field content)
  /\ (if value_truthy (decode_field time)
      then dict_get "timestamp" m
           = Some (_convert_timestamp env (decode_field time))
           /\ dict_get "timestamp_raw" m = Some (decode_field time)
      else dict_get "timestamp" m = None
           /\ dict_get "msgcreatetime" m = Some (decode_field time)).


(** ** Definitions for the further properties *)

(** Whether the loop of [parse_keys] reads a line as a path or a key line. *)
Definition is_pair_line (line : string) : bool :=
  match classify line with
  | PathLine _ | KeyLine _ => true
  | Blank | OtherLine => false
  end.

Definition is_path_lineb (line : string) : bool :=
  match classify line with PathLine _ => true | _ => false end.

Definition is_key_lineb (line : string) : bool :=
  match classify line with KeyLine _ => true | _ => false end.

(** A digit of [bytes.hex]. *)
Definition is_hex_char (c : ascii) : bool :=
  existsb (Ascii.eqb c) (list_ascii_of_string "0123456789abcdef").

(** The fields one [if col:] block adds to the query. *)
Definition role_column (col : option string) : list string :=
  match col with
  | Some c => if PyStr.truthy c then [c] else []
  | None => []
  end.

(** Where a message comes from: a row of a chat table that passed the
    validation, in the database [d] unlocked by one of the formats of its
    key. *)
Definition from_database (env : Env) (d : DbInfo) (m : dict) : Prop :=
  exists key_format conn table_name columns all row c,
    In key_format (key_formats (db_key d))
    /\ sqlite_unlock env (db_path d) key_format (cipher_compatibility d)
       = Some conn
    /\ In table_name (find_chat_tables (get_table_names conn))
    /\ validate_chat_table conn table_name = (true, columns)
    /\ query_rows conn (select_sql (select_fields_of columns) table_name)
       = Some all
    /\ In row all
    /\ m = store_fields env (field_mapping_of columns)
             (select_fields_of columns) 0 row
             (new_message d table_name (now_iso env c)).

(** A step that keeps [self.databases] and only appends messages that
    satisfy [Q]. *)
Definition adds (Q : dict -> Prop) (st st' : State) : Prop :=
  databases st' = databases st
  /\ exists ms, chat_data st' = chat_data st ++ ms /\ Forall Q ms.

(** The two lines of a keys file that describe one database, and the text
    of a keys file that describes the databases [pairs], each given by
    its path and its key. *)
Definition path_line (p : string) : string :=
  ("sqlcipher db path: '" ++ p ++ "'")%string.

Definition key_line (k : string) : string :=
  ("PRAGMA key = " ++ quoted k ++ ";")%string.

Fixpoint keys_file_of (pairs : list (string * string)) : string :=
  match pairs with
  | [] => EmptyString
  | (p, k) :: r =>
      (path_line p ++ String PyStr.newline
         (key_line k ++ String PyStr.newline (keys_file_of r)))%string
  end.

(** A text that can stand between the quotes [q] on one line. *)
Definition quotable (q : ascii) (s : string) : bool :=
  PyStr.truthy s
  && PyStr.all_chars (fun c => not_char q c && not_char PyStr.newline c) s.



(** The rows of a table that passes the validation. *)
Definition table_rows (conn : Conn) (table_name : string)
  : list (list value) :=
  match validate_chat_table conn table_name with
  | (true, columns) =>
      match query_rows conn
              (select_sql (select_fields_of columns) table_name) with
      | Some all => all
      | None => []
      end
  | (false, _) => []
  end.




(** * Properties *)

(** ** Strings *)

Lemma span_all_chars f s :
  PyStr.all_chars f s = String.eqb (snd (PyStr.span f s)) "".
Proof.
  induction s as [|c r IH]; simpl; [reflexivity|].
  destruct (f c); simpl.
  - destruct (PyStr.span f r) as [a b]; simpl in *. exact IH.
  - reflexivity.
Qed.

Lemma span_fst_empty f s :
  PyStr.truthy (fst (PyStr.span f s)) = false ->
  snd (PyStr.span f s) = s.
Proof.
  destruct s as [|c r]; simpl; [reflexivity|].
  destruct (f c); simpl; [|reflexivity].
  destruct (PyStr.span f r); simpl. discriminate.
Qed.

Lemma strip_prefix_app p s r :
  PyStr.strip_prefix p s = Some r -> s = (p ++ r)%string.
Proof.
  revert s; induction p as [|a p IH]; intros s; simpl.
  - intros H; inversion H; reflexivity.
  - destruct s as [|b s]; [discriminate|].
    destruct (Ascii.eqb_spec a b) as [->|]; [|discriminate].
    intros H. rewrite (IH _ H). reflexivity.
Qed.

Lemma strip_prefix_chat_empty l :
  PyStr.strip_prefix "chat" l = Some "" -> l = "chat".
Proof. intros H. apply strip_prefix_app in H. exact H. Qed.

Lemma startswith_spec p : forall s,
  PyStr.startswith p s = true <-> exists r, s = (p ++ r)%string.
Proof.
  induction p as [|a p IH]; intros s; simpl.
  - split; [intros _; exists s; reflexivity|reflexivity].
  - destruct s as [|b s].
    + split; [discriminate|intros [r H]; discriminate H].
    + rewrite andb_true_iff, IH. split.
      * intros [E [r ->]]. apply Ascii.eqb_eq in E. subst. exists r. reflexivity.
      * intros [r H]. inversion H; subst. split; [apply Ascii.eqb_refl|].
        exists r. reflexivity.
Qed.

Lemma contains_spec p : forall s,
  PyStr.contains p s = true <-> exists a b, s = (a ++ p ++ b)%string.
Proof.
  induction s as [|c s IH].
  - cbn [PyStr.contains]. rewrite orb_false_r, startswith_spec. split.
    + intros [r H]. exists "", r. exact H.
    + intros [a [b H]]. destruct a; [exists b; exact H|discriminate H].
  - cbn [PyStr.contains]. rewrite orb_true_iff, startswith_spec, IH. split.
    + intros [[r H]|[a [b H]]].
      * exists "", r. exact H.
      * exists (String c a), b. rewrite H. reflexivity.
    + intros [a [b H]]. destruct a as [|x a].
      * left. exists b. exact H.
      * right. inversion H; subst. exists a, b. reflexivity.
Qed.

Lemma append_assoc a b c : ((a ++ b) ++ c)%string = (a ++ b ++ c)%string.
Proof. induction a; simpl; congruence. Qed.

Lemma rev_onto_app s : forall acc,
  PyStr.rev_onto s acc = (PyStr.rev s ++ acc)%string.
Proof.
  unfold PyStr.rev. induction s as [|c s IH]; intros acc; [reflexivity|].
  cbn [PyStr.rev_onto]. rewrite IH, (IH (String c "")).
  rewrite append_assoc. reflexivity.
Qed.

Lemma rev_cons c s : PyStr.rev (String c s) = (PyStr.rev s ++ String c "")%string.
Proof. unfold PyStr.rev at 1. cbn [PyStr.rev_onto]. apply rev_onto_app. Qed.

Lemma append_nil_r s : (s ++ "")%string = s.
Proof. induction s; simpl; congruence. Qed.

Lemma rev_app a : forall b,
  PyStr.rev (a ++ b) = (PyStr.rev b ++ PyStr.rev a)%string.
Proof.
  induction a as [|c a IH]; intros b.
  - cbn. rewrite append_nil_r. reflexivity.
  - cbn [append]. rewrite !rev_cons, IH, append_assoc. reflexivity.
Qed.

Lemma rev_involutive s : PyStr.rev (PyStr.rev s) = s.
Proof.
  induction s as [|c s IH]; [reflexivity|].
  rewrite rev_cons, rev_app, IH. reflexivity.
Qed.


(** ** Table classifier *)

(** The condition of [find_chat_tables] is the predicate of the
    specification, or [chat], digits and a closing line feed. *)
Lemma is_chat_table_name_spec name :
  is_chat_table_name name =
  claimed_chat_table_name name || chat_digits_newline (PyStr.lower name).
Proof.
  unfold is_chat_table_name, claimed_chat_table_name.
  set (l := PyStr.lower name).
  assert (E : String.eqb l "chat" || match_chat_digits l =
              String.eqb l "chat" || chat_then_digits l || chat_digits_newline l).
  { unfold match_chat_digits, chat_then_digits, chat_digits_newline.
    destruct (PyStr.strip_prefix "chat" l) as [r|] eqn:P;
      [|rewrite !orb_false_r; reflexivity].
    rewrite span_all_chars.
    pose proof (span_fst_empty PyStr.is_digit r) as Hs.
    destruct (PyStr.span PyStr.is_digit r) as [ds tl]; cbn [fst snd] in Hs |- *.
    destruct (PyStr.truthy ds) eqn:T; simpl.
    - destruct (String.eqb tl ""), (String.eqb l "chat"),
        (String.eqb tl (String PyStr.newline "")); reflexivity.
    - specialize (Hs eq_refl). subst tl.
      destruct (String.eqb_spec r "") as [->|N]; simpl.
      + apply strip_prefix_chat_empty in P. rewrite P. reflexivity.
      + rewrite !orb_false_r. reflexivity. }
  set (a := PyStr.startswith "chat_" l).
  set (b := String.eqb l "chat") in *.
  set (c := match_chat_digits l) in *.
  set (d := PyStr.startswith "chatroom_" l).
  set (e := PyStr.startswith "message_" l).
  set (f := PyStr.contains "chat" l && PyStr.contains "room" l).
  set (g := chat_then_digits l) in *.
  set (h := chat_digits_newline l) in *.
  clearbody a b c d e f g h.
  destruct a, b, d, e, f, g, h; cbn in E |- *; try rewrite E; reflexivity.
Qed.

(** The names the specification lists. *)
Lemma is_chat_table_name_listed :
  map is_chat_table_name
    ["Chat_1"; "chat"; "chat42"; "chatroom_7"; "message_5"; "ChatRoom";
     "UserInfo"; "Session"]
  = [true; true; true; true; true; true; false; false].
Proof. reflexivity. Qed.

(** C4, at the input where the code leaves the claim: the name [chat42]
    with a line feed behind it is not [chat] followed only by digits and
    meets no other clause of the predicate, yet [find_chat_tables] keeps
    it, because [$] also matches before a closing line feed. *)
Theorem chat_name_trailing_newline :
  is_chat_table_name chat42_newline = true /\
  claimed_chat_table_name chat42_newline = false /\
  find_chat_tables [chat42_newline] = [chat42_newline].
Proof. repeat split; reflexivity. Qed.

(** ** Table validation *)

Lemma existsb_eqb_In x l : existsb (String.eqb x) l = true <-> In x l.
Proof.
  rewrite existsb_exists. split.
  - intros [y [Hy E]]. apply String.eqb_eq in E. subst. exact Hy.
  - intros H. exists x. split; [exact H|apply String.eqb_refl].
Qed.

Lemma has_msg_id_spec columns :
  has_msg_id columns = true <->
  exists c, In c columns /\ (c = "meslocalid" \/ c = "messvrid" \/ c = "localid").
Proof.
  unfold has_msg_id. rewrite existsb_exists. split.
  - intros [k [Hk E]]. apply existsb_eqb_In in E. exists k. split; [exact E|].
    simpl in Hk. intuition.
  - intros [c [Hc E]]. exists c. split.
    + simpl. intuition.
    + apply existsb_eqb_In. exact Hc.
Qed.

Lemma has_time_spec columns :
  has_time columns = true <->
  exists c, In c columns /\ PyStr.contains "time" c = true.
Proof. unfold has_time. apply existsb_exists. Qed.

Lemma has_content_spec columns :
  has_content columns = true <->
  exists c, In c columns /\
    (PyStr.contains "content" c = true \/ PyStr.contains "message" c = true
     \/ PyStr.contains "msg" c = true).
Proof.
  unfold has_content. rewrite existsb_exists. split.
  - intros [c [Hc E]]. exists c. split; [exact Hc|].
    apply existsb_exists in E. destruct E as [k [Hk E]].
    simpl in Hk. destruct Hk as [<-|[<-|[<-|[]]]]; auto.
  - intros [c [Hc E]]. exists c. split; [exact Hc|].
    apply existsb_exists.
    destruct E as [E|[E|E]];
      [exists "content"|exists "message"|exists "msg"];
      (split; [simpl; auto|exact E]).
Qed.

(** C2, the claim as stated fails: a table with one row and the single
    column [LocalId2] has a column name that contains [localid], and
    [validate_chat_table] finds it invalid. *)
Lemma validate_rejects_localid2 :
  validate_chat_table (Engine.connection localid2_db) "Chat_1"
    = (false, ["localid2"]) /\
  query_count (Engine.connection localid2_db) (count_sql "Chat_1") = Some 1%Z /\
  claimed_valid_columns ["localid2"] = true.
Proof. repeat split; reflexivity. Qed.

(** C2, amended: when the two metadata statements succeed, the columns
    returned are the lowercased names; a table without rows is invalid
    whatever its columns are; a table with rows is valid exactly when a
    column name is equal to [meslocalid], [messvrid] or [localid], or a
    column name contains [time], or a column name contains [content],
    [message] or [msg]. *)
Theorem validate_chat_table_spec conn table_name names row_count :
  query_names conn (table_info_sql table_name) = Some names ->
  query_count conn (count_sql table_name) = Some row_count ->
  let columns := map PyStr.lower names in
  let r := validate_chat_table conn table_name in
  snd r = columns /\
  (row_count = 0%Z -> fst r = false) /\
  (row_count <> 0%Z ->
   (fst r = true <->
    (exists c, In c columns /\
       (c = "meslocalid" \/ c = "messvrid" \/ c = "localid"))
    \/ (exists c, In c columns /\ PyStr.contains "time" c = true)
    \/ (exists c, In c columns /\
          (PyStr.contains "content" c = true
           \/ PyStr.contains "message" c = true
           \/ PyStr.contains "msg" c = true)))).
Proof.
  intros Hn Hc columns r. subst r. unfold validate_chat_table.
  rewrite Hn, Hc. fold columns.
  destruct (Z.eqb_spec row_count 0) as [->|Hz]; cbn [fst snd].
  - split; [reflexivity|]. split; [reflexivity|].
    intros H. contradiction H. reflexivity.
  - split; [reflexivity|]. split; [intros H; contradiction|].
    intros _. split.
    + intros H. apply orb_prop in H. destruct H as [H|H].
      * apply orb_prop in H. destruct H as [H|H].
        -- left. apply has_msg_id_spec. exact H.
        -- right; left. apply has_time_spec. exact H.
      * right; right. apply has_content_spec. exact H.
    + intros [H|[H|H]].
      * apply has_msg_id_spec in H. rewrite H. reflexivity.
      * apply has_time_spec in H. rewrite H. apply orb_true_iff.
        left. apply orb_true_r.
      * apply has_content_spec in H. rewrite H. apply orb_true_r.
Qed.

(** A run of the amended C2 on a table with rows and one on an empty one. *)
Lemma validate_chat_table_spec_witness :
  fst (validate_chat_table (Engine.connection localid2_db) "Chat_1") = false /\
  snd (validate_chat_table (Engine.connection localid2_db) "Chat_1")
    = ["localid2"].
Proof.
  destruct (validate_chat_table_spec (Engine.connection localid2_db)
              "Chat_1" ["LocalId2"] 1%Z eq_refl eq_refl) as [Hs [_ Hv]].
  split; [|exact Hs].
  destruct (fst (validate_chat_table (Engine.connection localid2_db) "Chat_1"))
    eqn:E; [|reflexivity].
  exfalso.
  assert (Hne : 1%Z <> 0%Z) by discriminate.
  destruct (proj1 (Hv Hne) eq_refl) as [[c [Hc H]]|[[c [Hc H]]|[c [Hc H]]]];
    simpl in Hc; destruct Hc as [<-|[]].
  - destruct H as [H|[H|H]]; discriminate.
  - discriminate.
  - destruct H as [H|[H|H]]; discriminate.
Defined.

(** ** KeyStore *)

Lemma parse_lines_cons line rest cp keys :
  parse_lines (line :: rest) cp keys =
  match classify line with
  | Blank | OtherLine => parse_lines rest cp keys
  | PathLine p => parse_lines rest p keys
  | KeyLine k =>
      if PyStr.truthy cp then parse_lines rest "" (keys ++ [mk_key_info cp k])
      else parse_lines rest cp keys
  end.
Proof.
  unfold classify. cbn [parse_lines].
  destruct (negb (PyStr.truthy (PyStr.strip line))); [reflexivity|].
  destruct (path_match (PyStr.strip line)); [reflexivity|].
  destruct (key_match (PyStr.strip line)); reflexivity.
Qed.

Lemma parse_lines_ignored line rest cp keys :
  ignored line -> parse_lines (line :: rest) cp keys = parse_lines rest cp keys.
Proof. intros [H|H]; rewrite parse_lines_cons, H; reflexivity. Qed.

Lemma parse_lines_skip mid rest cp keys :
  Forall ignored mid ->
  parse_lines (mid ++ rest) cp keys = parse_lines rest cp keys.
Proof.
  induction 1 as [|l mid Hl _ IH]; simpl app; [reflexivity|].
  rewrite parse_lines_ignored by exact Hl. exact IH.
Qed.

(** A match of either pattern is not the empty text. *)
Lemma match_quoted_truthy prefix q line g :
  match_quoted prefix q line = Some g -> PyStr.truthy g = true.
Proof.
  unfold match_quoted. destruct (PyStr.strip_prefix prefix line); [|discriminate].
  destruct (PyStr.span (not_char q) s) as [a b].
  destruct (PyStr.truthy a) eqn:T; cbn [andb]; [|discriminate].
  destruct (PyStr.startswith (String q "") b); [|discriminate].
  intros H; inversion H; subst; exact T.
Qed.

Lemma classify_path_truthy line p :
  classify line = PathLine p -> PyStr.truthy p = true.
Proof.
  unfold classify. destruct (negb _); [discriminate|].
  destruct (path_match (PyStr.strip line)) eqn:E.
  - intros H; inversion H; subst.
    exact (match_quoted_truthy _ _ _ _ E).
  - destruct (key_match _); discriminate.
Qed.


Lemma parse_lines_app pre rest : forall cp keys,
  parse_lines (pre ++ rest) cp keys =
  parse_lines rest (pending_after pre cp) (parse_lines pre cp keys).
Proof.
  induction pre as [|l pre IH]; intros cp keys; [reflexivity|].
  simpl app. rewrite !parse_lines_cons. cbn [pending_after].
  destruct (classify l); try apply IH.
  destruct (PyStr.truthy cp); apply IH.
Qed.

Lemma pending_after_app pre l cp :
  pending_after (pre ++ [l]) cp = pending_after [l] (pending_after pre cp).
Proof.
  revert cp. induction pre as [|x pre IH]; intros cp; [reflexivity|].
  simpl app. cbn [pending_after].
  destruct (classify x); apply IH.
Qed.

Lemma truthy_false s : PyStr.truthy s = false -> s = "".
Proof. destruct s; [reflexivity|discriminate]. Qed.

(** A path is pending after [pre] only if a path line of [pre] has nothing
    but ignored lines behind it. *)
Lemma pending_after_path pre :
  PyStr.truthy (pending_after pre "") = true ->
  exists pre1 p mid,
    pre = pre1 ++ p :: mid /\ is_path_line p /\ Forall ignored mid.
Proof.
  induction pre as [|l pre IH] using rev_ind; [discriminate|].
  rewrite pending_after_app. cbn [pending_after].
  destruct (classify l) eqn:C.
  - intros H. destruct (IH H) as [pre1 [p [mid [E [Hp Hm]]]]].
    exists pre1, p, (mid ++ [l]). subst pre. rewrite <- app_assoc. simpl.
    repeat split; try assumption.
    apply Forall_app. split; [exact Hm|]. constructor; [left; exact C|constructor].
  - intros _. exists pre, l, []. repeat split.
    + exists path. exact C.
    + constructor.
  - destruct (PyStr.truthy (pending_after pre "")) eqn:T; [discriminate|].
    rewrite T. discriminate.
  - intros H. destruct (IH H) as [pre1 [p [mid [E [Hp Hm]]]]].
    exists pre1, p, (mid ++ [l]). subst pre. rewrite <- app_assoc. simpl.
    repeat split; try assumption.
    apply Forall_app. split; [exact Hm|]. constructor; [right; exact C|constructor].
Qed.

(** Where a descriptor of the result comes from: the list the loop started
    with, the pending path and a key line, or a path line and a key line. *)
Lemma parse_lines_sound lines : forall cp keys d,
  In d (parse_lines lines cp keys) ->
  In d keys
  \/ (PyStr.truthy cp = true /\
      exists j lj,
        nth_error lines j = Some lj /\
        classify lj = KeyLine (db_key d) /\
        (forall m l, m < j -> nth_error lines m = Some l -> ignored l) /\
        d = mk_key_info cp (db_key d))
  \/ (exists i j li lj,
        i < j /\
        nth_error lines i = Some li /\ nth_error lines j = Some lj /\
        classify li = PathLine (db_path d) /\
        classify lj = KeyLine (db_key d) /\
        (forall m l, i < m < j -> nth_error lines m = Some l -> ignored l) /\
        d = mk_key_info (db_path d) (db_key d)).
Proof.
  induction lines as [|line rest IH]; intros cp keys d; [left; assumption|].
  rewrite parse_lines_cons.
  assert (Shift : forall cp' keys',
    ignored line ->
    In d (parse_lines rest cp' keys') ->
    In d keys'
    \/ (PyStr.truthy cp' = true /\
        exists j lj,
          nth_error (line :: rest) j = Some lj /\
          classify lj = KeyLine (db_key d) /\
          (forall m l, m < j -> nth_error (line :: rest) m = Some l -> ignored l) /\
          d = mk_key_info cp' (db_key d))
    \/ (exists i j li lj,
          i < j /\
          nth_error (line :: rest) i = Some li /\
          nth_error (line :: rest) j = Some lj /\
          classify li = PathLine (db_path d) /\
          classify lj = KeyLine (db_key d) /\
          (forall m l, i < m < j -> nth_error (line :: rest) m = Some l -> ignored l) /\
          d = mk_key_info (db_path d) (db_key d))).
  { intros cp' keys' Hig H. apply IH in H.
    destruct H as [H|[[T [j [lj [Hj [Cj [Hb E]]]]]]|H]]; [left; exact H| |].
    - right; left. split; [exact T|]. exists (S j), lj. repeat split; try assumption.
      intros m l Hm Hl. destruct m as [|m]; simpl in Hl.
      + inversion Hl; subst l. exact Hig.
      + apply (Hb m); [lia|exact Hl].
    - right; right.
      destruct H as [i [j [li [lj [Hij [Hi [Hj [Ci [Cj [Hb E]]]]]]]]]].
      exists (S i), (S j), li, lj. repeat split; try assumption; try lia.
      intros m l Hm Hl. destruct m as [|m]; [lia|]. simpl in Hl.
      apply (Hb m); [lia|exact Hl]. }
  destruct (classify line) eqn:C.
  - apply Shift. left. exact C.
  - (* a path line: what was pending is dropped *)
    intros H. apply IH in H.
    destruct H as [H|[[T [j [lj [Hj [Cj [Hb E]]]]]]|H]]; [left; exact H| |].
    + right; right. exists 0, (S j), line, lj.
      assert (Ep : path = db_path d) by (rewrite E; reflexivity).
      repeat split; try assumption; try lia.
      * rewrite <- Ep. exact C.
      * intros m l Hm Hl. destruct m as [|m]; [lia|]. simpl in Hl.
        apply (Hb m); [lia|exact Hl].
      * rewrite <- Ep. exact E.
    + right; right.
      destruct H as [i [j [li [lj [Hij [Hi [Hj [Ci [Cj [Hb E]]]]]]]]]].
      exists (S i), (S j), li, lj. repeat split; try assumption; try lia.
      intros m l Hm Hl. destruct m as [|m]; [lia|]. simpl in Hl.
      apply (Hb m); [lia|exact Hl].
  - (* a key line *)
    destruct (PyStr.truthy cp) eqn:T.
    + intros H. apply IH in H.
      destruct H as [H|[[T' _]|H]].
      * apply in_app_or in H. destruct H as [H|[H|[]]]; [left; exact H|].
        right; left. split; [reflexivity|]. exists 0, line.
        assert (Ek : key = db_key d) by (rewrite <- H; reflexivity).
        repeat split; try (rewrite <- Ek; assumption).
        -- intros m l Hm. lia.
        -- rewrite <- Ek. symmetry. exact H.
      * cbn in T'. discriminate T'.
      * right; right.
        destruct H as [i [j [li [lj [Hij [Hi [Hj [Ci [Cj [Hb E]]]]]]]]]].
        exists (S i), (S j), li, lj. repeat split; try assumption; try lia.
        intros m l Hm Hl. destruct m as [|m]; [lia|]. simpl in Hl.
        apply (Hb m); [lia|exact Hl].
    + intros H. apply IH in H.
      destruct H as [H|[[T' _]|H]]; [left; exact H|congruence|].
      right; right.
      destruct H as [i [j [li [lj [Hij [Hi [Hj [Ci [Cj [Hb E]]]]]]]]]].
      exists (S i), (S j), li, lj. repeat split; try assumption; try lia.
      intros m l Hm Hl. destruct m as [|m]; [lia|]. simpl in Hl.
      apply (Hb m); [lia|exact Hl].
  - apply Shift. right. exact C.
Qed.

(** C5: every descriptor [parse_keys] returns pairs a path line with the
    first key line behind it, with only ignored lines between the two; a
    path line followed by no key line before the next path line or the end
    of the text adds nothing to the result, and neither does a key line
    that no unconsumed path line precedes: the result is that of the text
    without the line. *)
Theorem parse_keys_well_formed content :
  let lines := PyStr.split PyStr.newline content in
  (forall d, In d (parse_keys content) ->
     exists i j li lj,
       i < j /\
       nth_error lines i = Some li /\ nth_error lines j = Some lj /\
       classify li = PathLine (db_path d) /\
       classify lj = KeyLine (db_key d) /\
       (forall m l, i < m < j -> nth_error lines m = Some l -> ignored l) /\
       cipher_compatibility d = 3%Z /\
       db_type d = extract_db_type (db_path d))
  /\ (forall pre p mid post,
        lines = pre ++ p :: mid ++ post ->
        is_path_line p ->
        Forall ignored mid ->
        post = [] \/ (exists q r, post = q :: r /\ is_path_line q) ->
        parse_keys content = parse_lines (pre ++ mid ++ post) "" [])
  /\ (forall pre k post,
        lines = pre ++ k :: post ->
        is_key_line k ->
        ~ (exists pre1 p mid,
             pre = pre1 ++ p :: mid /\ is_path_line p /\ Forall ignored mid) ->
        parse_keys content = parse_lines (pre ++ post) "" []).
Proof.
  intros lines. unfold parse_keys. fold lines. repeat split.
  - intros d H. apply parse_lines_sound in H.
    destruct H as [[]|[[T _]|H]]; [discriminate T|].
    destruct H as [i [j [li [lj [Hij [Hi [Hj [Ci [Cj [Hb E]]]]]]]]]].
    exists i, j, li, lj. repeat split; try assumption; try lia;
      rewrite E; reflexivity.
  - intros pre p mid post -> [pth Hp] Hm Hpost.
    rewrite (parse_lines_app pre (p :: mid ++ post)).
    rewrite (parse_lines_app pre (mid ++ post)).
    rewrite parse_lines_cons, Hp.
    rewrite !parse_lines_skip by exact Hm.
    destruct Hpost as [->|[q [r [-> [qp Hq]]]]]; [reflexivity|].
    rewrite !parse_lines_cons, Hq. reflexivity.
  - intros pre k post -> [key Hk] Hno.
    rewrite (parse_lines_app pre (k :: post)).
    rewrite (parse_lines_app pre post).
    rewrite parse_lines_cons, Hk.
    destruct (PyStr.truthy (pending_after pre "")) eqn:T.
    + exfalso. apply Hno. apply pending_after_path. exact T.
    + reflexivity.
Qed.

(** The theorem on [keys_text]: its first path line has no key, its last
    key line has no path; the only descriptor joins the two lines between. *)
Lemma parse_keys_well_formed_witness :
  parse_keys keys_text
    = parse_lines (tl (PyStr.split PyStr.newline keys_text)) "" [] /\
  parse_keys ("PRAGMA key = " ++ quoted "x'cd'" ++ line_feed ++ keys_text)
    = parse_lines (PyStr.split PyStr.newline keys_text) "" [] /\
  forall d, In d (parse_keys keys_text) ->
    db_type d = extract_db_type (db_path d).
Proof.
  split; [|split].
  - apply (proj1 (proj2 (parse_keys_well_formed keys_text))
             [] "sqlcipher db path: '/a/Contact/c.db'" []
             (tl (PyStr.split PyStr.newline keys_text))).
    + reflexivity.
    + exists "/a/Contact/c.db". reflexivity.
    + constructor.
    + right. eexists. eexists. split; [reflexivity|].
      exists "/a/Message/m.db". reflexivity.
  - apply (proj2 (proj2 (parse_keys_well_formed
             ("PRAGMA key = " ++ quoted "x'cd'" ++ line_feed ++ keys_text)))
             [] ("PRAGMA key = " ++ quoted "x'cd'")%string
             (PyStr.split PyStr.newline keys_text)).
    + reflexivity.
    + exists "x'cd'". reflexivity.
    + intros [pre1 [p [mid [E _]]]]. destruct pre1; discriminate E.
  - intros d H.
    destruct (proj1 (parse_keys_well_formed keys_text) d H)
      as [i [j [li [lj [_ [_ [_ [_ [_ [_ [_ E]]]]]]]]]]].
    exact E.
Defined.

(** What [parse_keys] returns for [keys_text]. *)
Example parse_keys_text :
  parse_keys keys_text = [mk_key_info "/a/Message/m.db" "x'ab'"].
Proof. reflexivity. Qed.

(** ** Timestamps *)

Section Calendar.

Local Open Scope Z_scope.

Lemma civil_from_days_roundtrip days :
  let '(y, m, d) := PyTime.civil_from_days days in
  days_from_civil y m d = days.
Proof.
  unfold PyTime.civil_from_days, days_from_civil. cbv zeta.
  set (z := days + 719468).
  set (era := z / 146097).
  set (doe := z - era * 146097).
  set (yoe := (doe - doe / 1460 + doe / 36524 - doe / 146096) / 365).
  set (doy := doe - (365 * yoe + yoe / 4 - yoe / 100)).
  set (mp := (5 * doy + 2) / 153).
  assert (Hdoe : 0 <= doe <= 146096)
    by (subst doe era; Z.div_mod_to_equations; lia).
  assert (Hyoe : 0 <= yoe <= 399) by (subst yoe; Z.div_mod_to_equations; lia).
  assert (Hdoy : 0 <= doy <= 365)
    by (subst doy yoe; Z.div_mod_to_equations; lia).
  assert (Hmp : 0 <= mp <= 11) by (subst mp; Z.div_mod_to_equations; lia).
  assert (Hera : (yoe + era * 400) / 400 = era)
    by (Z.div_mod_to_equations; lia).
  destruct (mp <? 10) eqn:F.
  - replace (mp + 3 <=? 2) with false by lia.
    replace (2 <? mp + 3) with true by lia.
    rewrite Hera.
    replace (mp + 3 - 3) with mp by lia.
    replace (yoe + era * 400 - era * 400) with yoe by lia.
    subst doy z. lia.
  - replace (mp - 9 <=? 2) with true by lia.
    replace (2 <? mp - 9) with false by lia.
    replace (mp - 9 + 9) with mp by lia.
    replace (yoe + era * 400 + 1 - 1) with (yoe + era * 400) by lia.
    rewrite Hera.
    replace (yoe + era * 400 - era * 400) with yoe by lia.
    subst doy z. lia.
Qed.

Lemma civil_year_in_range days :
  -719162 <= days <= 2932896 ->
  1 <= fst (fst (PyTime.civil_from_days days)) <= 9999.
Proof.
  intros H. unfold PyTime.civil_from_days. cbv zeta. cbn [fst].
  destruct (_ <=? 2) eqn:E; destruct (_ <? 10) eqn:F in E |- *;
    Z.div_mod_to_equations; lia.
Qed.

Lemma civil_year_too_late days :
  2932896 < days -> 9999 < fst (fst (PyTime.civil_from_days days)).
Proof.
  intros H. unfold PyTime.civil_from_days. cbv zeta. cbn [fst].
  destruct (_ <=? 2) eqn:E; destruct (_ <? 10) eqn:F in E |- *;
    Z.div_mod_to_equations; lia.
Qed.

(** Inside the years 1 to 9999 the conversion returns, and the [datetime]
    it returns reads back as the local second it was made from. *)
Lemma datetime_of_timeval_in_range off sec us :
  min_local <= sec + off sec < max_local ->
  exists dt,
    PyTime.datetime_of_timeval off sec us = Some dt /\
    seconds_of_datetime dt = sec + off sec /\
    PyTime.microsecond dt = us.
Proof.
  unfold min_local, max_local. intros H.
  unfold PyTime.datetime_of_timeval.
  set (loc := sec + off sec) in *.
  pose proof (civil_from_days_roundtrip (loc / 86400)) as R.
  pose proof (civil_year_in_range (loc / 86400)) as Y.
  destruct (PyTime.civil_from_days (loc / 86400)) as [[y m] d].
  cbn [fst] in Y.
  assert (Hy : 1 <= y <= 9999) by (apply Y; Z.div_mod_to_equations; lia).
  replace ((1 <=? y) && (y <=? 9999))%bool with true
    by (symmetry; apply andb_true_iff; split; apply Z.leb_le; lia).
  eexists. split; [reflexivity|].
  unfold seconds_of_datetime. cbn. rewrite R. split; [|reflexivity].
  Z.div_mod_to_equations. lia.
Qed.

Lemma datetime_of_timeval_too_late off sec us :
  max_local <= sec + off sec ->
  PyTime.datetime_of_timeval off sec us = None.
Proof.
  unfold max_local. intros H. unfold PyTime.datetime_of_timeval.
  set (loc := sec + off sec) in *.
  pose proof (civil_year_too_late (loc / 86400)) as Y.
  destruct (PyTime.civil_from_days (loc / 86400)) as [[y m] d].
  cbn [fst] in Y.
  assert (Hy : 9999 < y) by (apply Y; Z.div_mod_to_equations; lia).
  replace (y <=? 9999) with false by lia.
  rewrite andb_false_r. reflexivity.
Qed.

End Calendar.

Section ConvertTimestamp.

Local Open Scope Z_scope.

Variable env : Env.

Let off := utcoffset env.

Lemma convert_int_small n : n <= 10 ^ 9 -> _convert_timestamp env (VInt n) = VNone.
Proof.
  intros H. unfold _convert_timestamp.
  replace (10 ^ 12 <? n) with false by lia.
  replace (10 ^ 9 <? n) with false by lia. reflexivity.
Qed.

Lemma convert_int_seconds n :
  10 ^ 9 < n <= 10 ^ 12 ->
  _convert_timestamp env (VInt n)
  = opt_str (option_map PyTime.isoformat (PyTime.fromtimestamp_int off n)).
Proof.
  intros H. unfold _convert_timestamp.
  replace (10 ^ 12 <? n) with false by lia.
  replace (10 ^ 9 <? n) with true by lia. reflexivity.
Qed.

Lemma convert_int_millis n :
  10 ^ 12 < n ->
  _convert_timestamp env (VInt n)
  = opt_str (option_map PyTime.isoformat
               (PyTime.fromtimestamp_float off (PyTime.int_truediv_1000 n))).
Proof.
  intros H. unfold _convert_timestamp.
  replace (10 ^ 12 <? n) with true by lia. reflexivity.
Qed.

Ltac year_2023 d :=
  replace (PyTime.civil_from_days _) with (2023, 11, d) by reflexivity;
  replace (1 <=? 2023) with true by reflexivity;
  replace (2023 <=? 9999) with true by reflexivity;
  cbn [andb option_map opt_str];
  unfold PyTime.isoformat; cbn [PyTime.year PyTime.month PyTime.day];
  replace (PyTime.pad 4 2023) with "2023"%string by reflexivity;
  replace (PyTime.pad 2 11) with "11"%string by reflexivity;
  eexists; cbn [append]; reflexivity.

(** The second 1700000000 falls on 13, 14 or 15 November 2023, whatever
    the time zone. *)
Lemma convert_1700000000 :
  (forall t, -86400 < off t < 86400) ->
  exists s, _convert_timestamp env (VInt 1700000000) = VStr ("2023-11-" ++ s).
Proof.
  intros Hoff. rewrite convert_int_seconds by lia.
  unfold PyTime.fromtimestamp_int, PyTime.datetime_of_timeval.
  specialize (Hoff 1700000000).
  set (loc := 1700000000 + off 1700000000).
  assert (D : loc / 86400 = 19674 \/ loc / 86400 = 19675 \/ loc / 86400 = 19676)
    by (subst loc; Z.div_mod_to_equations; lia).
  destruct D as [D|[D|D]]; rewrite D;
    [year_2023 13|year_2023 14|year_2023 15].
Qed.

(** 1700000000000 / 1000 is the float 1700000000.0: the same instant. *)
Lemma convert_1700000000000 :
  _convert_timestamp env (VInt 1700000000000)
  = _convert_timestamp env (VInt 1700000000).
Proof.
  rewrite convert_int_millis by lia. rewrite convert_int_seconds by lia.
  unfold PyTime.fromtimestamp_float, PyTime.fromtimestamp_int.
  replace (PyTime.timeval_of_float (PyTime.int_truediv_1000 1700000000000))
    with (Some (1700000000, 0)) by (vm_compute; reflexivity).
  reflexivity.
Qed.

End ConvertTimestamp.

(** C6, the claim as stated fails: 10^12 is greater than 1e9 and at most
    1e12, so it is read as seconds; that second lies in the year 33658,
    [datetime.fromtimestamp] raises and the result is null. *)
Lemma convert_timestamp_1e12_is_null :
  (10 ^ 9 < 10 ^ 12 <= 10 ^ 12)%Z /\
  _convert_timestamp utc_env (VInt (10 ^ 12)) = VNone.
Proof. split; [lia|reflexivity]. Qed.

(** C6, amended.  An integer of 1e9 or less gives null.  An integer above
    1e9 and up to 1e12 is a second of the epoch: when its local time is
    before the year 10000 the result is the ISO text of a [datetime] that
    reads back as this second, otherwise null.  An integer above 1e12 is
    divided by 1000 as a float and converted as a float timestamp, null
    when that conversion raises.  A float compares the same way against
    1e9 and 1e12 (NaN is above neither).  1700000000 gives a text of
    November 2023, 1700000000000 gives the same text, 500 gives null.  A
    string is normalized when it parses as ISO-8601 and returned unchanged
    otherwise. *)
Theorem convert_timestamp_spec env :
  let off := utcoffset env in
  (forall n, (n <= 10 ^ 9)%Z -> _convert_timestamp env (VInt n) = VNone)
  /\ (forall n, (10 ^ 9 < n <= 10 ^ 12)%Z ->
        (min_local <= n + off n < max_local)%Z ->
        exists dt,
          _convert_timestamp env (VInt n) = VStr (PyTime.isoformat dt) /\
          seconds_of_datetime dt = (n + off n)%Z /\
          PyTime.microsecond dt = 0%Z)
  /\ (forall n, (10 ^ 9 < n <= 10 ^ 12)%Z ->
        (max_local <= n + off n)%Z ->
        _convert_timestamp env (VInt n) = VNone)
  /\ (forall n, (10 ^ 12 < n)%Z ->
        _convert_timestamp env (VInt n)
        = opt_str (option_map PyTime.isoformat
                     (PyTime.fromtimestamp_float off
                        (PyTime.int_truediv_1000 n))))
  /\ (forall x, PyTime.float_gtb x (10 ^ 9) = false ->
        _convert_timestamp env (VFloat x) = VNone)
  /\ (forall x, PyTime.float_gtb x (10 ^ 9) = true ->
        PyTime.float_gtb x (10 ^ 12) = false ->
        _convert_timestamp env (VFloat x)
        = opt_str (option_map PyTime.isoformat
                     (PyTime.fromtimestamp_float off x)))
  /\ (forall x, PyTime.float_gtb x (10 ^ 12) = true ->
        _convert_timestamp env (VFloat x)
        = opt_str (option_map PyTime.isoformat
                     (PyTime.fromtimestamp_float off
                        (PyTime.float_truediv_1000 x))))
  /\ ((forall t, (-86400 < off t < 86400)%Z) ->
      exists s,
        _convert_timestamp env (VInt 1700000000) = VStr ("2023-11-" ++ s))
  /\ _convert_timestamp env (VInt 1700000000000)
     = _convert_timestamp env (VInt 1700000000)
  /\ _convert_timestamp env (VInt 500) = VNone
  /\ (forall s iso, normalize_iso env s = Some iso ->
        _convert_timestamp env (VStr s) = VStr iso)
  /\ (forall s, normalize_iso env s = None ->
        _convert_timestamp env (VStr s) = VStr s).
Proof.
  intros off. repeat apply conj.
  - apply convert_int_small.
  - intros n Hn Hr. rewrite convert_int_seconds by exact Hn.
    unfold PyTime.fromtimestamp_int.
    destruct (datetime_of_timeval_in_range (utcoffset env) n 0%Z Hr)
      as [dt [E [Hs Hu]]].
    exists dt. rewrite E. repeat split; assumption.
  - intros n Hn Hr. rewrite convert_int_seconds by exact Hn.
    unfold PyTime.fromtimestamp_int.
    rewrite datetime_of_timeval_too_late by exact Hr. reflexivity.
  - apply convert_int_millis.
  - intros x H. cbn [_convert_timestamp].
    destruct (PyTime.float_gtb x (10 ^ 12)) eqn:G.
    + exfalso. revert H G. unfold PyTime.float_gtb.
      destruct x as [s|s| |s m e]; try discriminate.
      * destruct s; discriminate.
      * destruct (0 <=? e)%Z; intros H G;
          apply Z.ltb_ge in H; apply Z.ltb_lt in G; [lia|].
        assert (0 < 2 ^ (- e))%Z by (apply Z.pow_pos_nonneg; lia). nia.
    + rewrite H. reflexivity.
  - intros x H1 H2. cbn [_convert_timestamp]. rewrite H2, H1. reflexivity.
  - intros x H. cbn [_convert_timestamp]. rewrite H. reflexivity.
  - apply convert_1700000000.
  - apply convert_1700000000000.
  - reflexivity.
  - intros s iso H. cbn [_convert_timestamp]. rewrite H. reflexivity.
  - intros s H. cbn [_convert_timestamp]. rewrite H. reflexivity.
Qed.

(** The amended C6 in UTC: the last second of the year 9999 converts, the
    next one does not, and 1700000000 is a text of November 2023. *)
Lemma convert_timestamp_spec_witness :
  (exists dt,
     _convert_timestamp utc_env (VInt 253402300799) = VStr (PyTime.isoformat dt)
     /\ seconds_of_datetime dt = 253402300799%Z)
  /\ _convert_timestamp utc_env (VInt 253402300800) = VNone
  /\ (exists s,
        _convert_timestamp utc_env (VInt 1700000000) = VStr ("2023-11-" ++ s)).
Proof.
  destruct (convert_timestamp_spec utc_env)
    as [_ [Hin [Hout [_ [_ [_ [_ [H23 _]]]]]]]].
  split; [|split].
  - destruct (Hin 253402300799%Z) as [dt [E [Hs _]]].
    + split; [reflexivity|discriminate].
    + split; [discriminate|reflexivity].
    + exists dt. split; [exact E|exact Hs].
  - apply Hout.
    + split; [reflexivity|discriminate].
    + discriminate.
  - apply H23. intros t. split; reflexivity.
Defined.

(** ** Opening a database *)

Lemma with_trace_nil st : with_trace st [] = st.
Proof. destruct st; unfold with_trace; simpl. rewrite app_nil_r. reflexivity. Qed.

Lemma with_trace_app st a b :
  with_trace (with_trace st a) b = with_trace st (a ++ b).
Proof. unfold with_trace; simpl. rewrite app_assoc. reflexivity. Qed.

(** For a wrapped key with something between the markers, the first
    format is the key itself. *)
Lemma key_formats_rebuilt key :
  PyStr.startswith "x'" key && PyStr.endswith "'" key = true ->
  2 < String.length key ->
  ("x'" ++ slice_2_m1 key ++ "'")%string = key.
Proof.
  intros H L. apply andb_true_iff in H. destruct H as [Hs He].
  apply startswith_spec in Hs. destruct Hs as [r ->].
  destruct r as [|c r]; [cbn in L; lia|].
  unfold PyStr.endswith in He. apply startswith_spec in He.
  destruct He as [t He].
  change ("x'" ++ String c r)%string with (String "x" (String "'" (String c r))) in *.
  do 2 rewrite rev_cons in He.
  cbn [slice_2_m1].
  destruct (PyStr.rev (String c r)) as [|z u] eqn:R.
  - apply (f_equal PyStr.rev) in R. rewrite rev_involutive in R. discriminate R.
  - cbn in He. inversion He as [[Hz Ht]]. rewrite Hz in R.
    apply (f_equal PyStr.rev) in R. rewrite rev_involutive, rev_cons in R.
    rewrite R. reflexivity.
Qed.

Section ConnectDatabase.

Variable env : Env.
Variable db_info : DbInfo.

Let path := db_path db_info.
Let unlock f := sqlite_unlock env path f (cipher_compatibility db_info).

Hypothesis connect_ok : sqlite_connect env path = true.

Lemma try_key_formats_step f rest b st :
  try_key_formats env db_info (f :: rest) b st =
  match unlock f with
  | Some conn => (Ok (Some conn), with_trace st (attempts path [f]))
  | None =>
      try_key_formats env db_info rest true (with_trace st (attempts path [f]))
  end.
Proof.
  cbn [try_key_formats]. fold path. rewrite connect_ok.
  unfold bind, emit. fold path. fold (unlock f).
  replace (with_trace st (attempts path [f]))
    with {| databases := databases st; chat_data := chat_data st;
            clock := clock st;
            trace := (trace st ++ [EvConnect path]) ++ [EvKey path f];
            log := log st; written := written st |}
    by (unfold with_trace, attempts; simpl; rewrite <- app_assoc; reflexivity).
  cbn. destruct (unlock f); reflexivity.
Qed.

Lemma try_key_formats_first tried : forall f rest conn b st,
  (forall g, In g tried -> unlock g = None) ->
  unlock f = Some conn ->
  try_key_formats env db_info (tried ++ f :: rest) b st
  = (Ok (Some conn), with_trace st (attempts path (tried ++ [f]))).
Proof.
  induction tried as [|g tried IH]; intros f rest conn b st Hn Hf.
  - simpl app. rewrite try_key_formats_step, Hf. reflexivity.
  - simpl app. rewrite try_key_formats_step.
    rewrite (Hn g) by (left; reflexivity).
    rewrite IH with (conn := conn) by (auto; intros; apply Hn; right; assumption).
    rewrite with_trace_app. reflexivity.
Qed.

Lemma try_key_formats_none formats : forall b st,
  (forall g, In g formats -> unlock g = None) ->
  try_key_formats env db_info formats b st
  = (Ok None,
     with_log (with_trace st (attempts path formats))
       [(WARNING, DecryptFailed path)]).
Proof.
  induction formats as [|g formats IH]; intros b st Hn.
  - replace (with_trace st (attempts path [])) with st
      by (symmetry; apply with_trace_nil).
    reflexivity.
  - rewrite try_key_formats_step.
    rewrite (Hn g) by (left; reflexivity).
    rewrite IH by (intros; apply Hn; right; assumption).
    rewrite with_trace_app. reflexivity.
Qed.

Lemma try_key_formats_failed formats : forall b st,
  fst (try_key_formats env db_info formats b st) = Ok None ->
  forall g, In g formats -> unlock g = None.
Proof.
  induction formats as [|f formats IH]; intros b st H g Hg; [destruct Hg|].
  rewrite try_key_formats_step in H.
  destruct (unlock f) eqn:U; [discriminate H|].
  destruct Hg as [<-|Hg]; [exact U|].
  exact (IH _ _ H g Hg).
Qed.

(** When [sqlite.connect] returns, [connect_database] returns too. *)
Lemma try_key_formats_returns formats : forall b st,
  exists r, fst (try_key_formats env db_info formats b st) = Ok r.
Proof.
  induction formats as [|f formats IH]; intros b st.
  - exists None. reflexivity.
  - rewrite try_key_formats_step. destruct (unlock f) as [conn|].
    + exists (Some conn). reflexivity.
    + apply IH.
Qed.

End ConnectDatabase.

(** C7, the claim as stated fails.  With a key wrapped as [x'ab'] and a
    driver that accepts no key, the formats that reach the driver are the
    key, the key once more, the quoted key and only then the bare hex
    digits: the second attempt is not the key stripped of its markers.  A
    key that is not wrapped is tried in three formats, the last of which
    adds the markers. *)
Lemma connect_database_order_counterexample :
  keys_tried (trace (snd (connect_database locked_env db_ab initial_state)))
    = ["x'ab'"; "x'ab'"; quoted "x'ab'"; "ab"] /\
  strip_markers "x'ab'" = "ab" /\
  nth 1 (keys_tried
           (trace (snd (connect_database locked_env db_ab initial_state)))) ""
    <> strip_markers "x'ab'" /\
  keys_tried (trace (snd (connect_database locked_env
                            (mk_key_info "/a/Message/m.db" "secret")
                            initial_state)))
    = ["secret"; quoted "secret"; "x'secret'"].
Proof. repeat split; try reflexivity. discriminate. Qed.

(** C7, amended.  For a key of the form [x'...'] the formats tried are, in
    this order, [x'] + hex digits + ['] (which is the key again when there
    is something between its markers), the key as given, the key in double
    quotes and the bare hex digits; for any other key they are the key as
    given, the key in double quotes and the key wrapped in [x'...'].
    When [sqlite.connect] itself returns, [connect_database] returns the
    connection of the first format under which the key, the compatibility
    setting and the probe of [sqlite_master] all succeed, after trying the
    formats before it and no other; it returns no connection exactly after
    every format has failed. *)
Theorem connect_database_spec env db_info st :
  sqlite_connect env (db_path db_info) = true ->
  let key := db_key db_info in
  let path := db_path db_info in
  let formats := key_formats key in
  let unlock f := sqlite_unlock env path f (cipher_compatibility db_info) in
  (PyStr.startswith "x'" key && PyStr.endswith "'" key = true ->
   formats = [("x'" ++ slice_2_m1 key ++ "'")%string; key; quoted key;
              slice_2_m1 key])
  /\ (PyStr.startswith "x'" key && PyStr.endswith "'" key = true ->
      2 < String.length key ->
      ("x'" ++ slice_2_m1 key ++ "'")%string = key)
  /\ (PyStr.startswith "x'" key && PyStr.endswith "'" key = false ->
      formats = [key; quoted key; ("x'" ++ key ++ "'")%string])
  /\ (forall tried f rest conn,
        formats = tried ++ f :: rest ->
        (forall g, In g tried -> unlock g = None) ->
        unlock f = Some conn ->
        connect_database env db_info st
        = (Ok (Some conn), with_trace st (attempts path (tried ++ [f]))))
  /\ ((forall g, In g formats -> unlock g = None) ->
      connect_database env db_info st
      = (Ok None,
         with_log (with_trace st (attempts path formats))
           [(WARNING, DecryptFailed path)]))
  /\ (fst (connect_database env db_info st) = Ok None ->
      forall g, In g formats -> unlock g = None).
Proof.
  intros Hc key path formats unlock. repeat apply conj.
  - intros H. subst formats. unfold key_formats. fold key. rewrite H. reflexivity.
  - apply key_formats_rebuilt.
  - intros H. subst formats. unfold key_formats. fold key. rewrite H. reflexivity.
  - intros tried f rest conn E Hn Hf. unfold connect_database.
    fold key. fold formats. rewrite E.
    apply try_key_formats_first; assumption.
  - intros Hn. unfold connect_database. fold key. fold formats.
    apply try_key_formats_none; assumption.
  - intros H. unfold connect_database in H.
    exact (try_key_formats_failed env db_info Hc _ _ _ H).
Qed.

(** The amended C7 in the scenario: [b.db] opens under the fourth format,
    the bare hex digits; no format opens [a.db]. *)
Lemma connect_database_spec_witness :
  connect_database (scenario_env true three_rows) db_b initial_state
  = (Ok (Some (Engine.connection [chat_100 three_rows])),
     with_trace initial_state
       (attempts "/a/Contact/b.db" ["x'bb'"; "x'bb'"; quoted "x'bb'"; "bb"]))
  /\ fst (connect_database (scenario_env true three_rows) db_a initial_state)
     = Ok None.
Proof.
  split.
  - destruct (connect_database_spec (scenario_env true three_rows) db_b
                initial_state eq_refl) as [_ [_ [_ [H _]]]].
    apply (H ["x'bb'"; "x'bb'"; quoted "x'bb'"] "bb" []).
    + reflexivity.
    + intros g [<-|[<-|[<-|[]]]]; reflexivity.
    + reflexivity.
  - destruct (connect_database_spec (scenario_env true three_rows) db_a
                initial_state eq_refl) as [_ [_ [_ [_ [H _]]]]].
    rewrite H; [reflexivity|]. intros g _. reflexivity.
Defined.

(** ** Extraction of a table *)

Lemma tick_0 st : tick st 0 = st.
Proof. destruct st; unfold tick; simpl. rewrite Nat.add_0_r. reflexivity. Qed.

Lemma tick_tick st a b : tick (tick st a) b = tick st (a + b).
Proof. unfold tick; simpl. rewrite Nat.add_assoc. reflexivity. Qed.

Section ExtractTable.

Variable env : Env.
Variable conn : Conn.
Variable db_info : DbInfo.
Variable table_name : string.
Variable select_fields : list string.
Variable field_mapping : list (string * string).

Let from := messages_from env db_info table_name select_fields field_mapping.

Lemma build_messages_pure rows : forall st,
  build_messages env db_info table_name select_fields field_mapping rows st
  = (Ok (from rows (clock st)), tick st (List.length rows)).
Proof.
  induction rows as [|row rows IH]; intros st.
  - cbn. rewrite tick_0. reflexivity.
  - cbn [build_messages]. unfold bind at 1. unfold build_message at 1.
    unfold bind at 1. unfold now at 1. unfold ret at 1.
    unfold bind at 1. rewrite IH. cbn [clock]. unfold ret.
    unfold from. cbn [messages_from List.length].
    f_equal. unfold tick. cbn. f_equal. lia.
Qed.

Lemma messages_from_app a : forall b c,
  from (a ++ b) c = from a c ++ from b (c + List.length a).
Proof.
  induction a as [|x a IH]; intros b c.
  - simpl. rewrite Nat.add_0_r. reflexivity.
  - unfold from in *. simpl. rewrite IH. do 3 f_equal. lia.
Qed.

Lemma messages_from_length rows : forall c,
  List.length (from rows c) = List.length rows.
Proof.
  induction rows as [|x rows IH]; intros c; [reflexivity|].
  unfold from in *. simpl. rewrite IH. reflexivity.
Qed.

Lemma firstn_nil_inv {A} n (l : list A) : 0 < n -> firstn n l = [] -> l = [].
Proof. destruct n; [lia|]. destruct l; [reflexivity|discriminate]. Qed.

(** The loop of [extract_chat_data] walks through all the rows: with more
    rounds than rows are left, it ends on an empty window. *)
Lemma fetch_batches_all all :
  query_rows conn (select_sql select_fields table_name) = Some all ->
  forall fuel offset messages st,
    List.length all < fuel + offset ->
    fetch_batches fuel env conn db_info table_name select_fields
      field_mapping offset messages st
    = (Ok (messages ++ from (skipn offset all) (clock st)),
       tick st (List.length (skipn offset all))).
Proof.
  intros Hq.
  assert (Hb : 0 < batch_size) by (unfold batch_size; lia).
  induction fuel as [|fuel IH]; intros offset messages st H.
  - rewrite skipn_all2 by lia. cbn. rewrite app_nil_r, tick_0. reflexivity.
  - cbn [fetch_batches]. rewrite Hq.
    pose proof (firstn_skipn batch_size (skipn offset all)) as Split.
    rewrite skipn_skipn in Split.
    destruct (firstn batch_size (skipn offset all)) as [|row rows] eqn:F.
    + apply firstn_nil_inv in F; [|exact Hb]. rewrite F. cbn.
      rewrite app_nil_r, tick_0. reflexivity.
    + unfold bind. rewrite build_messages_pure.
      assert (Hlen : offset < List.length all).
      { destruct (Nat.lt_ge_cases offset (List.length all)) as [L|L]; [exact L|].
        rewrite skipn_all2 in F by exact L. rewrite firstn_nil in F.
        discriminate F. }
      rewrite IH by lia. rewrite <- Split.
      rewrite messages_from_app, length_app, tick_tick, <- app_assoc.
      cbn [clock tick].
      replace (offset + batch_size) with (batch_size + offset) by lia.
      reflexivity.
Qed.

End ExtractTable.

(** [extract_chat_data] returns, without raising: the messages of all the
    rows of the query, or no message when the query raises or no field is
    left to select. *)
Lemma extract_chat_data_pure env conn table_name columns db_info st :
  extract_chat_data env conn table_name columns db_info st
  = match select_fields_of columns with
    | [] => (Ok [], st)
    | _ =>
        match query_rows conn
                (select_sql (select_fields_of columns) table_name) with
        | Some all =>
            (Ok (messages_from env db_info table_name
                   (select_fields_of columns) (field_mapping_of columns)
                   all (clock st)),
             tick st (List.length all))
        | None => (Ok [], st)
        end
    end.
Proof.
  unfold extract_chat_data.
  destruct (select_fields_of columns) as [|f fs] eqn:S; [reflexivity|].
  destruct (query_rows conn (select_sql (f :: fs) table_name)) as [all|] eqn:Q.
  - rewrite (fetch_batches_all env conn db_info table_name (f :: fs)
               (field_mapping_of columns) all Q) by lia.
    reflexivity.
  - cbn [fetch_batches]. rewrite Q. reflexivity.
Qed.


(** ** Fields of a message record *)

Lemma dict_has_set k k' v d :
  dict_has k (dict_set k' v d) = String.eqb k k' || dict_has k d.
Proof.
  unfold dict_has. induction d as [|[a b] d IH]; simpl.
  - destruct (String.eqb k k'); reflexivity.
  - destruct (String.eqb_spec k' a) as [->|N]; simpl.
    + destruct (String.eqb k a); reflexivity.
    + destruct (String.eqb_spec k a) as [->|N2]; simpl.
      * rewrite orb_true_r. reflexivity.
      * exact IH.
Qed.

Lemma is_role_mapped field role m :
  is_role field role m = true -> mapping_get role m <> None.
Proof. unfold is_role. destruct (mapping_get role m); [discriminate|discriminate]. Qed.


Lemma store_field_keys env fm msg field v k :
  dict_has k (store_field env fm msg field v) = true ->
  dict_has k msg = true \/ k = field \/ role_key fm k.
Proof.
  unfold store_field, role_key.
  destruct (is_role field "time" fm && value_truthy (decode_field v)) eqn:T.
  - apply andb_true_iff in T. destruct T as [T _]. apply is_role_mapped in T.
    rewrite !dict_has_set. intros H.
    apply orb_true_iff in H. destruct H as [H|H].
    + apply String.eqb_eq in H. right; right. left. auto.
    + apply orb_true_iff in H. destruct H as [H|H]; [|left; exact H].
      apply String.eqb_eq in H. right; right. left. auto.
  - clear T.
    destruct (is_role field "sender" fm) eqn:R1;
      [|destruct (is_role field "content" fm) eqn:R2;
        [|destruct (is_role field "msgid" fm) eqn:R3;
          [|destruct (is_role field "type" fm) eqn:R4]]];
      rewrite dict_has_set; intros H;
      (apply orb_true_iff in H; destruct H as [H|H]; [|left; exact H]);
      apply String.eqb_eq in H.
    + apply is_role_mapped in R1. right; right. right; left. auto.
    + apply is_role_mapped in R2. right; right. right; right; left. auto.
    + apply is_role_mapped in R3. right; right. do 3 right; left. auto.
    + apply is_role_mapped in R4. right; right. do 4 right. auto.
    + right; left. exact H.
Qed.

Lemma store_field_keeps env fm msg field v k :
  dict_has k msg = true -> dict_has k (store_field env fm msg field v) = true.
Proof.
  intros H. unfold store_field.
  repeat match goal with
         | |- context [if ?c then _ else _] => destruct c
         end;
    rewrite ?dict_has_set, H; rewrite ?orb_true_r; reflexivity.
Qed.

Lemma store_fields_keys env fm fields : forall i row msg k,
  dict_has k (store_fields env fm fields i row msg) = true ->
  dict_has k msg = true \/ In k fields \/ role_key fm k.
Proof.
  induction fields as [|f fields IH]; intros i row msg k H; [left; exact H|].
  cbn [store_fields] in H. apply IH in H.
  destruct H as [H|[H|H]].
  - apply store_field_keys in H. destruct H as [H|[H|H]]; auto.
    right; left. left. symmetry. exact H.
  - right; left. right. exact H.
  - auto.
Qed.

Lemma store_fields_keeps env fm fields : forall i row msg k,
  dict_has k msg = true ->
  dict_has k (store_fields env fm fields i row msg) = true.
Proof.
  induction fields as [|f fields IH]; intros i row msg k H; [exact H|].
  cbn [store_fields]. apply IH. apply store_field_keeps. exact H.
Qed.

(** *** The columns the resolver returns *)

Lemma first_column_with_In cand columns c :
  first_column_with cand columns = Some c -> In c columns.
Proof.
  induction columns as [|x columns IH]; [discriminate|]. cbn.
  destruct (PyStr.contains _ _).
  - intros H; inversion H; left; reflexivity.
  - intros H; right; auto.
Qed.

Lemma find_column_In columns candidates c :
  _find_column columns candidates = Some c -> In c columns.
Proof.
  induction candidates as [|cand candidates IH]; [discriminate|]. cbn.
  destruct (first_column_with cand columns) eqn:F.
  - intros H; inversion H; subst. eapply first_column_with_In; eassumption.
  - exact IH.
Qed.

Lemma first_column_with_found cand columns c :
  In c columns ->
  PyStr.contains (PyStr.lower cand) (PyStr.lower c) = true ->
  first_column_with cand columns <> None.
Proof.
  induction columns as [|x columns IH]; [intros []|].
  intros [->|H] Hc; cbn.
  - rewrite Hc. discriminate.
  - destruct (PyStr.contains _ (PyStr.lower x)); [discriminate|auto].
Qed.

Lemma find_column_found columns candidates cand :
  In cand candidates ->
  first_column_with cand columns <> None ->
  _find_column columns candidates <> None.
Proof.
  induction candidates as [|x candidates IH]; [intros []|].
  intros [->|H] Hf; cbn.
  - destruct (first_column_with cand columns); [discriminate|contradiction].
  - destruct (first_column_with x columns); [discriminate|auto].
Qed.

(** A column that carries the canonical name of a role is matched by a
    candidate of that role; [sender] is matched by none. *)
Lemma named_column_resolved columns :
  (In "timestamp" columns -> _find_column columns time_candidates <> None)
  /\ (In "timestamp_raw" columns -> _find_column columns time_candidates <> None)
  /\ (In "content" columns -> _find_column columns content_candidates <> None)
  /\ (In "message_id" columns -> _find_column columns msgid_candidates <> None)
  /\ (In "message_type" columns -> _find_column columns type_candidates <> None).
Proof.
  repeat split; intros H.
  - apply find_column_found with (cand := "timestamp"); [simpl; auto|].
    eapply first_column_with_found; [exact H|reflexivity].
  - apply find_column_found with (cand := "timestamp"); [simpl; auto|].
    eapply first_column_with_found; [exact H|reflexivity].
  - apply find_column_found with (cand := "content"); [simpl; auto|].
    eapply first_column_with_found; [exact H|reflexivity].
  - apply find_column_found with (cand := "id"); [simpl; auto 6|].
    eapply first_column_with_found; [exact H|reflexivity].
  - apply find_column_found with (cand := "type"); [simpl; auto|].
    eapply first_column_with_found; [exact H|reflexivity].
Qed.

Lemma add_role_fields role col acc x :
  In x (fst (add_role role col acc)) -> In x (fst acc) \/ col = Some x.
Proof.
  unfold add_role. destruct col as [c|]; [|auto].
  destruct (PyStr.truthy c); [|auto]. cbn [fst].
  intros H. apply in_app_or in H. destruct H as [H|[<-|[]]]; auto.
Qed.

Lemma add_role_mapping role col acc r :
  mapping_get r (snd (add_role role col acc)) <> None ->
  mapping_get r (snd acc) <> None \/ (r = role /\ col <> None).
Proof.
  unfold add_role. destruct col as [c|]; [|auto].
  destruct (PyStr.truthy c); [|auto]. cbn [snd].
  generalize (snd acc). intros m. induction m as [|[a b] m IH]; cbn.
  - destruct (String.eqb_spec r role) as [->|N]; [|intros H; contradiction].
    intros _. right. split; [reflexivity|discriminate].
  - destruct (String.eqb r a); [intros _; left; discriminate|exact IH].
Qed.

Lemma role_fields_columns columns x :
  In x (fst (role_fields columns)) -> In x columns.
Proof.
  unfold role_fields. intros H.
  repeat (apply add_role_fields in H;
          destruct H as [H|H]; [|eapply find_column_In; exact H]).
  destruct H.
Qed.

Lemma add_other_columns_In columns : forall fields x,
  In x (add_other_columns columns fields) -> In x fields \/ In x columns.
Proof.
  induction columns as [|c columns IH]; intros fields x H; [left; exact H|].
  cbn [add_other_columns] in H.
  destruct (negb (in_list c fields) && negb (in_list c ["rowid"])).
  - apply IH in H. destruct H as [H|H]; [|right; right; exact H].
    apply in_app_or in H. destruct H as [H|[<-|[]]]; [left; exact H|].
    right; left; reflexivity.
  - apply IH in H. destruct H as [H|H]; [left|right; right]; exact H.
Qed.

Lemma select_fields_columns columns x :
  In x (select_fields_of columns) -> In x columns.
Proof.
  unfold select_fields_of. intros H. apply add_other_columns_In in H.
  destruct H as [H|H]; [apply role_fields_columns|]; exact H.
Qed.

Lemma field_mapping_resolved columns :
  (mapping_get "time" (field_mapping_of columns) <> None ->
   _find_column columns time_candidates <> None)
  /\ (mapping_get "sender" (field_mapping_of columns) <> None ->
      _find_column columns sender_candidates <> None)
  /\ (mapping_get "content" (field_mapping_of columns) <> None ->
      _find_column columns content_candidates <> None)
  /\ (mapping_get "msgid" (field_mapping_of columns) <> None ->
      _find_column columns msgid_candidates <> None)
  /\ (mapping_get "type" (field_mapping_of columns) <> None ->
      _find_column columns type_candidates <> None).
Proof.
  unfold field_mapping_of, role_fields.
  repeat split; intros H;
    repeat (apply add_role_mapping in H;
            destruct H as [H|[E H]]; [|try discriminate E; try exact H]);
    try (contradiction H; reflexivity).
Qed.

Lemma messages_from_In env db_info table_name fields fm rows : forall c m,
  In m (messages_from env db_info table_name fields fm rows c) ->
  exists row c',
    In row rows /\
    m = store_fields env fm fields 0 row
          (new_message db_info table_name (now_iso env c')).
Proof.
  induction rows as [|row rows IH]; intros c m H; [destruct H|].
  cbn [messages_from] in H. destruct H as [<-|H].
  - exists row, c. split; [left; reflexivity|reflexivity].
  - destruct (IH _ _ H) as [r [c' [Hr E]]]. exists r, c'.
    split; [right; exact Hr|exact E].
Qed.

Lemma extracted_message env conn table_name columns db_info st ms m :
  fst (extract_chat_data env conn table_name columns db_info st) = Ok ms ->
  In m ms ->
  exists row c,
    m = store_fields env (field_mapping_of columns) (select_fields_of columns)
          0 row (new_message db_info table_name (now_iso env c)).
Proof.
  rewrite extract_chat_data_pure.
  destruct (select_fields_of columns) as [|f fs] eqn:S.
  - intros H; inversion H; intros [].
  - destruct (query_rows conn (select_sql (f :: fs) table_name)) as [all|].
    + cbn [fst]. intros H; inversion H; subst ms. intros Hm.
      apply messages_from_In in Hm. destruct Hm as [row [c [_ E]]].
      exists row, c. exact E.
    + intros H; inversion H; intros [].
Qed.

(** C9, the claim as stated fails: the table [Chat_7] has a column named
    [sender], which no candidate of the sender role matches; the column is
    passed through under its own name, so the record has a [sender] field
    although no column was resolved for the role. *)
Lemma sender_field_without_sender_role :
  validate_chat_table (Engine.connection sender_db) "Chat_7"
    = (true, ["sender"; "msgcontent"]) /\
  exists m,
    fst (extract_chat_data utc_env (Engine.connection sender_db) "Chat_7"
           ["sender"; "msgcontent"] db_b initial_state) = Ok [m] /\
    dict_get "sender" m = Some (VStr "bob") /\
    _find_column ["sender"; "msgcontent"] sender_candidates = None.
Proof.
  split; [vm_compute; reflexivity|].
  eexists. split; [vm_compute; reflexivity|].
  split; vm_compute; reflexivity.
Qed.

(** C9, amended: every record [extract_chat_data] produces has the fields
    [database_path], [database_type], [table_name] and [extracted_at]; it
    has a field [timestamp], [content], [message_id] or [message_type] only
    if a column was resolved for that role, and a field [sender] only if a
    column was resolved for the sender role or the table has a column
    named [sender]. *)
Theorem message_record_fields env conn table_name columns db_info st ms m :
  fst (extract_chat_data env conn table_name columns db_info st) = Ok ms ->
  In m ms ->
  (dict_has "database_path" m = true /\ dict_has "database_type" m = true /\
   dict_has "table_name" m = true /\ dict_has "extracted_at" m = true)
  /\ (dict_has "timestamp" m = true ->
      _find_column columns time_candidates <> None)
  /\ (dict_has "content" m = true ->
      _find_column columns content_candidates <> None)
  /\ (dict_has "message_id" m = true ->
      _find_column columns msgid_candidates <> None)
  /\ (dict_has "message_type" m = true ->
      _find_column columns type_candidates <> None)
  /\ (dict_has "sender" m = true ->
      _find_column columns sender_candidates <> None \/ In "sender" columns).
Proof.
  intros He Hm.
  destruct (extracted_message _ _ _ _ _ _ _ _ He Hm) as [row [c ->]].
  destruct (named_column_resolved columns) as [N1 [_ [N3 [N4 N5]]]].
  destruct (field_mapping_resolved columns) as [F1 [F2 [F3 [F4 F5]]]].
  assert (Origin : forall k,
    dict_has k (store_fields env (field_mapping_of columns)
                  (select_fields_of columns) 0 row
                  (new_message db_info table_name (now_iso env c))) = true ->
    dict_has k (new_message db_info table_name (now_iso env c)) = true
    \/ In k columns \/ role_key (field_mapping_of columns) k).
  { intros k H. apply store_fields_keys in H.
    destruct H as [H|[H|H]]; auto.
    right; left. apply select_fields_columns. exact H. }
  split; [repeat split; apply store_fields_keeps; reflexivity|].
  repeat split; intros H; apply Origin in H;
    (destruct H as [H|[H|H]]; [discriminate H| |]); auto;
    unfold role_key in H;
    destruct H as [[[E|E] H]|[[E H]|[[E H]|[[E H]|[E H]]]]];
    try discriminate E; auto.
Qed.

(** The amended C9 on the first record of [Chat_100]. *)
Lemma message_record_fields_witness :
  let m := chat_100_record utc_env 0 (VInt 1) (VInt 1700000000) (VStr "hello") in
  dict_has "extracted_at" m = true /\
  (dict_has "timestamp" m = true ->
   _find_column ["meslocalid"; "msgcreatetime"; "msgcontent"] time_candidates
   <> None).
Proof.
  intros m.
  destruct (message_record_fields utc_env
              (Engine.connection [chat_100 three_rows]) "Chat_100"
              ["meslocalid"; "msgcreatetime"; "msgcontent"] db_b initial_state
              _ m eq_refl) as [[_ [_ [_ H4]]] [Ht _]].
  - left. reflexivity.
  - split; [exact H4|exact Ht].
Defined.

(** ** The end-to-end scenario *)

Lemma store_fields_chat_100 env d tn ea id t c :
  store_fields env
    [("sender", "meslocalid"); ("time", "msgcreatetime");
     ("content", "msgcontent"); ("msgid", "meslocalid")]
    ["meslocalid"; "msgcreatetime"; "msgcontent"; "meslocalid"]
    0 [id; t; c; id] (new_message d tn ea)
  = new_message d tn ea
    ++ [("sender", decode_field id)]
    ++ (if value_truthy (decode_field t)
        then [("timestamp", _convert_timestamp env (decode_field t));
              ("timestamp_raw", decode_field t)]
        else [("msgcreatetime", decode_field t)])
    ++ [("content", decode_field c)].
Proof.
  cbn [store_fields nth_error]. unfold store_field.
  repeat match goal with
         | |- context [is_role ?f ?r ?m] =>
             let b := eval vm_compute in (is_role f r m) in
             change (is_role f r m) with b
         end.
  cbn [andb].
  destruct (value_truthy (decode_field t)); reflexivity.
Qed.

Lemma process_table_chat_100 env id1 t1 c1 id2 t2 c2 id3 t3 c3 st :
  process_table env
    (Engine.connection [chat_100 [[id1; t1; c1]; [id2; t2; c2]; [id3; t3; c3]]])
    db_b "Chat_100" st
  = (Ok tt,
     {| databases := databases st;
        chat_data := chat_data st ++
          [chat_100_record env (clock st) id1 t1 c1;
           chat_100_record env (S (clock st)) id2 t2 c2;
           chat_100_record env (S (S (clock st))) id3 t3 c3];
        clock := clock st + 3; trace := trace st; log := log st;
        written := written st |}).
Proof.
  unfold process_table.
  replace (validate_chat_table _ "Chat_100")
    with (true, ["meslocalid"; "msgcreatetime"; "msgcontent"]) by reflexivity.
  unfold bind. rewrite extract_chat_data_pure.
  replace (select_fields_of ["meslocalid"; "msgcreatetime"; "msgcontent"])
    with ["meslocalid"; "msgcreatetime"; "msgcontent"; "meslocalid"]
    by reflexivity.
  replace (field_mapping_of ["meslocalid"; "msgcreatetime"; "msgcontent"])
    with [("sender", "meslocalid"); ("time", "msgcreatetime");
          ("content", "msgcontent"); ("msgid", "meslocalid")]
    by reflexivity.
  replace (query_rows _ _)
    with (Some [[id1; t1; c1; id1]; [id2; t2; c2; id2]; [id3; t3; c3; id3]])
    by reflexivity.
  cbn [messages_from]. rewrite !store_fields_chat_100.
  reflexivity.
Qed.

Lemma connect_b a_opens rows st :
  connect_database (scenario_env a_opens rows) db_b st
  = (Ok (Some (Engine.connection [chat_100 rows])),
     with_trace st (attempts "/a/Contact/b.db"
                      ["x'bb'"; "x'bb'"; quoted "x'bb'"; "bb"])).
Proof.
  unfold connect_database.
  apply (try_key_formats_first (scenario_env a_opens rows) db_b eq_refl
           ["x'bb'"; "x'bb'"; quoted "x'bb'"] "bb" []).
  - intros g [<-|[<-|[<-|[]]]]; reflexivity.
  - reflexivity.
Qed.

(** C1, the claim as stated fails.  In the scenario with the rows
    [three_rows], no record has a [message_id] field; the third row has
    the time 0 and a content that is not UTF-8, and its record has no
    [timestamp] field and holds the content as hex digits. *)
Lemma chat_100_claim_fails :
  map (dict_get "message_id")
    (chat_data (snd (extract_all_chats (scenario_env true three_rows)
                       (state_with [db_b]))))
  = [None; None; None] /\
  map (dict_get "timestamp")
    (chat_data (snd (extract_all_chats (scenario_env true three_rows)
                       (state_with [db_b]))))
  = [Some (VStr "2023-11-14T22:13:20"); Some (VStr "2023-11-14T22:14:20");
     None] /\
  map (dict_get "content")
    (chat_data (snd (extract_all_chats (scenario_env true three_rows)
                       (state_with [db_b]))))
  = [Some (VStr "hello"); Some (VStr "world"); Some (VStr "ff00")].
Proof. repeat split; vm_compute; reflexivity. Qed.

(** C1, amended: with one descriptor that points to a database whose table
    [Chat_100] has the columns [MesLocalID], [MsgCreateTime], [MsgContent]
    and three rows, extraction returns and yields exactly three records,
    one per row in row order.  Each record has [sender] equal to the
    [MesLocalID] value and [content] equal to the [MsgContent] value, where
    a [bytes] value is replaced by its UTF-8 text or else its hex digits.
    When the [MsgCreateTime] value is truthy the record has [timestamp],
    converted from it, and [timestamp_raw]; otherwise it has no [timestamp]
    and keeps the value under [msgcreatetime]. *)
Theorem chat_100_extraction id1 t1 c1 id2 t2 c2 id3 t3 c3 :
  let rows := [[id1; t1; c1]; [id2; t2; c2]; [id3; t3; c3]] in
  let env := scenario_env true rows in
  let r := extract_all_chats env (state_with [db_b]) in
  fst r = Ok tt /\
  exists m1 m2 m3,
    chat_data (snd r) = [m1; m2; m3] /\
    record_of_row env m1 id1 t1 c1 /\
    record_of_row env m2 id2 t2 c2 /\
    record_of_row env m3 id3 t3 c3.
Proof.
  intros rows env r.
  assert (E : r = (Ok tt,
    {| databases := [db_b];
       chat_data := [chat_100_record env 0 id1 t1 c1;
                     chat_100_record env 1 id2 t2 c2;
                     chat_100_record env 2 id3 t3 c3];
       clock := 3;
       trace := attempts "/a/Contact/b.db"
                  ["x'bb'"; "x'bb'"; quoted "x'bb'"; "bb"];
       log := []; written := None |})).
  { subst r. unfold extract_all_chats, bind, get_databases.
    cbn [state_with databases].
    replace (processing_order [db_b]) with [db_b] by reflexivity.
    cbn [for_each]. unfold bind, process_database. unfold bind.
    subst env. rewrite connect_b.
    replace (get_table_names _) with ["Chat_100"] by reflexivity.
    replace (find_chat_tables ["Chat_100"]) with ["Chat_100"] by reflexivity.
    cbn [for_each]. unfold bind. subst rows.
    rewrite process_table_chat_100. reflexivity. }
  rewrite E. split; [reflexivity|].
  assert (R : forall n id t c,
             record_of_row env (chat_100_record env n id t c) id t c).
  { intros n id t c. unfold record_of_row, chat_100_record.
    destruct (value_truthy (decode_field t)); repeat split; reflexivity. }
  do 3 eexists. split; [reflexivity|]. repeat split; apply R.
Qed.

(** ** The run *)

Lemma grows_refl P st : grows P st st.
Proof.
  repeat split; try reflexivity.
  - exists []. rewrite app_nil_r. reflexivity.
  - exists []. rewrite app_nil_r. split; [reflexivity|constructor].
Qed.

Lemma grows_trans P a b c : grows P a b -> grows P b c -> grows P a c.
Proof.
  intros [D1 [W1 [[m1 C1] [e1 [T1 F1]]]]] [D2 [W2 [[m2 C2] [e2 [T2 F2]]]]].
  repeat split.
  - congruence.
  - congruence.
  - exists (m1 ++ m2). rewrite C2, C1, app_assoc. reflexivity.
  - exists (e1 ++ e2). split.
    + rewrite T2, T1, app_assoc. reflexivity.
    + apply Forall_app. split; assumption.
Qed.

Lemma grows_weaken (P Q : event -> Prop) st st' :
  (forall e, P e -> Q e) -> grows P st st' -> grows Q st st'.
Proof.
  intros HPQ [D [W [C [e [T F]]]]]. repeat split; try assumption.
  exists e. split; [exact T|]. eapply Forall_impl; [exact HPQ|exact F].
Qed.

Lemma bind_grows {A B} P (m : M A) (k : A -> M B) st :
  grows P st (snd (m st)) ->
  (forall a st', grows P st' (snd (k a st'))) ->
  grows P st (snd (bind m k st)).
Proof.
  intros Hm Hk. unfold bind. destruct (m st) as [[a|e] st']; cbn [snd] in *.
  - eapply grows_trans; [exact Hm|apply Hk].
  - exact Hm.
Qed.

Lemma for_each_grows {A} P (l : list A) (body : A -> M unit) :
  (forall x, In x l -> forall st, grows P st (snd (body x st))) ->
  forall st, grows P st (snd (for_each l body st)).
Proof.
  induction l as [|x l IH]; intros H st; [apply grows_refl|].
  cbn [for_each]. apply bind_grows.
  - apply H. left. reflexivity.
  - intros _ st'. apply IH. intros y Hy. apply H. right. exact Hy.
Qed.

Lemma emit_grows (P : event -> Prop) e st : P e -> grows P st (snd (emit e st)).
Proof.
  intros He. repeat split; cbn.
  - exists []. rewrite app_nil_r. reflexivity.
  - exists [e]. split; [reflexivity|]. constructor; [exact He|constructor].
Qed.

Lemma logger_grows P l m st : grows P st (snd (logger l m st)).
Proof.
  repeat split; cbn.
  - exists []. rewrite app_nil_r. reflexivity.
  - exists []. rewrite app_nil_r. split; [reflexivity|constructor].
Qed.

Lemma tick_grows P st n : grows P st (tick st n).
Proof.
  repeat split; cbn.
  - exists []. rewrite app_nil_r. reflexivity.
  - exists []. rewrite app_nil_r. split; [reflexivity|constructor].
Qed.

(** Every driver event of [connect_database] is on the path of the
    descriptor, whether it returns or raises. *)
Lemma try_key_formats_grows env db_info formats : forall b st,
  grows (fun e => event_path e = db_path db_info) st
    (snd (try_key_formats env db_info formats b st)).
Proof.
  induction formats as [|f formats IH]; intros b st.
  - cbn [try_key_formats]. apply bind_grows; [apply logger_grows|].
    intros _ st'. apply grows_refl.
  - cbn [try_key_formats]. apply bind_grows; [apply emit_grows; reflexivity|].
    intros _ st'. destruct (sqlite_connect env (db_path db_info)).
    + apply bind_grows; [apply emit_grows; reflexivity|].
      intros _ st''.
      destruct (sqlite_unlock env (db_path db_info) f
                  (cipher_compatibility db_info)).
      * apply grows_refl.
      * apply IH.
    + destruct b; [apply IH|apply grows_refl].
Qed.

Lemma process_table_grows P env conn db_info table_name st :
  grows P st (snd (process_table env conn db_info table_name st)).
Proof.
  unfold process_table.
  destruct (validate_chat_table conn table_name) as [[|] columns];
    [|apply grows_refl].
  apply bind_grows.
  - rewrite extract_chat_data_pure.
    destruct (select_fields_of columns); [apply grows_refl|].
    destruct (query_rows conn _); [apply tick_grows|apply grows_refl].
  - intros ms st'. repeat split; cbn.
    + exists ms. reflexivity.
    + exists []. rewrite app_nil_r. split; [reflexivity|constructor].
Qed.

Lemma process_database_grows env db_info st :
  grows (fun e => event_path e = db_path db_info) st
    (snd (process_database env db_info st)).
Proof.
  unfold process_database. apply bind_grows.
  - apply try_key_formats_grows.
  - intros [conn|] st'; [|apply grows_refl].
    apply for_each_grows. intros t _ st''. apply process_table_grows.
Qed.

Lemma processing_order_In dbs d : In d (processing_order dbs) -> In d dbs.
Proof.
  unfold processing_order. intros H. apply in_app_or in H.
  destruct H as [H|H]; apply filter_In in H; apply H.
Qed.

(** [extract_all_chats] keeps the databases and the written file, only
    adds messages, and reaches the driver only on paths of
    [self.databases]; this holds also when it raises. *)
Lemma extract_all_chats_grows env st :
  grows (fun e => In (event_path e) (map db_path (databases st))) st
    (snd (extract_all_chats env st)).
Proof.
  unfold extract_all_chats, bind, get_databases.
  apply for_each_grows. intros d Hd st'.
  eapply grows_weaken; [|apply process_database_grows].
  intros e He. cbn beta in He. rewrite He.
  apply in_map. apply processing_order_In. exact Hd.
Qed.

Lemma for_each_returns {A} (l : list A) (body : A -> M unit) :
  (forall x, In x l -> forall st, fst (body x st) = Ok tt) ->
  forall st, fst (for_each l body st) = Ok tt.
Proof.
  induction l as [|x l IH]; intros H st; [reflexivity|].
  cbn [for_each]. unfold bind.
  pose proof (H x (or_introl eq_refl) st) as Hx.
  destruct (body x st) as [[[]|e] st']; [|discriminate Hx].
  apply IH. intros y Hy. apply H. right. exact Hy.
Qed.

Lemma process_table_returns env conn db_info table_name st :
  fst (process_table env conn db_info table_name st) = Ok tt.
Proof.
  unfold process_table.
  destruct (validate_chat_table conn table_name) as [[|] columns];
    [|reflexivity].
  unfold bind. rewrite extract_chat_data_pure.
  destruct (select_fields_of columns); [reflexivity|].
  destruct (query_rows conn _); reflexivity.
Qed.

(** No error of a table or of a database whose file [sqlite.connect] can
    open leaves [extract_all_chats]: it returns when every database file
    opens, whatever the keys, the tables and the rows are. *)
Lemma extract_all_chats_returns env st :
  (forall d, In d (databases st) -> sqlite_connect env (db_path d) = true) ->
  fst (extract_all_chats env st) = Ok tt.
Proof.
  intros H. unfold extract_all_chats, bind, get_databases.
  apply for_each_returns. intros d Hd st'.
  apply processing_order_In in Hd.
  unfold process_database, bind, connect_database.
  destruct (try_key_formats_returns env d (H d Hd) (key_formats (db_key d))
              false st') as [r Hr].
  destruct (try_key_formats env d (key_formats (db_key d)) false st')
    as [res st'']. cbn [fst] in Hr. subst res.
  destruct r as [conn|]; [|reflexivity].
  apply for_each_returns. intros t _ st3. apply process_table_returns.
Qed.

Lemma load_key_infos env l : forall st,
  for_each l (load_key_info env) st
  = (Ok tt,
     {| databases :=
          databases st ++ filter (fun d => path_exists env (db_path d)) l;
        chat_data := chat_data st; clock := clock st; trace := trace st;
        log := log st ++
          map (fun d => (WARNING, MissingDatabaseFile (db_path d)))
            (filter (fun d => negb (path_exists env (db_path d))) l);
        written := written st |}).
Proof.
  induction l as [|d l IH]; intros st.
  - cbn. rewrite !app_nil_r. destruct st; reflexivity.
  - cbn [for_each]. unfold bind. unfold load_key_info at 1.
    cbn [filter]. destruct (path_exists env (db_path d)) eqn:E.
    + unfold append_database. rewrite IH. cbn.
      rewrite <- app_assoc. destruct d; reflexivity.
    + unfold logger. rewrite IH. cbn.
      rewrite <- app_assoc. reflexivity.
Qed.

(** The state after [load_keys] on a readable keys file. *)
Lemma load_keys_state env keys_file_path content :
  read_text env keys_file_path = Some content ->
  load_keys env keys_file_path initial_state = (Ok tt, loaded env content).
Proof.
  intros H. unfold load_keys. rewrite H, load_key_infos. reflexivity.
Qed.

(** [run] on a readable keys file, case by case. *)
Lemma run_cases env keys_file_path output_path content :
  read_text env keys_file_path = Some content ->
  run env keys_file_path output_path initial_state
  = match usable env content with
    | [] => (Ok tt, with_log (loaded env content) [(ERROR, NoValidDatabase)])
    | _ :: _ =>
        match extract_all_chats env (loaded env content) with
        | (Raise e, st) => (Raise e, with_log st [(ERROR, RunFailed)])
        | (Ok _, st) =>
            match chat_data st with
            | [] => (Ok tt, with_log st [(WARNING, NoChatRecords)])
            | _ :: _ =>
                if write_ok env output_path then
                  (Ok tt,
                   {| databases := databases st; chat_data := chat_data st;
                      clock := S (clock st); trace := trace st; log := log st;
                      written :=
                        Some (output_path,
                              {| meta_extracted_at := now_iso env (clock st);
                                 total_messages := List.length (chat_data st);
                                 total_databases := List.length (databases st);
                                 source_keys_file := keys_file_path;
                                 messages := chat_data st |}) |})
                else
                  (Raise IOError,
                   with_log st [(ERROR, SaveFailed); (ERROR, RunFailed)])
            end
        end
    end.
Proof.
  intros H. unfold run, log_and_reraise. unfold bind at 1.
  rewrite (load_keys_state env keys_file_path content H).
  unfold bind at 1. unfold get_databases at 1.
  cbn [databases loaded].
  destruct (usable env content) as [|d ds] eqn:U.
  - cbn. unfold with_log, loaded. cbn. rewrite U. reflexivity.
  - unfold bind at 1. fold (loaded env content). unfold loaded at 1. rewrite U.
    fold (loaded env content).
    replace {| databases := d :: ds; chat_data := []; clock := 0; trace := [];
               log := missing_warnings env content; written := None |}
      with (loaded env content) by (unfold loaded; rewrite U; reflexivity).
    destruct (extract_all_chats env (loaded env content)) as [[[]|e] st];
      [|reflexivity].
    unfold bind, get_chat_data.
    destruct (chat_data st) as [|m ms] eqn:C; [reflexivity|].
    unfold save_to_json. destruct (write_ok env output_path).
    + unfold bind, now, get_chat_data, get_databases, write_output. cbn.
      rewrite C. reflexivity.
    + unfold bind, logger, raise, with_log. cbn.
      rewrite <- app_assoc. reflexivity.
Qed.

Lemma usable_exists env content p :
  In p (map db_path (usable env content)) -> path_exists env p = true.
Proof.
  intros H. apply in_map_iff in H. destruct H as [d [<- Hd]].
  apply filter_In in Hd. apply Hd.
Qed.

(** What [main] leaves of a state [run] ended in. *)
Lemma main_cases env keys_file output :
  path_exists env keys_file = true ->
  main env keys_file output
  = match run env keys_file output initial_state with
    | (Ok _, st) => (0%Z, with_log st [(INFO, ExtractionDone)])
    | (Raise _, st) => (1%Z, with_log st [(ERROR, MainFailed)])
    end.
Proof.
  intros H. unfold main. rewrite H. cbn [negb].
  destruct (run env keys_file output initial_state) as [[a|e] st]; reflexivity.
Qed.

Lemma with_log_app st a b : with_log (with_log st a) b = with_log st (a ++ b).
Proof. unfold with_log; simpl. rewrite app_assoc. reflexivity. Qed.

(** C3, the claim as stated fails: a readable keys file without any
    descriptor ends the process with exit status 0 and the closing line of
    a completed extraction, the status a run that extracted records ends
    with. *)
Lemma no_database_run_exits_0 :
  parse_keys "" = [] /\
  main empty_keys_env "/keys" "/out.json"
  = (0%Z, with_log initial_state
            [(ERROR, NoValidDatabase); (INFO, ExtractionDone)]) /\
  fst (main (scenario_env true three_rows) "/keys" "/out.json") = 0%Z.
Proof. repeat split; vm_compute; reflexivity. Qed.

(** C3, amended.  When the keys file is readable and no descriptor in it
    is usable, [run] logs the error that no valid database was found,
    reaches no database and writes nothing, and the process ends with exit
    status 0 after the closing line, as a completed run does.  When some
    descriptor is usable and the extraction comes back with no record,
    [run] logs a warning, writes nothing, and the process also ends with
    exit status 0. *)
Theorem run_without_databases_or_records env keys_file output content :
  path_exists env keys_file = true ->
  read_text env keys_file = Some content ->
  (usable env content = [] ->
   main env keys_file output
   = (0%Z, with_log (loaded env content)
             [(ERROR, NoValidDatabase); (INFO, ExtractionDone)]))
  /\ (forall st,
        usable env content <> [] ->
        extract_all_chats env (loaded env content) = (Ok tt, st) ->
        chat_data st = [] ->
        main env keys_file output
        = (0%Z, with_log st [(WARNING, NoChatRecords); (INFO, ExtractionDone)])
        /\ written st = None).
Proof.
  intros He Hr. split.
  - intros U. rewrite main_cases by exact He.
    rewrite (run_cases env keys_file output content Hr), U.
    rewrite with_log_app. reflexivity.
  - intros st U Hx Hc. split.
    + rewrite main_cases by exact He.
      rewrite (run_cases env keys_file output content Hr).
      destruct (usable env content); [contradiction U; reflexivity|].
      rewrite Hx, Hc. rewrite with_log_app. reflexivity.
    + pose proof (extract_all_chats_grows env (loaded env content)) as G.
      rewrite Hx in G. destruct G as [_ [W _]]. exact W.
Qed.
(** The amended C3 on a keys file without descriptors and on the scenario
    with an empty [Chat_100]. *)
Lemma run_without_databases_or_records_witness :
  fst (main empty_keys_env "/keys" "/out.json") = 0%Z /\
  fst (main (scenario_env true []) "/keys" "/out.json") = 0%Z /\
  written (snd (extract_all_chats (scenario_env true [])
                  (loaded (scenario_env true []) scenario_keys))) = None.
Proof.
  assert (U0 : usable empty_keys_env "" = []) by (vm_compute; reflexivity).
  assert (U1 : usable (scenario_env true []) scenario_keys <> [])
    by (intros E; vm_compute in E; discriminate E).
  pose proof (surjective_pairing
                (extract_all_chats (scenario_env true [])
                   (loaded (scenario_env true []) scenario_keys))) as P.
  assert (F : fst (extract_all_chats (scenario_env true [])
                     (loaded (scenario_env true []) scenario_keys)) = Ok tt)
    by (vm_compute; reflexivity).
  assert (C : chat_data (snd (extract_all_chats (scenario_env true [])
                                (loaded (scenario_env true []) scenario_keys)))
              = []) by (vm_compute; reflexivity).
  rewrite F in P.
  destruct (run_without_databases_or_records empty_keys_env "/keys"
              "/out.json" "" eq_refl eq_refl) as [H0 _].
  destruct (run_without_databases_or_records (scenario_env true []) "/keys"
              "/out.json" scenario_keys eq_refl eq_refl) as [_ H1].
  destruct (H1 _ U1 P C) as [E W].
  split; [|split].
  - rewrite (H0 U0). reflexivity.
  - rewrite E. reflexivity.
  - exact W.
Defined.

(** C10: a parsed descriptor whose database file does not exist is left
    out of [self.databases]; no run reaches the driver on a path that does
    not exist; the [total_databases] of a written document counts the
    descriptors whose file existed. *)
Theorem missing_databases_excluded env keys_file output content :
  read_text env keys_file = Some content ->
  let st := snd (load_keys env keys_file initial_state) in
  databases st
  = filter (fun d => path_exists env (db_path d)) (parse_keys content)
  /\ (forall d, In d (parse_keys content) ->
        path_exists env (db_path d) = false -> ~ In d (databases st))
  /\ (forall e, In e (trace (snd (main env keys_file output))) ->
        path_exists env (event_path e) = true)
  /\ (forall p o, written (snd (main env keys_file output)) = Some (p, o) ->
        total_databases o
        = List.length (filter (fun d => path_exists env (db_path d))
                         (parse_keys content))).
Proof.
  intros Hr st. subst st.
  rewrite (load_keys_state env keys_file content Hr). cbn [snd loaded databases].
  split; [reflexivity|]. split.
  { intros d _ Hm Hin. apply filter_In in Hin. destruct Hin as [_ E].
    congruence. }
  assert (Run : forall r st,
            run env keys_file output initial_state = (r, st) ->
            (forall e, In e (trace st) -> path_exists env (event_path e) = true)
            /\ (forall p o, written st = Some (p, o) ->
                  total_databases o = List.length (usable env content))).
  { intros r st. rewrite (run_cases env keys_file output content Hr).
    destruct (usable env content) as [|d ds] eqn:U.
    - intros H; inversion H; subst. cbn. split; [intros e []|discriminate].
    - pose proof (extract_all_chats_grows env (loaded env content)) as G.
      destruct (extract_all_chats env (loaded env content)) as [res st2].
      destruct G as [D [W [_ [evs [T F]]]]].
      cbn [snd loaded databases trace written app] in D, W, T, F.
      assert (Tr : forall e, In e (trace st2) ->
                     path_exists env (event_path e) = true).
      { intros e He. rewrite T in He. rewrite Forall_forall in F.
        apply (usable_exists env content). exact (F e He). }
      clear T F.
      destruct res as [[]|x].
      + destruct (chat_data st2) as [|m ms] eqn:C.
        * intros H; inversion H; subst. cbn. split; [exact Tr|].
          rewrite W. discriminate.
        * destruct (write_ok env output); intros H; inversion H; subst; cbn.
          -- split; [exact Tr|]. intros p o E. inversion E; subst. cbn.
             rewrite D, U. reflexivity.
          -- split; [exact Tr|]. rewrite W. discriminate.
      + intros H; inversion H; subst. cbn. split; [exact Tr|].
        rewrite W. discriminate. }
  unfold main. destruct (path_exists env keys_file); cbn [negb].
  - specialize (Run (fst (run env keys_file output initial_state))
                     (snd (run env keys_file output initial_state))
                     (surjective_pairing _)).
    destruct (run env keys_file output initial_state) as [[a|x] st];
      destruct Run as [Tr Wr]; cbn; split; assumption.
  - cbn. split; [intros e []|discriminate].
Qed.
(** C10 on the scenario: [gone.db] does not exist, is not loaded, and no
    driver event is on its path. *)
Lemma missing_databases_excluded_witness :
  databases (snd (load_keys (scenario_env true three_rows) "/keys"
                    initial_state)) = [db_a; db_b] /\
  (forall e,
     In e (trace (snd (main (scenario_env true three_rows) "/keys"
                         "/out.json"))) ->
     event_path e <> "/a/Group/gone.db").
Proof.
  destruct (missing_databases_excluded (scenario_env true three_rows)
              "/keys" "/out.json" scenario_keys eq_refl) as [D [_ [T _]]].
  split.
  - rewrite D. vm_compute. reflexivity.
  - intros e He E. specialize (T e He). rewrite E in T.
    vm_compute in T. discriminate T.
Defined.

(** C8, where the code leaves the claim.  In the scenario where
    [sqlite.connect] raises for [a.db], the handler of [connect_database]
    reads the variable [conn] that was never assigned: the exception leaves
    [connect_database], [extract_all_chats] and [run], the process ends
    with status 1, [b.db] is never reached and nothing is written.  When
    [a.db] opens and merely cannot be decrypted, the same run goes on to
    [b.db] and extracts its three records. *)
Theorem connect_exception_aborts_run :
  fst (run (scenario_env false three_rows) "/keys" "/out.json" initial_state)
  = Raise UnboundLocalError /\
  main (scenario_env false three_rows) "/keys" "/out.json"
  = (1%Z,
     {| databases := [db_a; db_b]; chat_data := []; clock := 0;
        trace := [EvConnect "/a/Message/a.db"];
        log := [(WARNING, MissingDatabaseFile "/a/Group/gone.db");
                (ERROR, RunFailed); (ERROR, MainFailed)];
        written := None |}) /\
  fst (main (scenario_env true three_rows) "/keys" "/out.json") = 0%Z /\
  List.length (chat_data (snd (main (scenario_env true three_rows) "/keys"
                                 "/out.json"))) = 3 /\
  In (WARNING, DecryptFailed "/a/Message/a.db")
    (log (snd (main (scenario_env true three_rows) "/keys" "/out.json"))).
Proof.
  split; [vm_compute; reflexivity|].
  split; [vm_compute; reflexivity|].
  split; [vm_compute; reflexivity|].
  split; [vm_compute; reflexivity|].
  vm_compute. right; left. reflexivity.
Qed.

(** * Further properties *)

(** ** [find_chat_tables]: what it keeps and how it orders *)

(** The order [chat_tables.sort] sorts by. *)
Lemma pystr_leb_total a : forall b, PyStr.leb a b = false -> PyStr.leb b a = true.
Proof.
  induction a as [|x a IH]; intros b; [discriminate|].
  destruct b as [|y b]; [reflexivity|]. cbn [PyStr.leb].
  destruct (nat_of_ascii x <? nat_of_ascii y) eqn:L1; [discriminate|].
  destruct (nat_of_ascii y <? nat_of_ascii x) eqn:L2; [reflexivity|].
  apply IH.
Qed.

Lemma pystr_leb_trans a : forall b c,
  PyStr.leb a b = true -> PyStr.leb b c = true -> PyStr.leb a c = true.
Proof.
  induction a as [|x a IH]; intros b c; [reflexivity|].
  destruct b as [|y b]; [discriminate|].
  destruct c as [|z c]; [intros _ H; discriminate H|]. cbn [PyStr.leb].
  destruct (Nat.ltb_spec (nat_of_ascii x) (nat_of_ascii y));
    destruct (Nat.ltb_spec (nat_of_ascii y) (nat_of_ascii x));
    destruct (Nat.ltb_spec (nat_of_ascii y) (nat_of_ascii z));
    destruct (Nat.ltb_spec (nat_of_ascii z) (nat_of_ascii y));
    destruct (Nat.ltb_spec (nat_of_ascii x) (nat_of_ascii z));
    destruct (Nat.ltb_spec (nat_of_ascii z) (nat_of_ascii x));
    try reflexivity; try discriminate; try lia.
  apply IH.
Qed.

Lemma key_leb_total a b : key_leb a b = false -> key_leb b a = true.
Proof.
  unfold key_leb. destruct a as [[|] a], b as [[|] b]; cbn [fst snd];
    try discriminate; try reflexivity; apply pystr_leb_total.
Qed.

Lemma key_leb_trans a b c :
  key_leb a b = true -> key_leb b c = true -> key_leb a c = true.
Proof.
  unfold key_leb. destruct a as [[|] a], b as [[|] b], c as [[|] c];
    cbn [fst snd]; try discriminate; try reflexivity; apply pystr_leb_trans.
Qed.

Lemma insert_sorted_perm x l : Permutation (insert_sorted x l) (x :: l).
Proof.
  induction l as [|y l IH]; [reflexivity|]. cbn [insert_sorted].
  destruct (key_leb (sort_key y) (sort_key x)); [|reflexivity].
  rewrite IH. apply perm_swap.
Qed.

Lemma sort_tables_perm_acc l : forall acc,
  Permutation (fold_left (fun acc x => insert_sorted x acc) l acc) (acc ++ l).
Proof.
  induction l as [|x l IH]; intros acc; cbn [fold_left].
  - rewrite app_nil_r. reflexivity.
  - rewrite IH, insert_sorted_perm. apply Permutation_middle.
Qed.

(** X1: [find_chat_tables] returns the tables that meet the name condition, each
    as often as the input has it: sorting drops and adds nothing. *)
Theorem find_chat_tables_keeps tables :
  Permutation (find_chat_tables tables) (filter is_chat_table_name tables)
  /\ (forall t, In t (find_chat_tables tables) <->
                In t tables /\ is_chat_table_name t = true)
  /\ List.length (find_chat_tables tables) <= List.length tables.
Proof.
  assert (P : Permutation (find_chat_tables tables)
                (filter is_chat_table_name tables)).
  { unfold find_chat_tables, sort_tables.
    rewrite sort_tables_perm_acc. reflexivity. }
  split; [exact P|]. split.
  - intros t. rewrite <- filter_In. split; intros H.
    + eapply Permutation_in; [exact P|exact H].
    + eapply Permutation_in; [symmetry; exact P|exact H].
  - rewrite (Permutation_length P). apply filter_length_le.
Qed.

Section SortTables.

Let le (a b : string) : Prop := key_leb (sort_key a) (sort_key b) = true.
Let same (k t : string) : bool :=
  key_leb (sort_key k) (sort_key t) && key_leb (sort_key t) (sort_key k).

Lemma insert_sorted_sorted x l :
  StronglySorted le l -> StronglySorted le (insert_sorted x l).
Proof.
  induction 1 as [|y r Hr IH Hy]; cbn [insert_sorted].
  - constructor; constructor.
  - destruct (key_leb (sort_key y) (sort_key x)) eqn:E.
    + constructor; [exact IH|].
      eapply Permutation_Forall; [symmetry; apply insert_sorted_perm|].
      constructor; assumption.
    + apply key_leb_total in E. constructor.
      * constructor; assumption.
      * constructor; [exact E|].
        eapply Forall_impl; [|exact Hy]. intros z Hz.
        exact (key_leb_trans _ _ _ E Hz).
Qed.

Lemma insert_sorted_stable k x l :
  StronglySorted le l ->
  filter (same k) (insert_sorted x l)
  = filter (same k) l ++ (if same k x then [x] else []).
Proof.
  induction 1 as [|y r Hr IH Hy]; cbn [insert_sorted].
  - cbn. destruct (same k x); reflexivity.
  - destruct (key_leb (sort_key y) (sort_key x)) eqn:E.
    + cbn [filter]. rewrite IH. destruct (same k y); reflexivity.
    + destruct (same k x) eqn:Sx.
      * assert (N : filter (same k) (y :: r) = []).
        { apply andb_true_iff in Sx. destruct Sx as [Kx Xk].
          assert (F : Forall (fun z => same k z = false) (y :: r)).
          { assert (Hyz : Forall (le y) (y :: r)).
            { constructor; [|exact Hy].
              destruct (key_leb (sort_key y) (sort_key y)) eqn:R;
                [exact R|exact (key_leb_total _ _ R)]. }
            eapply Forall_impl; [|exact Hyz]. intros z Hz.
            destruct (same k z) eqn:Sz; [|reflexivity].
            apply andb_true_iff in Sz. destruct Sz as [Kz Zk].
            assert (C : key_leb (sort_key y) (sort_key x) = true).
            { eapply key_leb_trans; [exact Hz|].
              eapply key_leb_trans; [exact Zk|exact Kx]. }
            congruence. }
          clear - F. induction F as [|z l Hz _ IHF]; [reflexivity|].
          cbn [filter]. rewrite Hz. exact IHF. }
        cbn [filter] in N |- *. rewrite Sx. cbn [filter] in N.
        change (filter (same k) (y :: r)) with
          (if same k y then y :: filter (same k) r else filter (same k) r) in N.
        rewrite N. reflexivity.
      * cbn [filter]. rewrite Sx, app_nil_r. reflexivity.
Qed.

Lemma sort_tables_acc l : forall acc,
  StronglySorted le acc ->
  StronglySorted le (fold_left (fun acc x => insert_sorted x acc) l acc)
  /\ forall k,
       filter (same k) (fold_left (fun acc x => insert_sorted x acc) l acc)
       = filter (same k) acc ++ filter (same k) l.
Proof.
  induction l as [|x l IH]; intros acc Hacc; cbn [fold_left].
  - split; [exact Hacc|]. intros k. rewrite app_nil_r. reflexivity.
  - destruct (IH (insert_sorted x acc) (insert_sorted_sorted x acc Hacc))
      as [S F].
    split; [exact S|]. intros k. rewrite F, insert_sorted_stable by exact Hacc.
    rewrite <- app_assoc. cbn [filter]. destruct (same k x); reflexivity.
Qed.

End SortTables.

(** X2: [find_chat_tables] returns the tables in the order of their sort keys:
    a table never comes before one with a smaller key, so every table whose
    lowercase name starts with [chat_] comes before every table whose name
    does not; tables whose keys are equal stay in the order of the input. *)
Theorem find_chat_tables_order tables :
  StronglySorted (fun a b => key_leb (sort_key a) (sort_key b) = true)
    (find_chat_tables tables)
  /\ (forall before a between b after,
        find_chat_tables tables = before ++ a :: between ++ b :: after ->
        PyStr.startswith "chat_" (PyStr.lower b) = true ->
        PyStr.startswith "chat_" (PyStr.lower a) = true)
  /\ (forall k,
        let same t := key_leb (sort_key k) (sort_key t)
                      && key_leb (sort_key t) (sort_key k) in
        filter same (find_chat_tables tables)
        = filter same (filter is_chat_table_name tables)).
Proof.
  unfold find_chat_tables, sort_tables.
  destruct (sort_tables_acc (filter is_chat_table_name tables) []
              (SSorted_nil _)) as [S F].
  split; [exact S|]. split.
  - intros before a between b after E Hb. rewrite E in S.
    assert (Hab : key_leb (sort_key a) (sort_key b) = true).
    { clear - S. induction before as [|x before IH]; cbn [app] in S.
      - inversion S as [|? ? _ Hall]; subst.
        rewrite Forall_forall in Hall. apply Hall.
        apply in_or_app. right. left. reflexivity.
      - inversion S; subst. auto. }
    unfold key_leb, sort_key in Hab. cbn [fst snd] in Hab. rewrite Hb in Hab.
    cbn [negb] in Hab.
    destruct (PyStr.startswith "chat_" (PyStr.lower a)); [reflexivity|].
    discriminate Hab.
  - intros k. cbv zeta. rewrite F. reflexivity.
Qed.

(** On a list of tables: [Chat_b] sorts before [chat9] and [message_1], and
    [chat_A] stays before [CHAT_a], which has the same key. *)
Lemma find_chat_tables_order_witness :
  PyStr.startswith "chat_" (PyStr.lower "Chat_b") = true /\
  find_chat_tables ["message_1"; "Chat_b"; "foo"; "chat9"; "chat_A"; "CHAT_a"]
  = ["chat_A"; "CHAT_a"; "Chat_b"; "chat9"; "message_1"].
Proof.
  split.
  - apply (proj1 (proj2 (find_chat_tables_order
             ["message_1"; "chat9"; "Chat_b"; "Chat_c"]))
             [] "Chat_b" [] "Chat_c" ["chat9"; "message_1"]);
      reflexivity.
  - reflexivity.
Defined.

(** ** [extract_db_type] *)

Lemma split_not_nil sep s : PyStr.split sep s <> [].
Proof.
  destruct s as [|c s]; cbn [PyStr.split]; [discriminate|].
  destruct (Ascii.eqb c sep); [discriminate|].
  destruct (PyStr.split sep s); discriminate.
Qed.

Lemma split_app sep a : forall b,
  PyStr.split sep (a ++ String sep b) = PyStr.split sep a ++ PyStr.split sep b.
Proof.
  induction a as [|c a IH]; intros b.
  - cbn. rewrite Ascii.eqb_refl. reflexivity.
  - cbn [append PyStr.split]. rewrite IH.
    destruct (Ascii.eqb c sep); [reflexivity|].
    pose proof (split_not_nil sep a) as N.
    destruct (PyStr.split sep a) as [|w ws]; [contradiction|reflexivity].
Qed.

Lemma split_without sep s :
  PyStr.all_chars (not_char sep) s = true -> PyStr.split sep s = [s].
Proof.
  induction s as [|c s IH]; [reflexivity|]. cbn [PyStr.all_chars PyStr.split].
  unfold not_char at 1. intros H. apply andb_true_iff in H. destruct H as [N H].
  apply negb_true_iff in N. rewrite N, (IH H). reflexivity.
Qed.

Lemma split_run sep run : forall file,
  PyStr.all_chars (Ascii.eqb sep) run = true ->
  PyStr.all_chars (not_char sep) file = true ->
  PyStr.split sep (run ++ file)
  = repeat "" (String.length run) ++ [file].
Proof.
  induction run as [|c run IH]; intros file Hr Hf.
  - apply split_without. exact Hf.
  - cbn [PyStr.all_chars] in Hr. apply andb_true_iff in Hr.
    destruct Hr as [E Hr]. apply Ascii.eqb_eq in E. subst c.
    cbn [append PyStr.split String.length repeat]. rewrite Ascii.eqb_refl.
    rewrite IH by assumption. reflexivity.
Qed.

Lemma first_nonempty_skip n : forall rest,
  first_nonempty (repeat "" n ++ rest) = first_nonempty rest.
Proof. induction n as [|n IH]; intros rest; [reflexivity|apply IH]. Qed.

(** X3: [extract_db_type] never returns the empty text; a path without a slash
    has the type [unknown]; otherwise the type is the last non-empty
    segment before the final one, whatever precedes it and however many
    slashes separate it from the file name. *)
Theorem extract_db_type_segment :
  (forall filepath, extract_db_type filepath <> "")
  /\ (forall filepath,
        PyStr.all_chars (not_char "/") filepath = true ->
        extract_db_type filepath = "unknown")
  /\ (forall prefix dir slashes file,
        PyStr.all_chars (not_char "/") dir = true ->
        dir <> "" ->
        PyStr.all_chars (Ascii.eqb "/") slashes = true ->
        PyStr.all_chars (not_char "/") file = true ->
        extract_db_type (prefix ++ "/" ++ dir ++ "/" ++ slashes ++ file) = dir
        /\ extract_db_type (dir ++ "/" ++ slashes ++ file) = dir).
Proof.
  split; [|split].
  - intros filepath. unfold extract_db_type.
    generalize (List.rev (removelast (PyStr.split "/" filepath))).
    intros parts. induction parts as [|p parts IH]; cbn; [discriminate|].
    destruct p; [exact IH|discriminate].
  - intros filepath H. unfold extract_db_type. rewrite split_without by exact H.
    reflexivity.
  - intros prefix dir slashes file Hd Hne Hs Hf.
    assert (Tail : PyStr.split "/" (dir ++ "/" ++ slashes ++ file)
                   = dir :: repeat "" (String.length slashes) ++ [file]).
    { change (dir ++ "/" ++ slashes ++ file)%string
        with (dir ++ String "/" (slashes ++ file))%string.
      rewrite split_app, split_without by exact Hd.
      rewrite split_run by assumption. reflexivity. }
    assert (Last : forall pre : list string,
              first_nonempty
                (List.rev (removelast
                   (pre ++ dir :: repeat "" (String.length slashes) ++ [file])))
              = Some dir).
    { intros pre.
      replace (pre ++ dir :: repeat "" (String.length slashes) ++ [file])
        with ((pre ++ dir :: repeat "" (String.length slashes)) ++ [file])
        by (rewrite <- app_assoc; reflexivity).
      rewrite removelast_last, rev_app_distr. cbn [List.rev].
      rewrite rev_repeat.
      rewrite <- app_assoc, first_nonempty_skip. cbn.
      destruct dir; [contradiction Hne; reflexivity|reflexivity]. }
    split.
    + unfold extract_db_type.
      change (prefix ++ "/" ++ dir ++ "/" ++ slashes ++ file)%string
        with (prefix ++ String "/" (dir ++ "/" ++ slashes ++ file))%string.
      rewrite split_app, Tail, Last. reflexivity.
    + unfold extract_db_type. rewrite Tail.
      pose proof (Last []) as L. cbn [app] in L. rewrite L. reflexivity.
Qed.

(** The path of a message database of the client. *)
Lemma extract_db_type_segment_witness :
  extract_db_type "/Users/me/2.0b4.0.9/1d35/Message/msg_0.db" = "Message".
Proof.
  apply (proj1 (proj2 (proj2 extract_db_type_segment)
                  "/Users/me/2.0b4.0.9/1d35" "Message" "" "msg_0.db"
                  eq_refl ltac:(discriminate) eq_refl eq_refl)).
Defined.

(** ** [parse_keys]: the fields of a descriptor, the lines that do not count *)

Lemma span_all f s : PyStr.all_chars f (fst (PyStr.span f s)) = true.
Proof.
  induction s as [|c s IH]; [reflexivity|]. cbn [PyStr.span].
  destruct (f c) eqn:E; [|reflexivity].
  destruct (PyStr.span f s) as [a b]. cbn [fst PyStr.all_chars] in *.
  rewrite E, IH. reflexivity.
Qed.

Lemma match_quoted_group prefix q line g :
  match_quoted prefix q line = Some g ->
  PyStr.truthy g = true /\ PyStr.all_chars (not_char q) g = true.
Proof.
  unfold match_quoted. destruct (PyStr.strip_prefix prefix line) as [r|];
    [|discriminate].
  pose proof (span_all (not_char q) r) as A.
  destruct (PyStr.span (not_char q) r) as [a b]. cbn [fst] in A.
  destruct (PyStr.truthy a) eqn:T; cbn [andb]; [|discriminate].
  destruct (PyStr.startswith (String q "") b); [|discriminate].
  intros H; inversion H; subst. split; assumption.
Qed.

Lemma classify_path_group line p :
  classify line = PathLine p ->
  PyStr.truthy p = true /\ PyStr.all_chars (not_char "'") p = true.
Proof.
  unfold classify. destruct (negb _); [discriminate|].
  destruct (path_match (PyStr.strip line)) eqn:E.
  - intros H; inversion H; subst. exact (match_quoted_group _ _ _ _ E).
  - destruct (key_match _); discriminate.
Qed.

Lemma classify_key_group line k :
  classify line = KeyLine k ->
  PyStr.truthy k = true /\ PyStr.all_chars (not_char dquote) k = true.
Proof.
  unfold classify. destruct (negb _); [discriminate|].
  destruct (path_match (PyStr.strip line)); [discriminate|].
  destruct (key_match (PyStr.strip line)) eqn:E; [|discriminate].
  intros H; inversion H; subst. exact (match_quoted_group _ _ _ _ E).
Qed.

(** X4: Every descriptor [parse_keys] returns has a path that is not empty and
    holds no single quote, a key that is not empty and holds no double
    quote, the compatibility version 3 and the type of its path. *)
Theorem parse_keys_fields content d :
  In d (parse_keys content) ->
  db_path d <> "" /\ PyStr.all_chars (not_char "'") (db_path d) = true
  /\ db_key d <> "" /\ PyStr.all_chars (not_char dquote) (db_key d) = true
  /\ cipher_compatibility d = 3%Z
  /\ db_type d = extract_db_type (db_path d).
Proof.
  intros H. unfold parse_keys in H. apply parse_lines_sound in H.
  destruct H as [[]|[[T _]|H]]; [discriminate T|].
  destruct H as [i [j [li [lj [_ [_ [_ [Ci [Cj [_ E]]]]]]]]]].
  apply classify_path_group in Ci. apply classify_key_group in Cj.
  destruct Ci as [Tp Ap], Cj as [Tk Ak].
  repeat split; try assumption.
  - intros Z. rewrite Z in Tp. discriminate Tp.
  - intros Z. rewrite Z in Tk. discriminate Tk.
  - rewrite E. reflexivity.
  - rewrite E. reflexivity.
Qed.

Lemma parse_keys_fields_witness :
  db_key (mk_key_info "/a/Message/m.db" "x'ab'") <> "" /\
  db_type (mk_key_info "/a/Message/m.db" "x'ab'") = "Message".
Proof.
  destruct (parse_keys_fields keys_text (mk_key_info "/a/Message/m.db" "x'ab'"))
    as [_ [_ [K [_ [_ T]]]]].
  - left. reflexivity.
  - split; [exact K|]. rewrite T. reflexivity.
Defined.

Lemma parse_lines_filter lines : forall cp keys,
  parse_lines (filter is_pair_line lines) cp keys = parse_lines lines cp keys.
Proof.
  induction lines as [|l lines IH]; intros cp keys; [reflexivity|].
  cbn [filter]. unfold is_pair_line at 1.
  rewrite (parse_lines_cons l lines).
  destruct (classify l) eqn:C; try apply IH;
    rewrite parse_lines_cons, C; [apply IH|].
  destruct (PyStr.truthy cp); apply IH.
Qed.

Lemma parse_lines_count lines : forall cp keys,
  List.length (parse_lines lines cp keys)
  <= List.length keys + List.length (filter is_key_lineb lines)
  /\ List.length (parse_lines lines cp keys)
     <= List.length keys + (if PyStr.truthy cp then 1 else 0)
        + List.length (filter is_path_lineb lines).
Proof.
  induction lines as [|l lines IH]; intros cp keys.
  - cbn. split; lia.
  - rewrite parse_lines_cons. cbn [filter]. unfold is_key_lineb at 1.
    unfold is_path_lineb at 1.
    destruct (classify l) eqn:C.
    + apply IH.
    + destruct (IH path keys) as [A B].
      apply classify_path_truthy in C. rewrite C in B. cbn [List.length].
      split; [exact A|]. destruct (PyStr.truthy cp); lia.
    + destruct (PyStr.truthy cp) eqn:T.
      * destruct (IH "" (keys ++ [mk_key_info cp key])) as [A B].
        rewrite length_app in A, B. cbn [List.length PyStr.truthy] in *.
        split; lia.
      * destruct (IH cp keys) as [A B]. rewrite T in B.
        cbn [List.length]. split; lia.
    + apply IH.
Qed.

(** X5: Lines that are neither a path line nor a key line never change what
    [parse_keys] returns: the result is that of the path and key lines
    alone.  There are at most as many descriptors as path lines, and at
    most as many as key lines. *)
Theorem parse_keys_other_lines content :
  let lines := PyStr.split PyStr.newline content in
  parse_keys content = parse_lines (filter is_pair_line lines) "" []
  /\ List.length (parse_keys content)
     <= List.length (filter is_key_lineb lines)
  /\ List.length (parse_keys content)
     <= List.length (filter is_path_lineb lines).
Proof.
  intros lines. unfold parse_keys. fold lines.
  split; [symmetry; apply parse_lines_filter|].
  destruct (parse_lines_count lines "" []) as [A B]. cbn in A, B.
  split; assumption.
Qed.

(** ** Reading a keys file back *)

Lemma all_chars_app f a b :
  PyStr.all_chars f (a ++ b)
  = PyStr.all_chars f a && PyStr.all_chars f b.
Proof.
  induction a as [|c a IH]; [reflexivity|].
  cbn [append PyStr.all_chars]. rewrite IH, andb_assoc. reflexivity.
Qed.

Lemma all_chars_weaken (f g : ascii -> bool) s :
  (forall c, f c = true -> g c = true) ->
  PyStr.all_chars f s = true -> PyStr.all_chars g s = true.
Proof.
  intros H. induction s as [|c s IH]; [reflexivity|].
  cbn [PyStr.all_chars]. intros E. apply andb_true_iff in E.
  destruct E as [E1 E2]. rewrite (H c E1), (IH E2). reflexivity.
Qed.

Lemma quotable_parts q s :
  quotable q s = true ->
  PyStr.truthy s = true
  /\ PyStr.all_chars (not_char q) s = true
  /\ PyStr.all_chars (not_char PyStr.newline) s = true.
Proof.
  unfold quotable. intros H. apply andb_true_iff in H. destruct H as [T A].
  split; [exact T|]. split.
  - revert A. apply all_chars_weaken. intros c Hc.
    apply andb_true_iff in Hc. apply Hc.
  - revert A. apply all_chars_weaken. intros c Hc.
    apply andb_true_iff in Hc. apply Hc.
Qed.

Lemma span_stop f a c b :
  PyStr.all_chars f a = true -> f c = false ->
  PyStr.span f (a ++ String c b) = (a, String c b).
Proof.
  intros Ha Hc. induction a as [|x a IH]; cbn [append PyStr.span].
  - rewrite Hc. reflexivity.
  - cbn [PyStr.all_chars] in Ha. apply andb_true_iff in Ha.
    destruct Ha as [Hx Ha]. rewrite Hx, (IH Ha). reflexivity.
Qed.

Lemma strip_prefix_self p : forall r,
  PyStr.strip_prefix p (p ++ r) = Some r.
Proof.
  induction p as [|a p IH]; intros r; [reflexivity|].
  cbn [append PyStr.strip_prefix]. rewrite Ascii.eqb_refl. apply IH.
Qed.

(** A line between two characters that are not blank is its own strip. *)
Lemma strip_framed a s z :
  PyStr.is_space a = false -> PyStr.is_space z = false ->
  PyStr.strip (String a (s ++ String z "")) = String a (s ++ String z "").
Proof.
  intros Ha Hz. unfold PyStr.strip. cbn [PyStr.lstrip]. rewrite Ha.
  rewrite rev_cons, rev_app.
  replace (PyStr.rev (String z "")) with (String z "") by reflexivity.
  cbn [append PyStr.lstrip]. rewrite Hz.
  change (String z (PyStr.rev s ++ String a ""))
    with (String z "" ++ (PyStr.rev s ++ String a ""))%string.
  rewrite rev_app, rev_app. 
  replace (PyStr.rev (String a "")) with (String a "") by reflexivity.
  replace (PyStr.rev (String z "")) with (String z "") by reflexivity.
  rewrite rev_involutive. reflexivity.
Qed.

Lemma match_quoted_self prefix q g rest :
  PyStr.truthy g = true -> PyStr.all_chars (not_char q) g = true ->
  match_quoted prefix q (prefix ++ g ++ String q rest) = Some g.
Proof.
  intros T A. unfold match_quoted. rewrite strip_prefix_self.
  rewrite span_stop;
    [|exact A|unfold not_char; rewrite Ascii.eqb_refl; reflexivity].
  rewrite T. cbn [PyStr.startswith andb]. rewrite Ascii.eqb_refl.
  reflexivity.
Qed.

Lemma classify_path_line p :
  quotable "'" p = true -> classify (path_line p) = PathLine p.
Proof.
  intros Q. apply quotable_parts in Q. destruct Q as [T [A _]].
  unfold classify, path_line.
  change ("sqlcipher db path: '" ++ p ++ "'")%string
    with (String "s" ("qlcipher db path: '" ++ p ++ String "'" ""))%string.
  rewrite <- append_assoc.
  rewrite strip_framed by reflexivity. cbn [PyStr.truthy negb].
  rewrite append_assoc.
  change (String "s" ("qlcipher db path: '" ++ p ++ String "'" ""))%string
    with ("sqlcipher db path: '" ++ p ++ String "'" "")%string.
  unfold path_match. rewrite match_quoted_self by assumption. reflexivity.
Qed.

Lemma classify_key_line k :
  quotable dquote k = true -> classify (key_line k) = KeyLine k.
Proof.
  intros Q. apply quotable_parts in Q. destruct Q as [T [A _]].
  unfold classify, key_line, quoted.
  change ("PRAGMA key = " ++ (String dquote "" ++ k ++ String dquote "")
          ++ ";")%string
    with (String "P" ("RAGMA key = " ++ (String dquote "" ++ k
                                          ++ String dquote "") ++ ";"))%string.
  replace ("RAGMA key = " ++ (String dquote "" ++ k ++ String dquote "")
           ++ ";")%string
    with (("RAGMA key = " ++ String dquote "" ++ k ++ String dquote "")
          ++ String ";" "")%string
    by (rewrite !append_assoc; reflexivity).
  rewrite strip_framed by reflexivity. cbn [PyStr.truthy negb].
  replace (path_match _) with (@None string) by reflexivity.
  unfold key_match.
  replace (String "P" (("RAGMA key = " ++ String dquote "" ++ k
                        ++ String dquote "") ++ String ";" ""))%string
    with (("PRAGMA key = " ++ String dquote "") ++ k
          ++ String dquote ";")%string.
  - rewrite match_quoted_self by assumption. reflexivity.
  - cbn [append]. rewrite !append_assoc. reflexivity.
Qed.

Lemma path_line_one_line p :
  PyStr.all_chars (not_char PyStr.newline) p = true ->
  PyStr.all_chars (not_char PyStr.newline) (path_line p) = true.
Proof.
  intros H. unfold path_line. rewrite !all_chars_app, H. reflexivity.
Qed.

Lemma key_line_one_line k :
  PyStr.all_chars (not_char PyStr.newline) k = true ->
  PyStr.all_chars (not_char PyStr.newline) (key_line k) = true.
Proof.
  intros H. unfold key_line, quoted. rewrite !all_chars_app, H. reflexivity.
Qed.

Lemma keys_file_lines pairs :
  Forall (fun pk => quotable "'" (fst pk) && quotable dquote (snd pk) = true)
    pairs ->
  PyStr.split PyStr.newline (keys_file_of pairs)
  = flat_map (fun pk => [path_line (fst pk); key_line (snd pk)]) pairs
    ++ [""].
Proof.
  induction 1 as [|[p k] pairs Hpk _ IH]; [reflexivity|].
  cbn [fst snd] in Hpk. apply andb_true_iff in Hpk. destruct Hpk as [Hp Hk].
  apply quotable_parts in Hp. destruct Hp as [_ [_ Np]].
  apply quotable_parts in Hk. destruct Hk as [_ [_ Nk]].
  cbn [keys_file_of flat_map fst snd app].
  rewrite split_app, split_app, IH.
  rewrite (split_without _ _ (path_line_one_line p Np)).
  rewrite (split_without _ _ (key_line_one_line k Nk)).
  reflexivity.
Qed.

Lemma parse_keys_file_lines pairs : forall keys,
  Forall (fun pk => quotable "'" (fst pk) && quotable dquote (snd pk) = true)
    pairs ->
  parse_lines
    (flat_map (fun pk => [path_line (fst pk); key_line (snd pk)]) pairs
     ++ [""]) "" keys
  = keys ++ map (fun pk => mk_key_info (fst pk) (snd pk)) pairs.
Proof.
  induction pairs as [|[p k] pairs IH]; intros keys H.
  - cbn. rewrite app_nil_r. reflexivity.
  - inversion H as [|x l Hpk Hrest]; subst.
    cbn [fst snd] in Hpk. apply andb_true_iff in Hpk.
    destruct Hpk as [Hp Hk].
    cbn [flat_map fst snd app map].
    rewrite parse_lines_cons, (classify_path_line p Hp).
    rewrite parse_lines_cons, (classify_key_line k Hk).
    destruct (quotable_parts _ _ Hp) as [T _]. rewrite T.
    rewrite IH by exact Hrest. rewrite <- app_assoc. reflexivity.
Qed.

(** X6: A keys file that gives each database by a line with its path between
    single quotes and a line with its key between double quotes is read
    back as it was written: [parse_keys] returns one descriptor per
    database, in the order of the file, with the path and the key as they
    stand between the quotes, when neither is empty or holds its quote
    character or a line feed. *)
Theorem parse_keys_reads_back pairs :
  Forall (fun pk => quotable "'" (fst pk) && quotable dquote (snd pk) = true)
    pairs ->
  parse_keys (keys_file_of pairs)
  = map (fun pk => mk_key_info (fst pk) (snd pk)) pairs.
Proof.
  intros H. unfold parse_keys. rewrite keys_file_lines by exact H.
  rewrite parse_keys_file_lines by exact H. reflexivity.
Qed.

Lemma parse_keys_reads_back_witness :
  parse_keys (keys_file_of [("/a/Message/a.db", "x'aa'");
                            ("/a/Contact/b.db", "x'bb'")])
  = [db_a; db_b].
Proof.
  apply (parse_keys_reads_back [("/a/Message/a.db", "x'aa'");
                                ("/a/Contact/b.db", "x'bb'")]).
  repeat constructor.
Defined.

(** ** [_find_column]: the first candidate that matches, the first column
    it matches *)

Section FindColumn.

Let matches (cand c : string) : bool :=
  PyStr.contains (PyStr.lower cand) (PyStr.lower c).

Lemma first_column_with_none cand columns :
  first_column_with cand columns = None <->
  forall x, In x columns -> matches cand x = false.
Proof.
  induction columns as [|y columns IH]; cbn [first_column_with].
  - split; [intros _ x []|reflexivity].
  - fold (matches cand y). destruct (matches cand y) eqn:E.
    + split; [discriminate|]. intros H.
      rewrite (H y (or_introl eq_refl)) in E. discriminate E.
    + rewrite IH. split.
      * intros H x [<-|Hx]; [exact E|exact (H x Hx)].
      * intros H x Hx. apply H. right. exact Hx.
Qed.

Lemma first_column_with_some cand columns c :
  first_column_with cand columns = Some c <->
  exists cb ca,
    columns = cb ++ c :: ca /\ matches cand c = true /\
    forall x, In x cb -> matches cand x = false.
Proof.
  induction columns as [|y columns IH]; cbn [first_column_with].
  - split; [discriminate|]. intros [cb [ca [E _]]].
    destruct cb; discriminate E.
  - fold (matches cand y). destruct (matches cand y) eqn:E.
    + split.
      * intros H; inversion H; subst. exists [], columns.
        repeat split; [exact E|intros x []].
      * intros [cb [ca [Ec [Hm Hn]]]]. destruct cb as [|z cb].
        -- inversion Ec; subst. reflexivity.
        -- inversion Ec; subst. rewrite (Hn z (or_introl eq_refl)) in E.
           discriminate E.
    + rewrite IH. split.
      * intros [cb [ca [Ec [Hm Hn]]]]. exists (y :: cb), ca. subst columns.
        repeat split; [exact Hm|]. intros x [<-|Hx]; [exact E|exact (Hn x Hx)].
      * intros [cb [ca [Ec [Hm Hn]]]]. destruct cb as [|z cb].
        -- inversion Ec; subst. rewrite Hm in E. discriminate E.
        -- inversion Ec; subst. exists cb, ca. repeat split; [exact Hm|].
           intros x Hx. apply Hn. right. exact Hx.
Qed.

Lemma find_column_none columns candidates :
  _find_column columns candidates = None <->
  forall cand x, In cand candidates -> In x columns -> matches cand x = false.
Proof.
  induction candidates as [|cand candidates IH]; cbn [_find_column].
  - split; [intros _ cand x []|reflexivity].
  - destruct (first_column_with cand columns) eqn:F.
    + split; [discriminate|]. intros H.
      assert (N : first_column_with cand columns = None).
      { apply first_column_with_none. intros x Hx.
        apply H; [left; reflexivity|exact Hx]. }
      rewrite N in F. discriminate F.
    + rewrite IH. pose proof (proj1 (first_column_with_none _ _) F) as F'; clear F; rename F' into F. split.
      * intros H c x [<-|Hc] Hx; [exact (F x Hx)|exact (H c x Hc Hx)].
      * intros H c x Hc Hx. apply H; [right; exact Hc|exact Hx].
Qed.

Lemma find_column_some columns candidates c :
  _find_column columns candidates = Some c <->
  exists pre cand post cb ca,
    candidates = pre ++ cand :: post /\
    columns = cb ++ c :: ca /\
    (forall p x, In p pre -> In x columns -> matches p x = false) /\
    matches cand c = true /\
    (forall x, In x cb -> matches cand x = false).
Proof.
  induction candidates as [|cand candidates IH]; cbn [_find_column].
  - split; [discriminate|]. intros [pre [cand [post [cb [ca [E _]]]]]].
    destruct pre; discriminate E.
  - destruct (first_column_with cand columns) as [y|] eqn:F.
    + split.
      * intros H; inversion H; subst y.
        pose proof (proj1 (first_column_with_some _ _ _) F) as F'; clear F; rename F' into F.
        destruct F as [cb [ca [Ec [Hm Hn]]]].
        exists [], cand, candidates, cb, ca.
        repeat split; try assumption. intros p x [].
      * intros [pre [cand' [post [cb [ca [E [Ec [Hpre [Hm Hn]]]]]]]]].
        destruct pre as [|p pre].
        -- inversion E; subst cand' post.
           assert (S : first_column_with cand columns = Some c).
           { apply first_column_with_some. exists cb, ca. auto. }
           congruence.
        -- inversion E; subst p candidates.
           assert (N : first_column_with cand columns = None).
           { apply first_column_with_none. intros x Hx.
             apply Hpre; [left; reflexivity|exact Hx]. }
           rewrite N in F. discriminate F.
    + rewrite IH. pose proof (proj1 (first_column_with_none _ _) F) as F'; clear F; rename F' into F. split.
      * intros [pre [cand' [post [cb [ca [E [Ec [Hpre [Hm Hn]]]]]]]]].
        exists (cand :: pre), cand', post, cb, ca. subst candidates.
        repeat split; try assumption.
        intros p x [<-|Hp] Hx; [exact (F x Hx)|exact (Hpre p x Hp Hx)].
      * intros [pre [cand' [post [cb [ca [E [Ec [Hpre [Hm Hn]]]]]]]]].
        destruct pre as [|p pre].
        -- inversion E; subst cand' post.
           assert (In c columns)
             by (rewrite Ec; apply in_or_app; right; left; reflexivity).
           rewrite (F c H) in Hm. discriminate Hm.
        -- inversion E; subst p candidates.
           exists pre, cand', post, cb, ca. repeat split; try assumption.
           intros q x Hq Hx. apply Hpre; [right; exact Hq|exact Hx].
Qed.

End FindColumn.

Lemma lower_char_idem c : PyStr.lower_char (PyStr.lower_char c) = PyStr.lower_char c.
Proof.
  destruct c as [[|] [|] [|] [|] [|] [|] [|] [|]]; reflexivity.
Qed.

Lemma lower_idem s : PyStr.lower (PyStr.lower s) = PyStr.lower s.
Proof.
  induction s as [|c s IH]; [reflexivity|]. cbn [PyStr.lower].
  rewrite lower_char_idem, IH. reflexivity.
Qed.

(** X7: [_find_column] returns no column exactly when no candidate is contained
    in any column name, case aside.  Otherwise it returns the first column,
    in the order of the table, that contains the first candidate, in the
    order of the list, which any column contains.  Only the case of the
    names is ignored, so lowercasing the names leaves the choice the same. *)
Theorem find_column_first_match columns candidates :
  let matches cand c := PyStr.contains (PyStr.lower cand) (PyStr.lower c) in
  (_find_column columns candidates = None <->
   forall cand x, In cand candidates -> In x columns -> matches cand x = false)
  /\ (forall c,
        _find_column columns candidates = Some c <->
        exists pre cand post cb ca,
          candidates = pre ++ cand :: post /\
          columns = cb ++ c :: ca /\
          (forall p x, In p pre -> In x columns -> matches p x = false) /\
          matches cand c = true /\
          (forall x, In x cb -> matches cand x = false))
  /\ _find_column (map PyStr.lower columns) candidates
     = option_map PyStr.lower (_find_column columns candidates).
Proof.
  intros matches. split; [apply find_column_none|].
  split; [intros c; apply find_column_some|].
  induction candidates as [|cand candidates IH]; [reflexivity|].
  cbn [_find_column].
  assert (F : first_column_with cand (map PyStr.lower columns)
              = option_map PyStr.lower (first_column_with cand columns)).
  { clear. induction columns as [|y columns IHc]; [reflexivity|].
    cbn [map first_column_with]. rewrite lower_idem.
    destruct (PyStr.contains (PyStr.lower cand) (PyStr.lower y));
      [reflexivity|exact IHc]. }
  rewrite F. destruct (first_column_with cand columns); [reflexivity|exact IH].
Qed.

(** ** The names of the chat tables *)

Lemma contains_prefixed p r : PyStr.contains p (p ++ r) = true.
Proof.
  assert (S : PyStr.startswith p (p ++ r) = true)
    by (apply startswith_spec; exists r; reflexivity).
  destruct p as [|a p]; destruct r; cbn [append PyStr.contains] in *;
    rewrite ?S; reflexivity.
Qed.

Lemma startswith_app p q s :
  PyStr.startswith (p ++ q) s = true -> PyStr.startswith p s = true.
Proof.
  intros H. apply startswith_spec in H. destruct H as [r ->].
  apply startswith_spec. exists (q ++ r)%string. apply append_assoc.
Qed.

(** X8: The condition of [find_chat_tables] reads a name without regard to
    the case of its ASCII letters, and it holds only for a name that
    contains [chat] or starts with [message_], in any case. *)
Theorem chat_table_name_case name :
  is_chat_table_name (PyStr.lower name) = is_chat_table_name name
  /\ (is_chat_table_name name = true ->
      PyStr.contains "chat" (PyStr.lower name) = true
      \/ PyStr.startswith "message_" (PyStr.lower name) = true).
Proof.
  split.
  - unfold is_chat_table_name. rewrite lower_idem. reflexivity.
  - unfold is_chat_table_name. set (l := PyStr.lower name).
    intros H.
    apply orb_prop in H. destruct H as [H|H];
      [|apply andb_true_iff in H; left; apply H].
    apply orb_prop in H. destruct H as [H|H]; [|right; exact H].
    left.
    assert (P : PyStr.startswith "chat" l = true ->
                PyStr.contains "chat" l = true).
    { intros S. apply startswith_spec in S. destruct S as [r ->].
      apply contains_prefixed. }
    apply orb_prop in H. destruct H as [H|H];
      [|apply P; apply (startswith_app "chat" "room_"); exact H].
    apply orb_prop in H. destruct H as [H|H].
    + apply orb_prop in H. destruct H as [H|H].
      * apply P. apply (startswith_app "chat" "_"). exact H.
      * apply String.eqb_eq in H. rewrite H. reflexivity.
    + unfold match_chat_digits in H.
      destruct (PyStr.strip_prefix "chat" l) as [r|] eqn:S; [|discriminate H].
      apply strip_prefix_app in S. rewrite S. apply contains_prefixed.
Qed.

(** ** From validation to extraction *)

Lemma contains_empty_column p :
  PyStr.truthy p = true -> PyStr.contains p "" = false.
Proof. destruct p; [discriminate|reflexivity]. Qed.

Lemma lower_truthy s : PyStr.truthy (PyStr.lower s) = PyStr.truthy s.
Proof. destruct s; reflexivity. Qed.

(** A column the resolver returns for candidates that are not empty is not
    the empty name. *)
Lemma find_column_truthy columns candidates c :
  Forall (fun cand => PyStr.truthy cand = true) candidates ->
  _find_column columns candidates = Some c -> PyStr.truthy c = true.
Proof.
  intros Hc H. apply find_column_some in H.
  destruct H as [pre [cand [post [cb [ca [E [_ [_ [Hm _]]]]]]]]].
  rewrite Forall_forall in Hc.
  assert (Tc : PyStr.truthy cand = true).
  { apply Hc. rewrite E. apply in_or_app. right. left. reflexivity. }
  destruct c as [|x c]; [|reflexivity].
  cbn [PyStr.lower] in Hm. rewrite contains_empty_column in Hm;
    [discriminate Hm|]. rewrite lower_truthy. exact Tc.
Qed.

Lemma add_role_keeps role col acc x :
  In x (fst acc) -> In x (fst (add_role role col acc)).
Proof.
  unfold add_role. destruct col as [c|]; [|auto].
  destruct (PyStr.truthy c); [|auto]. cbn [fst]. intros H.
  apply in_or_app. left. exact H.
Qed.

Lemma add_role_adds role c acc :
  PyStr.truthy c = true -> In c (fst (add_role role (Some c) acc)).
Proof.
  intros T. unfold add_role. rewrite T. cbn [fst].
  apply in_or_app. right. left. reflexivity.
Qed.

Lemma add_other_columns_keeps columns : forall fields x,
  In x fields -> In x (add_other_columns columns fields).
Proof.
  induction columns as [|c columns IH]; intros fields x H; [exact H|].
  cbn [add_other_columns].
  destruct (negb (in_list c fields) && negb (in_list c ["rowid"])).
  - apply IH. apply in_or_app. left. exact H.
  - apply IH. exact H.
Qed.

Lemma candidates_truthy :
  Forall (fun cand => PyStr.truthy cand = true) sender_candidates
  /\ Forall (fun cand => PyStr.truthy cand = true) time_candidates
  /\ Forall (fun cand => PyStr.truthy cand = true) content_candidates
  /\ Forall (fun cand => PyStr.truthy cand = true) msgid_candidates
  /\ Forall (fun cand => PyStr.truthy cand = true) type_candidates.
Proof. repeat split; repeat constructor. Qed.

(** A column a role resolves to is among the fields of the query. *)
Lemma resolved_role_selected columns c :
  _find_column columns sender_candidates = Some c
  \/ _find_column columns time_candidates = Some c
  \/ _find_column columns content_candidates = Some c
  \/ _find_column columns msgid_candidates = Some c
  \/ _find_column columns type_candidates = Some c ->
  In c (select_fields_of columns).
Proof.
  destruct candidates_truthy as [T1 [T2 [T3 [T4 T5]]]].
  intros H. unfold select_fields_of. apply add_other_columns_keeps.
  unfold role_fields.
  destruct H as [H|[H|[H|[H|H]]]].
  - do 4 apply add_role_keeps. rewrite H. apply add_role_adds.
    exact (find_column_truthy _ _ _ T1 H).
  - do 3 apply add_role_keeps. rewrite H. apply add_role_adds.
    exact (find_column_truthy _ _ _ T2 H).
  - do 2 apply add_role_keeps. rewrite H. apply add_role_adds.
    exact (find_column_truthy _ _ _ T3 H).
  - apply add_role_keeps. rewrite H. apply add_role_adds.
    exact (find_column_truthy _ _ _ T4 H).
  - rewrite H. apply add_role_adds.
    exact (find_column_truthy _ _ _ T5 H).
Qed.

(** X9: A table [validate_chat_table] accepts has rows, its column names come
    back lowercased, and one of the sender, time and content roles
    resolves to a column of it; so the query [extract_chat_data] builds
    for it has at least one field, and its branch for a table without any
    field to extract is not taken after a validation. *)
Theorem validated_table_has_fields conn table_name columns :
  validate_chat_table conn table_name = (true, columns) ->
  (exists row_count,
     query_count conn (count_sql table_name) = Some row_count
     /\ row_count <> 0%Z)
  /\ (forall c, In c columns -> PyStr.lower c = c)
  /\ (_find_column columns sender_candidates <> None
      \/ _find_column columns time_candidates <> None
      \/ _find_column columns content_candidates <> None)
  /\ select_fields_of columns <> [].
Proof.
  unfold validate_chat_table.
  destruct (query_names conn (table_info_sql table_name)) as [names|];
    [|discriminate].
  destruct (query_count conn (count_sql table_name)) as [n|]; [|discriminate].
  destruct (Z.eqb_spec n 0) as [->|Hn]; [discriminate|].
  intros H. injection H as V C. subst columns.
  assert (Low : forall c, In c (map PyStr.lower names) -> PyStr.lower c = c).
  { intros c Hc. apply in_map_iff in Hc. destruct Hc as [x [<- _]].
    apply lower_idem. }
  assert (R : _find_column (map PyStr.lower names) sender_candidates <> None
              \/ _find_column (map PyStr.lower names) time_candidates <> None
              \/ _find_column (map PyStr.lower names) content_candidates
                 <> None).
  { apply orb_prop in V. destruct V as [V|V];
      [apply orb_prop in V; destruct V as [V|V]|].
    - left. apply has_msg_id_spec in V. destruct V as [c [Hc E]].
      destruct E as [ -> | [ -> | -> ] ];
        [apply find_column_found with (cand := "meslocalid")
        |apply find_column_found with (cand := "messvrid")
        |apply find_column_found with (cand := "localid")];
        try (simpl; auto; fail);
        (eapply first_column_with_found; [exact Hc|reflexivity]).
    - right; left. apply has_time_spec in V. destruct V as [c [Hc E]].
      apply find_column_found with (cand := "time"); [simpl; auto|].
      eapply first_column_with_found; [exact Hc|].
      rewrite (Low c Hc). exact E.
    - right; right. apply has_content_spec in V. destruct V as [c [Hc E]].
      destruct E as [E|[E|E]];
        [apply find_column_found with (cand := "content")
        |apply find_column_found with (cand := "message")
        |apply find_column_found with (cand := "msg")];
        try (simpl; auto; fail);
        (eapply first_column_with_found; [exact Hc|];
         rewrite (Low c Hc); exact E). }
  split; [exists n; split; [reflexivity|exact Hn]|].
  split; [exact Low|]. split; [exact R|].
  assert (S : exists c, In c (select_fields_of (map PyStr.lower names))).
  { destruct R as [R|[R|R]].
    - destruct (_find_column (map PyStr.lower names) sender_candidates)
        as [c|] eqn:F; [|contradiction R; reflexivity].
      exists c. apply resolved_role_selected. auto.
    - destruct (_find_column (map PyStr.lower names) time_candidates)
        as [c|] eqn:F; [|contradiction R; reflexivity].
      exists c. apply resolved_role_selected. auto.
    - destruct (_find_column (map PyStr.lower names) content_candidates)
        as [c|] eqn:F; [|contradiction R; reflexivity].
      exists c. apply resolved_role_selected. auto. }
  destruct S as [c Hc]. intros Z. rewrite Z in Hc. destruct Hc.
Qed.

(** The table [Chat_100] of the scenario. *)
Lemma validated_table_has_fields_witness :
  (exists row_count,
     query_count (Engine.connection [chat_100 three_rows])
       (count_sql "Chat_100") = Some row_count
     /\ row_count <> 0%Z)
  /\ (forall c, In c ["meslocalid"; "msgcreatetime"; "msgcontent"] ->
        PyStr.lower c = c)
  /\ (_find_column ["meslocalid"; "msgcreatetime"; "msgcontent"]
        sender_candidates <> None
      \/ _find_column ["meslocalid"; "msgcreatetime"; "msgcontent"]
           time_candidates <> None
      \/ _find_column ["meslocalid"; "msgcreatetime"; "msgcontent"]
           content_candidates <> None)
  /\ select_fields_of ["meslocalid"; "msgcreatetime"; "msgcontent"] <> [].
Proof.
  apply (validated_table_has_fields
           (Engine.connection [chat_100 three_rows]) "Chat_100"
           ["meslocalid"; "msgcreatetime"; "msgcontent"] eq_refl).
Defined.

(** ** The fields of the query *)

(** A column a candidate list resolves to contains one of the candidates. *)
Lemma find_column_contains columns candidates c :
  _find_column columns candidates = Some c ->
  exists cand, In cand candidates
    /\ PyStr.contains (PyStr.lower cand) (PyStr.lower c) = true.
Proof.
  intros H. apply find_column_some in H.
  destruct H as [pre [cand [post [cb [ca [E [_ [_ [Hm _]]]]]]]]].
  exists cand. split; [|exact Hm].
  rewrite E. apply in_or_app. right. left. reflexivity.
Qed.

Lemma add_other_columns_origin columns : forall fields x,
  In x (add_other_columns columns fields) ->
  In x fields \/ (In x columns /\ x <> "rowid").
Proof.
  induction columns as [|c columns IH]; intros fields x H; [left; exact H|].
  cbn [add_other_columns] in H.
  destruct (negb (in_list c fields) && negb (in_list c ["rowid"])) eqn:B.
  - apply IH in H. destruct H as [H|[H N]]; [|right; split; [right|]; assumption].
    apply in_app_or in H. destruct H as [H|[<-|[]]]; [left; exact H|].
    right. split; [left; reflexivity|].
    apply andb_true_iff in B. destruct B as [_ B].
    intros ->. discriminate B.
  - apply IH in H. destruct H as [H|[H N]]; [left; exact H|].
    right. split; [right|]; assumption.
Qed.

Lemma in_list_In x l : in_list x l = true <-> In x l.
Proof.
  unfold in_list. rewrite existsb_exists. split.
  - intros [y [Hy E]]. apply String.eqb_eq in E. subst y. exact Hy.
  - intros H. exists x. split; [exact H|apply String.eqb_refl].
Qed.

Lemma add_other_columns_adds columns : forall fields c,
  In c columns -> c <> "rowid" -> In c (add_other_columns columns fields).
Proof.
  induction columns as [|x columns IH]; intros fields c H N; [destruct H|].
  cbn [add_other_columns]. destruct H as [->|H].
  - destruct (in_list c fields) eqn:I.
    + cbn [negb andb]. apply add_other_columns_keeps. apply in_list_In. exact I.
    + assert (R : in_list c ["rowid"] = false).
      { destruct (in_list c ["rowid"]) eqn:R; [|reflexivity].
        apply in_list_In in R. destruct R as [R|[]]. symmetry in R.
        contradiction. }
      rewrite R. cbn [negb andb]. apply add_other_columns_keeps.
      apply in_or_app. right. left. reflexivity.
  - destruct (negb (in_list x fields) && negb (in_list x ["rowid"]));
      apply IH; assumption.
Qed.

(** Only the candidate [id] of the message identifier is part of the name
    [rowid]. *)
Lemma rowid_role columns :
  In "rowid" (fst (role_fields columns)) ->
  _find_column columns msgid_candidates = Some "rowid".
Proof.
  unfold role_fields. intros H.
  apply add_role_fields in H. destruct H as [H|H].
  2:{ apply find_column_contains in H. destruct H as [cand [Hc Hm]].
      simpl in Hc. decompose [or] Hc; subst; try contradiction;
        vm_compute in Hm; discriminate Hm. }
  apply add_role_fields in H. destruct H as [H|H]; [|exact H].
  apply add_role_fields in H. destruct H as [H|H].
  2:{ apply find_column_contains in H. destruct H as [cand [Hc Hm]].
      simpl in Hc. decompose [or] Hc; subst; try contradiction;
        vm_compute in Hm; discriminate Hm. }
  apply add_role_fields in H. destruct H as [H|H].
  2:{ apply find_column_contains in H. destruct H as [cand [Hc Hm]].
      simpl in Hc. decompose [or] Hc; subst; try contradiction;
        vm_compute in Hm; discriminate Hm. }
  apply add_role_fields in H. destruct H as [H|H]; [destruct H|].
  apply find_column_contains in H. destruct H as [cand [Hc Hm]].
  simpl in Hc. decompose [or] Hc; subst; try contradiction;
    vm_compute in Hm; discriminate Hm.
Qed.

(** A table with a column has a field to query: a column not named
    [rowid] is selected, and one named [rowid] is what the message
    identifier resolves to when nothing else is. *)
Lemma select_fields_nil columns :
  select_fields_of columns = [] -> columns = [].
Proof.
  intros E. destruct columns as [|c columns]; [reflexivity|].
  exfalso.
  destruct (String.eqb_spec c "rowid") as [->|N].
  - destruct (_find_column ("rowid" :: columns) msgid_candidates)
      as [x|] eqn:F.
    + assert (I : In x (select_fields_of ("rowid" :: columns)))
        by (apply resolved_role_selected; auto).
      rewrite E in I. destruct I.
    + revert F. apply find_column_found with (cand := "id"); [simpl; auto|].
      eapply first_column_with_found; [left; reflexivity|reflexivity].
  - assert (I : In c (select_fields_of (c :: columns))).
    { apply add_other_columns_adds; [left; reflexivity|exact N]. }
    rewrite E in I. destruct I.
Qed.

(** X10: The query [extract_chat_data] builds selects columns of the table
    only, and every column of the table other than [rowid]; it selects a
    column named [rowid] exactly when the message identifier resolves to
    it, through the candidate [id]; and it has no field at all, the case
    the method returns early on, only for a table without columns. *)
Theorem select_fields_cover columns :
  (forall c, In c (select_fields_of columns) -> In c columns)
  /\ (forall c, In c columns -> c <> "rowid" ->
        In c (select_fields_of columns))
  /\ (In "rowid" (select_fields_of columns) <->
      _find_column columns msgid_candidates = Some "rowid")
  /\ (In "rowid" columns -> _find_column columns msgid_candidates <> None)
  /\ (select_fields_of columns = [] <-> columns = []).
Proof.
  assert (Rid : In "rowid" columns ->
                _find_column columns msgid_candidates <> None).
  { intros H. apply find_column_found with (cand := "id"); [simpl; auto|].
    eapply first_column_with_found; [exact H|reflexivity]. }
  split; [apply select_fields_columns|].
  split; [intros c H N; apply add_other_columns_adds; assumption|].
  split; [|split; [exact Rid|]].
  - split.
    + intros H. unfold select_fields_of in H.
      apply add_other_columns_origin in H.
      destruct H as [H|[_ N]]; [apply rowid_role; exact H|].
      contradiction N; reflexivity.
    + intros H. apply resolved_role_selected. auto.
  - split.
    + apply select_fields_nil.
    + intros ->. reflexivity.
Qed.

(** ** The rows a table yields *)

Lemma messages_from_nth env db_info table_name fields fm rows : forall c i,
  nth_error (messages_from env db_info table_name fields fm rows c) i
  = option_map
      (fun row => store_fields env fm fields 0 row
                    (new_message db_info table_name (now_iso env (c + i))))
      (nth_error rows i).
Proof.
  induction rows as [|row rows IH]; intros c i.
  - destruct i; reflexivity.
  - destruct i as [|i]; cbn [messages_from nth_error option_map].
    + rewrite Nat.add_0_r. reflexivity.
    + rewrite IH. replace (S c + i) with (c + S i) by lia. reflexivity.
Qed.

(** X11: Whatever the number of rows is against the window of 1000 rows per
    query, [extract_chat_data] returns one message per row of the table,
    in the order of the rows: the message at a position is made of the row
    at that position and of the reading of the clock taken for it.  The
    clock is read once per row and nothing else of the state changes. *)
Theorem extract_chat_data_all_rows env conn table_name columns db_info st all :
  columns <> [] ->
  query_rows conn (select_sql (select_fields_of columns) table_name)
    = Some all ->
  exists messages,
    extract_chat_data env conn table_name columns db_info st
      = (Ok messages, tick st (List.length all))
    /\ List.length messages = List.length all
    /\ forall i row,
         nth_error all i = Some row ->
         nth_error messages i
         = Some (store_fields env (field_mapping_of columns)
                   (select_fields_of columns) 0 row
                   (new_message db_info table_name
                      (now_iso env (clock st + i)))).
Proof.
  intros Hc Hq. rewrite extract_chat_data_pure.
  destruct (select_fields_of columns) as [|f fs] eqn:S.
  - contradiction Hc. apply select_fields_nil. exact S.
  - rewrite Hq. eexists. split; [reflexivity|].
    split; [apply messages_from_length|].
    intros i row Hi. rewrite messages_from_nth, Hi. reflexivity.
Qed.

(** A table of 2500 rows, which takes three windows. *)
Lemma extract_chat_data_all_rows_witness :
  exists messages,
    fst (extract_chat_data utc_env
           (Engine.connection
              [chat_100 (repeat [VInt 1; VInt 1700000000; VStr "hello"] 2500)])
           "Chat_100" ["meslocalid"; "msgcreatetime"; "msgcontent"] db_b
           initial_state) = Ok messages
    /\ List.length messages = 2500.
Proof.
  destruct (extract_chat_data_all_rows utc_env
              (Engine.connection
                 [chat_100
                    (repeat [VInt 1; VInt 1700000000; VStr "hello"] 2500)])
              "Chat_100" ["meslocalid"; "msgcreatetime"; "msgcontent"] db_b
              initial_state
              (repeat [VInt 1; VInt 1700000000; VStr "hello"; VInt 1] 2500))
    as [messages [E [L _]]].
  - discriminate.
  - vm_compute. reflexivity.
  - exists messages. split; [rewrite E; reflexivity|].
    rewrite L. apply repeat_length.
Defined.

(** ** The values of a message *)

Lemma dict_get_set_same k v d : dict_get k (dict_set k v d) = Some v.
Proof.
  induction d as [|[a b] d IH]; cbn [dict_set dict_get].
  - rewrite String.eqb_refl. reflexivity.
  - destruct (String.eqb_spec k a) as [->|N]; cbn [dict_get].
    + rewrite String.eqb_refl. reflexivity.
    + destruct (String.eqb_spec k a); [contradiction|exact IH].
Qed.

Lemma dict_get_set_other k k' v d :
  k <> k' -> dict_get k (dict_set k' v d) = dict_get k d.
Proof.
  intros N. induction d as [|[a b] d IH]; cbn [dict_set dict_get].
  - destruct (String.eqb_spec k k'); [contradiction|reflexivity].
  - destruct (String.eqb_spec k' a) as [->|N2]; cbn [dict_get].
    + destruct (String.eqb_spec k a); [contradiction|reflexivity].
    + destruct (String.eqb_spec k a); [reflexivity|exact IH].
Qed.

(** The canonical keys a role is stored under. *)
Lemma store_field_other env fm msg field v k :
  k <> field ->
  k <> "timestamp" -> k <> "timestamp_raw" -> k <> "sender" ->
  k <> "content" -> k <> "message_id" -> k <> "message_type" ->
  dict_get k (store_field env fm msg field v) = dict_get k msg.
Proof.
  intros. unfold store_field.
  repeat match goal with
         | |- context [if ?c then _ else _] => destruct c
         end;
    rewrite ?dict_get_set_other by assumption; reflexivity.
Qed.

Lemma store_fields_other env fm fields : forall i row msg k,
  ~ In k fields ->
  k <> "timestamp" -> k <> "timestamp_raw" -> k <> "sender" ->
  k <> "content" -> k <> "message_id" -> k <> "message_type" ->
  dict_get k (store_fields env fm fields i row msg) = dict_get k msg.
Proof.
  induction fields as [|f fields IH]; intros i row msg k Hn; intros;
    [reflexivity|].
  cbn [store_fields]. rewrite IH; try assumption.
  - apply store_field_other; try assumption.
    intros ->. apply Hn. left. reflexivity.
  - intros Hf. apply Hn. right. exact Hf.
Qed.

(** A field no role is mapped to is stored under its own name. *)
Lemma store_field_plain env fm msg field v :
  (forall role, is_role field role fm = false) ->
  store_field env fm msg field v = dict_set field (decode_field v) msg.
Proof.
  intros H. unfold store_field. rewrite !H. reflexivity.
Qed.

Lemma store_fields_plain env fm fields : forall i row msg k,
  ~ In k fields ->
  (forall f role, In f fields -> is_role f role fm = false) ->
  dict_get k (store_fields env fm fields i row msg) = dict_get k msg.
Proof.
  induction fields as [|f fields IH]; intros i row msg k Hn Hr;
    [reflexivity|].
  cbn [store_fields]. rewrite IH.
  - rewrite store_field_plain by (intros role; apply Hr; left; reflexivity).
    apply dict_get_set_other. intros ->. apply Hn. left. reflexivity.
  - intros Hf. apply Hn. right. exact Hf.
  - intros f' role Hf. apply Hr. right. exact Hf.
Qed.

Lemma store_fields_app env fm pre : forall post i row msg,
  store_fields env fm (pre ++ post) i row msg
  = store_fields env fm post (i + List.length pre) row
      (store_fields env fm pre i row msg).
Proof.
  induction pre as [|f pre IH]; intros post i row msg.
  - cbn [app List.length store_fields]. rewrite Nat.add_0_r. reflexivity.
  - cbn [app List.length store_fields]. rewrite IH.
    replace (S i + List.length pre) with (i + S (List.length pre)) by lia.
    reflexivity.
Qed.

(** The fields the loop over the columns adds: each once, none of them a
    field of a role, none of them [rowid]. *)
Lemma add_other_columns_shape columns : forall fields,
  exists others,
    add_other_columns columns fields = fields ++ others
    /\ NoDup others
    /\ forall x, In x others -> ~ In x fields /\ In x columns /\ x <> "rowid".
Proof.
  induction columns as [|c columns IH]; intros fields.
  - exists []. cbn [add_other_columns]. rewrite app_nil_r.
    split; [reflexivity|]. split; [constructor|intros x []].
  - cbn [add_other_columns].
    destruct (negb (in_list c fields) && negb (in_list c ["rowid"])) eqn:B.
    + apply andb_true_iff in B. destruct B as [B1 B2].
      apply negb_true_iff in B1, B2.
      destruct (IH (fields ++ [c])) as [others [E [Nd Ho]]].
      exists (c :: others). rewrite E, <- app_assoc.
      split; [reflexivity|]. split.
      * constructor; [|exact Nd]. intros Hc. apply Ho in Hc.
        destruct Hc as [Hc _]. apply Hc. apply in_or_app. right. left.
        reflexivity.
      * intros x [<-|Hx].
        -- split; [|split; [left; reflexivity|]].
           ++ intros Hc. apply in_list_In in Hc. rewrite Hc in B1.
              discriminate B1.
           ++ intros ->. discriminate B2.
        -- apply Ho in Hx. destruct Hx as [H1 [H2 H3]].
           split; [|split; [right; exact H2|exact H3]].
           intros Hc. apply H1. apply in_or_app. left. exact Hc.
    + destruct (IH fields) as [others [E [Nd Ho]]].
      exists others. split; [exact E|]. split; [exact Nd|].
      intros x Hx. apply Ho in Hx. destruct Hx as [H1 [H2 H3]].
      split; [exact H1|]. split; [right; exact H2|exact H3].
Qed.

Lemma mapping_get_app role m role' c :
  mapping_get role (m ++ [(role', c)])
  = match mapping_get role m with
    | Some x => Some x
    | None => if String.eqb role role' then Some c else None
    end.
Proof.
  induction m as [|[a b] m IH]; cbn [app mapping_get]; [reflexivity|].
  destruct (String.eqb role a); [reflexivity|exact IH].
Qed.

(** The column of a role is a field of the query. *)
Lemma add_role_mapped role col acc :
  (forall r c, mapping_get r (snd acc) = Some c -> In c (fst acc)) ->
  forall r c, mapping_get r (snd (add_role role col acc)) = Some c ->
              In c (fst (add_role role col acc)).
Proof.
  intros Inv r c. unfold add_role. destruct col as [x|]; [|apply Inv].
  destruct (PyStr.truthy x); [|apply Inv]. cbn [fst snd].
  rewrite mapping_get_app. intros H. apply in_or_app.
  destruct (mapping_get r (snd acc)) as [y|] eqn:G.
  - left. inversion H; subst y. apply Inv with (r := r). exact G.
  - right. destruct (String.eqb r role); [|discriminate H].
    inversion H. left. reflexivity.
Qed.

Lemma role_column_selected columns field role :
  is_role field role (field_mapping_of columns) = true ->
  In field (fst (role_fields columns)).
Proof.
  unfold is_role, field_mapping_of.
  destruct (mapping_get role (snd (role_fields columns))) as [c|] eqn:G;
    [|discriminate].
  intros E. apply String.eqb_eq in E. subst c. revert G.
  unfold role_fields. revert role field.
  repeat apply add_role_mapped. intros r c H. discriminate H.
Qed.

Lemma not_role_column columns c :
  _find_column columns sender_candidates <> Some c ->
  _find_column columns time_candidates <> Some c ->
  _find_column columns content_candidates <> Some c ->
  _find_column columns msgid_candidates <> Some c ->
  _find_column columns type_candidates <> Some c ->
  ~ In c (fst (role_fields columns)).
Proof.
  intros H1 H2 H3 H4 H5 H. unfold role_fields in H.
  repeat (apply add_role_fields in H; destruct H as [H|H];
          [|contradiction]).
  destruct H.
Qed.

Lemma nth_error_default {A} (l : list A) i d :
  match nth_error l i with Some v => v | None => d end = nth i l d.
Proof.
  revert i. induction l as [|x l IH]; intros [|i]; cbn; auto.
Qed.

(** The message the row loop makes of a row, for a column no role
    resolves to. *)
Lemma passthrough_stored env columns row msg c :
  In c columns -> c <> "rowid" ->
  ~ In c (fst (role_fields columns)) ->
  exists i,
    nth_error (select_fields_of columns) i = Some c
    /\ (forall j, nth_error (select_fields_of columns) j = Some c -> j = i)
    /\ dict_get c (store_fields env (field_mapping_of columns)
                     (select_fields_of columns) 0 row msg)
       = Some (decode_field (nth i row VNone)).
Proof.
  intros Hc Hr Hn. unfold select_fields_of.
  pose proof (add_other_columns_adds columns (fst (role_fields columns)) c
                Hc Hr) as Hin.
  destruct (add_other_columns_shape columns (fst (role_fields columns)))
    as [others [E [Nd Ho]]].
  rewrite E in *. clear E.
  apply in_app_or in Hin. destruct Hin as [Hin|Hin]; [contradiction|].
  apply in_split in Hin. destruct Hin as [l1 [l2 ->]].
  assert (N1 : ~ In c l1 /\ ~ In c l2).
  { apply NoDup_remove_2 in Nd. split; intros H; apply Nd; apply in_or_app;
      [left|right]; exact H. }
  destruct N1 as [N1 N2].
  assert (Plain : forall f role, In f (l1 ++ c :: l2) ->
            is_role f role (field_mapping_of columns) = false).
  { intros f role Hf.
    destruct (is_role f role (field_mapping_of columns)) eqn:R;
      [|reflexivity].
    apply role_column_selected in R. apply Ho in Hf. destruct Hf as [Hf _].
    contradiction. }
  exists (List.length (fst (role_fields columns)) + List.length l1).
  assert (Pos : nth_error (fst (role_fields columns) ++ l1 ++ c :: l2)
                  (List.length (fst (role_fields columns)) + List.length l1)
                = Some c).
  { rewrite nth_error_app2 by lia.
    replace (List.length (fst (role_fields columns)) + List.length l1
             - List.length (fst (role_fields columns))) with (List.length l1)
      by lia.
    rewrite nth_error_app2 by lia. rewrite Nat.sub_diag. reflexivity. }
  split; [exact Pos|]. split.
  - intros j Hj.
    destruct (Nat.lt_ge_cases j (List.length (fst (role_fields columns))))
      as [L|L].
    + rewrite nth_error_app1 in Hj by exact L. apply nth_error_In in Hj.
      contradiction.
    + rewrite nth_error_app2 in Hj by exact L.
      destruct (Nat.lt_ge_cases (j - List.length (fst (role_fields columns)))
                  (List.length l1)) as [L1|L1].
      * rewrite nth_error_app1 in Hj by exact L1. apply nth_error_In in Hj.
        contradiction.
      * rewrite nth_error_app2 in Hj by exact L1.
        destruct (j - List.length (fst (role_fields columns))
                  - List.length l1) as [|d] eqn:D; [lia|].
        cbn [nth_error] in Hj. apply nth_error_In in Hj. contradiction.
  - rewrite app_assoc, store_fields_app. cbn [store_fields].
    rewrite store_fields_plain;
      [|exact N2|intros f role Hf; apply Plain; apply in_or_app; right;
                 right; exact Hf].
    rewrite store_field_plain
      by (intros role; apply Plain; apply in_or_app; right; left;
          reflexivity).
    rewrite dict_get_set_same, nth_error_default.
    cbn [Nat.add]. rewrite length_app. reflexivity.
Qed.

(** The message [extract_chat_data] makes of the row at a position. *)
Lemma extracted_row env conn table_name columns db_info st all j row :
  columns <> [] ->
  query_rows conn (select_sql (select_fields_of columns) table_name)
    = Some all ->
  nth_error all j = Some row ->
  exists messages,
    fst (extract_chat_data env conn table_name columns db_info st)
      = Ok messages
    /\ nth_error messages j
       = Some (store_fields env (field_mapping_of columns)
                 (select_fields_of columns) 0 row
                 (new_message db_info table_name
                    (now_iso env (clock st + j)))).
Proof.
  intros Hc Hq Hj. rewrite extract_chat_data_pure.
  destruct (select_fields_of columns) as [|f fs] eqn:S.
  - contradiction Hc. apply select_fields_nil. exact S.
  - rewrite Hq. eexists. split; [reflexivity|].
    rewrite messages_from_nth, Hj. reflexivity.
Qed.

(** X12: A column that none of the five roles resolves to, other than [rowid],
    is passed through: it is queried once, and every message has under the
    name of the column the value the row holds for it, decoded when it is
    a byte string.  This holds also for a column named like a field the
    method sets itself: its value replaces the one the method stored. *)
Theorem passthrough_column_value env conn table_name columns db_info st all
    j row c :
  query_rows conn (select_sql (select_fields_of columns) table_name)
    = Some all ->
  nth_error all j = Some row ->
  In c columns -> c <> "rowid" ->
  _find_column columns sender_candidates <> Some c ->
  _find_column columns time_candidates <> Some c ->
  _find_column columns content_candidates <> Some c ->
  _find_column columns msgid_candidates <> Some c ->
  _find_column columns type_candidates <> Some c ->
  exists messages m i,
    fst (extract_chat_data env conn table_name columns db_info st)
      = Ok messages
    /\ nth_error messages j = Some m
    /\ nth_error (select_fields_of columns) i = Some c
    /\ (forall i', nth_error (select_fields_of columns) i' = Some c -> i' = i)
    /\ dict_get c m = Some (decode_field (nth i row VNone)).
Proof.
  intros Hq Hj Hc Hr H1 H2 H3 H4 H5.
  assert (Ne : columns <> []) by (intros ->; destruct Hc).
  destruct (extracted_row env conn table_name columns db_info st all j row
              Ne Hq Hj) as [messages [E Em]].
  destruct (passthrough_stored env columns row
              (new_message db_info table_name (now_iso env (clock st + j)))
              c Hc Hr (not_role_column columns c H1 H2 H3 H4 H5))
    as [i [Hi [Hu Hv]]].
  exists messages. eexists. exists i.
  split; [exact E|]. split; [exact Em|].
  split; [exact Hi|]. split; [exact Hu|exact Hv].
Qed.

(** The table [Chat_7], whose column [sender] no role resolves to: it is
    the second field of the query. *)
Lemma passthrough_column_value_witness :
  exists messages m,
    fst (extract_chat_data utc_env (Engine.connection sender_db) "Chat_7"
           ["sender"; "msgcontent"] db_b initial_state) = Ok messages
    /\ nth_error messages 0 = Some m
    /\ nth_error (select_fields_of ["sender"; "msgcontent"]) 1 = Some "sender"
    /\ dict_get "sender" m = Some (VStr "bob").
Proof.
  destruct (passthrough_column_value utc_env (Engine.connection sender_db)
              "Chat_7" ["sender"; "msgcontent"] db_b initial_state
              [[VStr "hi"; VStr "bob"]] 0 [VStr "hi"; VStr "bob"] "sender")
    as [messages [m [i [E [Em [Hi [Hu Hv]]]]]]];
    try (vm_compute; congruence).
  - left. reflexivity.
  - assert (I : i = 1) by (symmetry; apply Hu; reflexivity).
    subst i. exists messages, m.
    split; [exact E|]. split; [exact Em|]. split; [exact Hi|exact Hv].
Defined.

Lemma new_message_get db_info table_name extracted_at :
  dict_get "database_path" (new_message db_info table_name extracted_at)
    = Some (VStr (db_path db_info))
  /\ dict_get "database_type" (new_message db_info table_name extracted_at)
     = Some (VStr (db_type db_info))
  /\ dict_get "table_name" (new_message db_info table_name extracted_at)
     = Some (VStr table_name)
  /\ dict_get "extracted_at" (new_message db_info table_name extracted_at)
     = Some (VStr extracted_at).
Proof. repeat split. Qed.

(** X13: Every message carries the path and the type of its database, the name
    of its table as it was passed, and the reading of the clock taken for
    its row, each under its own key, unless the table has a column of that
    name. *)
Theorem message_metadata env conn table_name columns db_info st all j row :
  columns <> [] ->
  query_rows conn (select_sql (select_fields_of columns) table_name)
    = Some all ->
  nth_error all j = Some row ->
  exists messages m,
    fst (extract_chat_data env conn table_name columns db_info st)
      = Ok messages
    /\ nth_error messages j = Some m
    /\ (~ In "database_path" columns ->
        dict_get "database_path" m = Some (VStr (db_path db_info)))
    /\ (~ In "database_type" columns ->
        dict_get "database_type" m = Some (VStr (db_type db_info)))
    /\ (~ In "table_name" columns ->
        dict_get "table_name" m = Some (VStr table_name))
    /\ (~ In "extracted_at" columns ->
        dict_get "extracted_at" m
        = Some (VStr (now_iso env (clock st + j)))).
Proof.
  intros Ne Hq Hj.
  destruct (extracted_row env conn table_name columns db_info st all j row
              Ne Hq Hj) as [messages [E Em]].
  exists messages. eexists. split; [exact E|]. split; [exact Em|].
  destruct (new_message_get db_info table_name (now_iso env (clock st + j)))
    as [G1 [G2 [G3 G4]]].
  repeat split; intros Hn;
    (rewrite store_fields_other;
     [assumption
     |intros Hf; apply Hn; apply select_fields_columns; exact Hf
     |discriminate..]).
Qed.

Lemma message_metadata_witness :
  exists messages m,
    fst (extract_chat_data utc_env (Engine.connection sender_db) "Chat_7"
           ["sender"; "msgcontent"] db_b initial_state) = Ok messages
    /\ nth_error messages 0 = Some m
    /\ dict_get "database_path" m = Some (VStr "/a/Contact/b.db")
    /\ dict_get "database_type" m = Some (VStr "Contact")
    /\ dict_get "table_name" m = Some (VStr "Chat_7")
    /\ dict_get "extracted_at" m = Some (VStr "2024-01-01T00:00:00").
Proof.
  destruct (message_metadata utc_env (Engine.connection sender_db)
              "Chat_7" ["sender"; "msgcontent"] db_b initial_state
              [[VStr "hi"; VStr "bob"]] 0 [VStr "hi"; VStr "bob"])
    as [messages [m [E [Em [H1 [H2 [H3 H4]]]]]]];
    try (vm_compute; congruence).
  exists messages, m.
  split; [exact E|]. split; [exact Em|].
  split; [apply H1; vm_compute; intuition discriminate|].
  split; [apply H2; vm_compute; intuition discriminate|].
  split; [apply H3; vm_compute; intuition discriminate|].
  apply H4; vm_compute; intuition discriminate.
Defined.

(** ** Roles that resolve to one column *)

(** The mapping holds for each role the column it resolves to. *)
Lemma field_mapping_get columns :
  mapping_get "sender" (field_mapping_of columns)
    = _find_column columns sender_candidates
  /\ mapping_get "time" (field_mapping_of columns)
     = _find_column columns time_candidates
  /\ mapping_get "content" (field_mapping_of columns)
     = _find_column columns content_candidates
  /\ mapping_get "msgid" (field_mapping_of columns)
     = _find_column columns msgid_candidates
  /\ mapping_get "type" (field_mapping_of columns)
     = _find_column columns type_candidates.
Proof.
  destruct candidates_truthy as [T1 [T2 [T3 [T4 T5]]]].
  unfold field_mapping_of, role_fields, add_role.
  destruct (_find_column columns sender_candidates) as [c1|] eqn:F1;
    [rewrite (find_column_truthy _ _ _ T1 F1)|];
  (destruct (_find_column columns time_candidates) as [c2|] eqn:F2;
    [rewrite (find_column_truthy _ _ _ T2 F2)|]);
  (destruct (_find_column columns content_candidates) as [c3|] eqn:F3;
    [rewrite (find_column_truthy _ _ _ T3 F3)|]);
  (destruct (_find_column columns msgid_candidates) as [c4|] eqn:F4;
    [rewrite (find_column_truthy _ _ _ T4 F4)|]);
  (destruct (_find_column columns type_candidates) as [c5|] eqn:F5;
    [rewrite (find_column_truthy _ _ _ T5 F5)|]);
  cbn [fst snd app]; repeat split; reflexivity.
Qed.

(** A field stored while the message identifier and the sender are one
    column does not touch the key [message_id], unless it is a column of
    that name. *)
Lemma store_field_message_id env fm msg field v :
  mapping_get "msgid" fm = mapping_get "sender" fm ->
  field <> "message_id" ->
  dict_get "message_id" (store_field env fm msg field v)
  = dict_get "message_id" msg.
Proof.
  intros Hm Hf. unfold store_field, is_role. rewrite Hm.
  destruct (mapping_get "time" fm) as [t|];
    destruct (mapping_get "sender" fm) as [s|];
    destruct (mapping_get "content" fm) as [c|];
    destruct (mapping_get "type" fm) as [y|];
    repeat match goal with
           | |- context [if ?c then _ else _] => destruct c eqn:?
           end;
    try discriminate;
    rewrite ?dict_get_set_other
      by (discriminate || (intros Q; apply Hf; symmetry; exact Q));
    reflexivity.
Qed.

Lemma store_fields_message_id env fm fields : forall i row msg,
  mapping_get "msgid" fm = mapping_get "sender" fm ->
  ~ In "message_id" fields ->
  dict_get "message_id" (store_fields env fm fields i row msg)
  = dict_get "message_id" msg.
Proof.
  induction fields as [|f fields IH]; intros i row msg Hm Hn; [reflexivity|].
  cbn [store_fields]. rewrite IH.
  - apply store_field_message_id; [exact Hm|].
    intros ->. apply Hn. left. reflexivity.
  - exact Hm.
  - intros Hf. apply Hn. right. exact Hf.
Qed.

(** X14: The sender and the message identifier share their first two
    candidates, [meslocalid] and [messvrid]: in a table with a column that
    contains one of them both roles resolve to the same column.  The
    sender is tested first when a field is stored, so when the two roles
    resolve to one column, or to none, no message gets a field
    [message_id], unless the table has a column of that name. *)
Theorem message_id_shadowed env conn table_name columns db_info st :
  (forall c, In c columns ->
     PyStr.contains "meslocalid" (PyStr.lower c)
     || PyStr.contains "messvrid" (PyStr.lower c) = true ->
     _find_column columns sender_candidates <> None
     /\ _find_column columns msgid_candidates
        = _find_column columns sender_candidates)
  /\ (forall messages m,
        _find_column columns msgid_candidates
          = _find_column columns sender_candidates ->
        ~ In "message_id" columns ->
        fst (extract_chat_data env conn table_name columns db_info st)
          = Ok messages ->
        In m messages ->
        dict_get "message_id" m = None).
Proof.
  split.
  - intros c Hc Hm.
    unfold sender_candidates, msgid_candidates. cbn [_find_column].
    destruct (first_column_with "meslocalid" columns) as [x|] eqn:F1;
      [split; [discriminate|reflexivity]|].
    destruct (first_column_with "messvrid" columns) as [y|] eqn:F2;
      [split; [discriminate|reflexivity]|].
    exfalso. apply orb_prop in Hm. destruct Hm as [Hm|Hm].
    + revert F1. eapply first_column_with_found; [exact Hc|exact Hm].
    + revert F2. eapply first_column_with_found; [exact Hc|exact Hm].
  - intros messages m Heq Hn He Hm.
    destruct (extracted_message _ _ _ _ _ _ _ _ He Hm) as [row [c ->]].
    destruct (field_mapping_get columns) as [G1 [_ [_ [G4 _]]]].
    rewrite store_fields_message_id; [reflexivity| |].
    + rewrite G1, G4. exact Heq.
    + intros Hf. apply Hn. apply select_fields_columns. exact Hf.
Qed.

(** The table [Chat_100]: both roles resolve to [meslocalid]. *)
Lemma message_id_shadowed_witness :
  _find_column ["meslocalid"; "msgcreatetime"; "msgcontent"] msgid_candidates
    = Some "meslocalid"
  /\ forall m,
       In m (match fst (extract_chat_data utc_env
                          (Engine.connection [chat_100 three_rows])
                          "Chat_100"
                          ["meslocalid"; "msgcreatetime"; "msgcontent"]
                          db_b initial_state) with
             | Ok messages => messages
             | Raise _ => []
             end) ->
       dict_get "message_id" m = None.
Proof.
  split; [reflexivity|].
  intros m Hm.
  destruct (fst (extract_chat_data utc_env
                   (Engine.connection [chat_100 three_rows]) "Chat_100"
                   ["meslocalid"; "msgcreatetime"; "msgcontent"]
                   db_b initial_state)) as [messages|e] eqn:E; [|destruct Hm].
  exact (proj2 (message_id_shadowed utc_env
                  (Engine.connection [chat_100 three_rows]) "Chat_100"
                  ["meslocalid"; "msgcreatetime"; "msgcontent"]
                  db_b initial_state)
           messages m eq_refl
           ltac:(vm_compute; intuition discriminate) E Hm).
Defined.

(** ** The time of a message *)

Lemma add_role_fst role col acc :
  fst (add_role role col acc) = fst acc ++ role_column col.
Proof.
  unfold add_role, role_column. destruct col as [c|];
    [destruct (PyStr.truthy c)|]; cbn [fst]; rewrite ?app_nil_r; reflexivity.
Qed.

Lemma role_column_In x col : In x (role_column col) -> col = Some x.
Proof.
  unfold role_column. destruct col as [c|]; [|intros []].
  destruct (PyStr.truthy c); [|intros []]. intros [->|[]]. reflexivity.
Qed.

(** The fields of the roles, in the order the method appends them. *)
Lemma role_fields_fst columns :
  fst (role_fields columns)
  = role_column (_find_column columns sender_candidates)
    ++ role_column (_find_column columns time_candidates)
    ++ role_column (_find_column columns content_candidates)
    ++ role_column (_find_column columns msgid_candidates)
    ++ role_column (_find_column columns type_candidates).
Proof.
  unfold role_fields. rewrite !add_role_fst. cbn [fst app].
  rewrite <- !app_assoc. reflexivity.
Qed.

(** A field that is not the time column leaves the two keys of the time. *)
Lemma store_field_time_key env fm msg field v k :
  k = "timestamp" \/ k = "timestamp_raw" ->
  field <> k ->
  is_role field "time" fm = false ->
  dict_get k (store_field env fm msg field v) = dict_get k msg.
Proof.
  intros Hk Hf Hr. unfold store_field. rewrite Hr. cbn [andb].
  assert (Hf' : k <> field) by (intros Q; apply Hf; symmetry; exact Q).
  repeat match goal with
         | |- context [if ?c then _ else _] => destruct c
         end;
    (rewrite dict_get_set_other; [reflexivity|]);
    try exact Hf'; destruct Hk as [->| ->]; discriminate.
Qed.

Lemma store_fields_time_key env fm fields : forall i row msg k,
  k = "timestamp" \/ k = "timestamp_raw" ->
  ~ In k fields ->
  (forall f, In f fields -> is_role f "time" fm = false) ->
  dict_get k (store_fields env fm fields i row msg) = dict_get k msg.
Proof.
  induction fields as [|f fields IH]; intros i row msg k Hk Hn Hr;
    [reflexivity|].
  cbn [store_fields]. rewrite IH.
  - apply store_field_time_key; [exact Hk| |apply Hr; left; reflexivity].
    intros ->. apply Hn. left. reflexivity.
  - exact Hk.
  - intros Hf. apply Hn. right. exact Hf.
  - intros f' Hf. apply Hr. right. exact Hf.
Qed.

(** The column of the time holds [time], and so is none of the keys the
    method sets itself. *)
Lemma time_column_name columns t :
  _find_column columns time_candidates = Some t ->
  t <> "sender" /\ t <> "content" /\ t <> "message_id"
  /\ t <> "message_type" /\ t <> "database_path" /\ t <> "database_type"
  /\ t <> "table_name" /\ t <> "extracted_at".
Proof.
  intros H. apply find_column_contains in H. destruct H as [cand [Hc Hm]].
  repeat split; intros ->; simpl in Hc; decompose [or] Hc; subst;
    try contradiction; vm_compute in Hm; discriminate Hm.
Qed.

(** What the row loop stores for the time column, when it is the column of
    no other role and no column has the name of a key of the time. *)
Lemma time_stored env columns row msg t :
  _find_column columns time_candidates = Some t ->
  _find_column columns sender_candidates <> Some t ->
  _find_column columns content_candidates <> Some t ->
  _find_column columns msgid_candidates <> Some t ->
  _find_column columns type_candidates <> Some t ->
  ~ In "timestamp" columns -> ~ In "timestamp_raw" columns ->
  let i := match _find_column columns sender_candidates with
           | Some _ => 1
           | None => 0
           end in
  let value := decode_field (nth i row VNone) in
  let m := store_fields env (field_mapping_of columns)
             (select_fields_of columns) 0 row msg in
  nth_error (select_fields_of columns) i = Some t
  /\ (value_truthy value = true ->
      dict_get "timestamp" m = Some (_convert_timestamp env value)
      /\ dict_get "timestamp_raw" m = Some value
      /\ dict_get t m = dict_get t msg)
  /\ (value_truthy value = false ->
      dict_get "timestamp" m = dict_get "timestamp" msg
      /\ dict_get "timestamp_raw" m = dict_get "timestamp_raw" msg
      /\ dict_get t m = Some value).
Proof.
  intros Ht Hs Hc Hm Hy N1 N2 i value m.
  destruct candidates_truthy as [T1 [T2 _]].
  destruct (field_mapping_get columns) as [G1 [G2 [G3 [G4 G5]]]].
  destruct (time_column_name columns t Ht)
    as [K1 [K2 [K3 [K4 _]]]].
  assert (Tin : In t columns) by (eapply find_column_In; exact Ht).
  assert (K5 : t <> "timestamp") by (intros ->; contradiction).
  assert (K6 : t <> "timestamp_raw") by (intros ->; contradiction).
  (* the fields: the sender, the time, the rest *)
  destruct (add_other_columns_shape columns (fst (role_fields columns)))
    as [others [E [_ Ho]]].
  set (pre := role_column (_find_column columns sender_candidates)).
  set (post := role_column (_find_column columns content_candidates)
               ++ role_column (_find_column columns msgid_candidates)
               ++ role_column (_find_column columns type_candidates)
               ++ others).
  assert (F : select_fields_of columns = pre ++ t :: post).
  { unfold select_fields_of. rewrite E, role_fields_fst, Ht.
    unfold role_column at 2. rewrite (find_column_truthy _ _ _ T2 Ht).
    unfold pre, post. rewrite <- !app_assoc. reflexivity. }
  assert (Lp : List.length pre = i).
  { unfold pre, i, role_column.
    destruct (_find_column columns sender_candidates) as [s|] eqn:Fs;
      [|reflexivity].
    rewrite (find_column_truthy _ _ _ T1 Fs). reflexivity. }
  assert (Npre : ~ In t pre).
  { intros H. apply role_column_In in H. contradiction. }
  assert (Npost : ~ In t post).
  { unfold post. intros H.
    apply in_app_or in H. destruct H as [H|H];
      [apply role_column_In in H; contradiction|].
    apply in_app_or in H. destruct H as [H|H];
      [apply role_column_In in H; contradiction|].
    apply in_app_or in H. destruct H as [H|H];
      [apply role_column_In in H; contradiction|].
    apply Ho in H. destruct H as [H _]. apply H.
    rewrite role_fields_fst, Ht. apply in_or_app. right.
    unfold role_column at 1. rewrite (find_column_truthy _ _ _ T2 Ht).
    left. reflexivity. }
  assert (Rt : forall f, is_role f "time" (field_mapping_of columns)
                         = String.eqb f t).
  { intros f. unfold is_role. rewrite G2, Ht. reflexivity. }
  assert (Other : forall f, f <> t ->
            is_role f "time" (field_mapping_of columns) = false).
  { intros f Hf. rewrite Rt. apply String.eqb_neq. exact Hf. }
  assert (Rs : is_role t "sender" (field_mapping_of columns) = false
               /\ is_role t "content" (field_mapping_of columns) = false
               /\ is_role t "msgid" (field_mapping_of columns) = false
               /\ is_role t "type" (field_mapping_of columns) = false).
  { unfold is_role. rewrite G1, G3, G4, G5.
    repeat split;
      match goal with
      | |- match ?o with _ => _ end = false =>
          destruct o as [x|] eqn:Fx; [|reflexivity];
          apply String.eqb_neq; intros ->; contradiction
      end. }
  destruct Rs as [R1 [R3 [R4 R5]]].
  assert (Nf : forall k, In k (select_fields_of columns) -> In k columns)
    by (intros k; apply select_fields_columns).
  split.
  { rewrite F, nth_error_app2 by lia. rewrite Lp, Nat.sub_diag. reflexivity. }
  unfold m. rewrite F, store_fields_app. cbn [store_fields Nat.add].
  rewrite Lp, nth_error_default. fold value.
  set (msg1 := store_fields env (field_mapping_of columns) pre 0 row msg).
  assert (P1 : forall k, k = "timestamp" \/ k = "timestamp_raw" ->
                 dict_get k msg1 = dict_get k msg).
  { intros k Hk. unfold msg1. apply store_fields_time_key; [exact Hk| |].
    - intros H. destruct Hk as [-> | ->];
        [apply N1|apply N2]; apply Nf; rewrite F; apply in_or_app; left;
        exact H.
    - intros f Hf. apply Other. intros ->. contradiction. }
  assert (P2 : forall k msg', k = "timestamp" \/ k = "timestamp_raw" ->
                 dict_get k (store_fields env (field_mapping_of columns) post
                               (S i) row msg') = dict_get k msg').
  { intros k msg' Hk. apply store_fields_time_key; [exact Hk| |].
    - intros H. destruct Hk as [-> | ->];
        [apply N1|apply N2]; apply Nf; rewrite F; apply in_or_app; right;
        right; exact H.
    - intros f Hf. apply Other. intros ->. contradiction. }
  assert (P3 : dict_get t msg1 = dict_get t msg).
  { unfold msg1. apply store_fields_other; assumption. }
  assert (P4 : forall msg',
                 dict_get t (store_fields env (field_mapping_of columns) post
                               (S i) row msg') = dict_get t msg').
  { intros msg'. apply store_fields_other; assumption. }
  unfold store_field. rewrite Rt, String.eqb_refl, R1, R3, R4, R5.
  cbn [andb]. change (decode_field (nth i row VNone)) with value.
  split; intros Hv; rewrite Hv.
  - rewrite !P2, P4 by auto.
    rewrite dict_get_set_same.
    rewrite dict_get_set_other, dict_get_set_same by discriminate.
    rewrite !dict_get_set_other by assumption.
    repeat split; [exact P3].
  - rewrite !P2, P4 by auto.
    rewrite dict_get_set_same.
    rewrite !dict_get_set_other
      by (intros Q; symmetry in Q; contradiction).
    rewrite !P1 by auto. repeat split.
Qed.

(** X15: The time column of a table, when it is the column of no other role and
    the table has no column named [timestamp] or [timestamp_raw], is the
    field of the query behind the sender's, or the first one.  A message
    whose row holds a value that counts as true there has that value under
    [timestamp_raw], its conversion under [timestamp], and no field named
    after the column.  A row that holds 0, null or an empty text there
    gives a message without [timestamp] and [timestamp_raw], in which the
    value stands under the name of the column. *)
Theorem time_field_stored env conn table_name columns db_info st all j row t :
  query_rows conn (select_sql (select_fields_of columns) table_name)
    = Some all ->
  nth_error all j = Some row ->
  _find_column columns time_candidates = Some t ->
  _find_column columns sender_candidates <> Some t ->
  _find_column columns content_candidates <> Some t ->
  _find_column columns msgid_candidates <> Some t ->
  _find_column columns type_candidates <> Some t ->
  ~ In "timestamp" columns -> ~ In "timestamp_raw" columns ->
  let i := match _find_column columns sender_candidates with
           | Some _ => 1
           | None => 0
           end in
  let value := decode_field (nth i row VNone) in
  exists messages m,
    fst (extract_chat_data env conn table_name columns db_info st)
      = Ok messages
    /\ nth_error messages j = Some m
    /\ nth_error (select_fields_of columns) i = Some t
    /\ (value_truthy value = true ->
        dict_get "timestamp" m = Some (_convert_timestamp env value)
        /\ dict_get "timestamp_raw" m = Some value
        /\ dict_get t m = None)
    /\ (value_truthy value = false ->
        dict_get "timestamp" m = None
        /\ dict_get "timestamp_raw" m = None
        /\ dict_get t m = Some value).
Proof.
  intros Hq Hj Ht Hs Hc Hm Hy N1 N2 i value.
  assert (Ne : columns <> []).
  { intros ->. discriminate Ht. }
  destruct (extracted_row env conn table_name columns db_info st all j row
              Ne Hq Hj) as [messages [E Em]].
  destruct (time_stored env columns row
              (new_message db_info table_name (now_iso env (clock st + j)))
              t Ht Hs Hc Hm Hy N1 N2) as [Hi [Tv Fv]].
  destruct (time_column_name columns t Ht)
    as [_ [_ [_ [_ [K1 [K2 [K3 K4]]]]]]].
  assert (Fresh : dict_get t (new_message db_info table_name
                                (now_iso env (clock st + j))) = None).
  { unfold new_message. cbn [dict_get].
    repeat match goal with
           | |- context [String.eqb t ?k] =>
               destruct (String.eqb_spec t k); [contradiction|]
           end.
    reflexivity. }
  exists messages. eexists.
  split; [exact E|]. split; [exact Em|]. split; [exact Hi|].
  split; intros Hv.
  - destruct (Tv Hv) as [A [B C]]. rewrite C. auto.
  - destruct (Fv Hv) as [A [B C]]. auto.
Qed.

(** The third row of [Chat_100] holds 0 in [msgcreatetime]. *)
Lemma time_field_stored_witness :
  exists messages m,
    fst (extract_chat_data utc_env (Engine.connection [chat_100 three_rows])
           "Chat_100" ["meslocalid"; "msgcreatetime"; "msgcontent"] db_b
           initial_state) = Ok messages
    /\ nth_error messages 2 = Some m
    /\ dict_get "timestamp" m = None
    /\ dict_get "timestamp_raw" m = None
    /\ dict_get "msgcreatetime" m = Some (VInt 0).
Proof.
  destruct (time_field_stored utc_env
              (Engine.connection [chat_100 three_rows]) "Chat_100"
              ["meslocalid"; "msgcreatetime"; "msgcontent"] db_b
              initial_state
              [[VInt 1; VInt 1700000000; VStr "hello"; VInt 1];
               [VInt 2; VInt 1700000060; VStr "world"; VInt 2];
               [VInt 3; VInt 0; VBytes [Byte.xff; Byte.x00]; VInt 3]]
              2 [VInt 3; VInt 0; VBytes [Byte.xff; Byte.x00]; VInt 3]
              "msgcreatetime")
    as [messages [m [E [Em [_ [_ Fv]]]]]];
    try (vm_compute; congruence);
    try (vm_compute; intuition discriminate).
  exists messages, m.
  split; [exact E|]. split; [exact Em|]. apply Fv. reflexivity.
Defined.

(** ** Byte strings *)

Lemma hex_digit_char n : n < 16 -> is_hex_char (PyBytes.hex_digit n) = true.
Proof.
  intros H. do 16 (destruct n as [|n]; [reflexivity|]). lia.
Qed.

Lemma hex_chars b : PyStr.all_chars is_hex_char (PyBytes.hex b) = true.
Proof.
  induction b as [|x b IH]; [reflexivity|].
  cbn [PyBytes.hex PyStr.all_chars].
  pose proof (Byte.to_nat_bounded x) as B.
  rewrite !hex_digit_char, IH; [reflexivity| |].
  - apply Nat.mod_upper_bound. discriminate.
  - apply Nat.Div0.div_lt_upper_bound. lia.
Qed.

Lemma hex_length b : String.length (PyBytes.hex b) = 2 * List.length b.
Proof.
  induction b as [|x b IH]; [reflexivity|].
  cbn [PyBytes.hex String.length List.length]. rewrite IH. lia.
Qed.

Lemma text_truthy b :
  PyStr.truthy (PyBytes.text b) = match b with [] => false | _ => true end.
Proof. destruct b; reflexivity. Qed.

Lemma hex_truthy b :
  PyStr.truthy (PyBytes.hex b) = match b with [] => false | _ => true end.
Proof. destruct b; reflexivity. Qed.

(** X16: What the row loop makes of a value before it stores it.  A byte
    string never reaches a message: one that is well-formed UTF-8 becomes
    the text of the same bytes, any other one becomes the text of two
    lower-case hexadecimal digits per byte.  Other values are kept.  The
    step keeps the truth value that the test of the time field reads, and
    applying it a second time changes nothing. *)
Theorem decode_field_text v :
  (forall b, decode_field v <> VBytes b)
  /\ (forall b, v = VBytes b -> PyBytes.utf8_valid b = true ->
        exists s, decode_field v = VStr s /\ list_byte_of_string s = b)
  /\ (forall b, v = VBytes b -> PyBytes.utf8_valid b = false ->
        exists s, decode_field v = VStr s
                  /\ String.length s = 2 * List.length b
                  /\ PyStr.all_chars is_hex_char s = true)
  /\ ((forall b, v <> VBytes b) -> decode_field v = v)
  /\ value_truthy (decode_field v) = value_truthy v
  /\ decode_field (decode_field v) = decode_field v.
Proof.
  split; [|split; [|split; [|split; [|split]]]].
  - intros b. destruct v; cbn [decode_field]; try discriminate.
    destruct (PyBytes.utf8_valid _); discriminate.
  - intros b -> Hv. cbn [decode_field]. rewrite Hv.
    exists (PyBytes.text b). split; [reflexivity|].
    apply list_byte_of_string_of_list_byte.
  - intros b -> Hv. cbn [decode_field]. rewrite Hv.
    exists (PyBytes.hex b). split; [reflexivity|].
    split; [apply hex_length|apply hex_chars].
  - intros H. destruct v as [| | | |l]; try reflexivity.
    contradiction (H l). reflexivity.
  - destruct v as [| | | |l]; try reflexivity. cbn [decode_field].
    destruct (PyBytes.utf8_valid l); cbn [value_truthy];
      [apply text_truthy|apply hex_truthy].
  - destruct v as [| | | |l]; try reflexivity. cbn [decode_field].
    destruct (PyBytes.utf8_valid l); reflexivity.
Qed.

(** ** The order of the databases *)

Lemma filter_partition_perm {A} (f : A -> bool) (l : list A) :
  Permutation (filter f l ++ filter (fun x => negb (f x)) l) l.
Proof.
  induction l as [|x l IH]; [constructor|].
  cbn [filter]. destruct (f x); cbn [negb app].
  - constructor. exact IH.
  - apply Permutation_sym. apply Permutation_cons_app.
    apply Permutation_sym. exact IH.
Qed.

Lemma filter_none {A} (f : A -> bool) (l : list A) :
  (forall x, In x l -> f x = false) -> filter f l = [].
Proof.
  induction l as [|x l IH]; intros H; [reflexivity|].
  cbn [filter]. rewrite (H x (or_introl eq_refl)).
  apply IH. intros y Hy. apply H. right. exact Hy.
Qed.

Lemma filter_all {A} (f : A -> bool) (l : list A) :
  (forall x, In x l -> f x = true) -> filter f l = l.
Proof.
  induction l as [|x l IH]; intros H; [reflexivity|].
  cbn [filter]. rewrite (H x (or_introl eq_refl)). f_equal.
  apply IH. intros y Hy. apply H. right. exact Hy.
Qed.

(** X17: [extract_all_chats] goes through every database of [self.databases]
    once: first the databases of type [Message], then the others, each
    group in the order it has in [self.databases]. *)
Theorem processing_order_partition dbs :
  Permutation (processing_order dbs) dbs
  /\ (forall before a between b after,
        processing_order dbs = before ++ a :: between ++ b :: after ->
        db_type b = "Message" -> db_type a = "Message")
  /\ filter is_message_db (processing_order dbs) = filter is_message_db dbs
  /\ filter (fun db => negb (is_message_db db)) (processing_order dbs)
     = filter (fun db => negb (is_message_db db)) dbs.
Proof.
  split; [apply filter_partition_perm|]. split; [|split].
  - unfold processing_order. intros before a between b after E Hb.
    assert (Mb : is_message_db b = true) by (apply String.eqb_eq; exact Hb).
    apply String.eqb_eq. change (is_message_db a = true).
    (* [a] is in the first group, for [b] is *)
    assert (Sp : forall l1 l2 : list DbInfo,
              (forall x, In x l1 -> is_message_db x = true) ->
              (forall x, In x l2 -> is_message_db x = false) ->
              l1 ++ l2 = before ++ a :: between ++ b :: after ->
              is_message_db a = true).
    { clear E. intros l1. revert before.
      induction l1 as [|x l1 IH]; intros before l2 H1 H2 E.
      - cbn [app] in E. rewrite (H2 b) in Mb; [discriminate Mb|].
        rewrite E. apply in_or_app. right. right. apply in_or_app.
        right. left. reflexivity.
      - destruct before as [|y before]; cbn [app] in E.
        + inversion E; subst. apply H1. left. reflexivity.
        + inversion E; subst. apply (IH before l2); [|exact H2|assumption].
          intros z Hz. apply H1. right. exact Hz. }
    apply (Sp _ _ ltac:(intros x Hx; apply filter_In in Hx; apply Hx)
                  ltac:(intros x Hx; apply filter_In in Hx;
                        apply negb_true_iff; apply Hx) E).
  - unfold processing_order. rewrite filter_app.
    rewrite (filter_all is_message_db (filter is_message_db dbs))
      by (intros x Hx; apply filter_In in Hx; apply Hx).
    rewrite (filter_none is_message_db
               (filter (fun db => negb (is_message_db db)) dbs))
      by (intros x Hx; apply filter_In in Hx; apply negb_true_iff; apply Hx).
    apply app_nil_r.
  - unfold processing_order. rewrite filter_app.
    rewrite (filter_none (fun db => negb (is_message_db db))
               (filter is_message_db dbs))
      by (intros x Hx; apply filter_In in Hx; destruct Hx as [_ Hx];
          rewrite Hx; reflexivity).
    rewrite (filter_all (fun db => negb (is_message_db db))
               (filter (fun db => negb (is_message_db db)) dbs))
      by (intros x Hx; apply filter_In in Hx; apply Hx).
    reflexivity.
Qed.

(** ** A database file that cannot be opened *)

Lemma key_formats_cons key : exists f rest, key_formats key = f :: rest.
Proof.
  unfold key_formats.
  destruct (PyStr.startswith "x'" key && PyStr.endswith "'" key); eauto.
Qed.

(** With the exception of [sqlite.connect] in the first round, the handler
    reads [conn] before any assignment to it. *)
Lemma try_key_formats_unopened env db_info f rest st :
  sqlite_connect env (db_path db_info) = false ->
  try_key_formats env db_info (f :: rest) false st
  = (Raise UnboundLocalError, with_trace st [EvConnect (db_path db_info)]).
Proof.
  intros H. cbn [try_key_formats]. unfold bind, emit. rewrite H. reflexivity.
Qed.

Lemma process_database_unopened env db_info st :
  sqlite_connect env (db_path db_info) = false ->
  process_database env db_info st
  = (Raise UnboundLocalError, with_trace st [EvConnect (db_path db_info)]).
Proof.
  intros H. unfold process_database, connect_database, bind.
  destruct (key_formats_cons (db_key db_info)) as [f [rest ->]].
  rewrite try_key_formats_unopened by exact H. reflexivity.
Qed.

Lemma process_database_returns env db_info st :
  sqlite_connect env (db_path db_info) = true ->
  fst (process_database env db_info st) = Ok tt.
Proof.
  intros H. unfold process_database, bind, connect_database.
  destruct (try_key_formats_returns env db_info H
              (key_formats (db_key db_info)) false st) as [r Hr].
  destruct (try_key_formats env db_info (key_formats (db_key db_info))
              false st) as [res st']. cbn [fst] in Hr. subst res.
  destruct r as [conn|]; [|reflexivity].
  apply for_each_returns. intros t _ st3. apply process_table_returns.
Qed.

(** X18: When [sqlite.connect] raises for the file of a database, as it does
    for a directory or a file that cannot be read, [connect_database] does
    not return [None]: whatever the key is, the handler of the first
    attempt raises [UnboundLocalError], after one call of the driver, and
    without the warning of a failed decryption. *)
Theorem connect_database_unopened env db_info st :
  sqlite_connect env (db_path db_info) = false ->
  connect_database env db_info st
  = (Raise UnboundLocalError, with_trace st [EvConnect (db_path db_info)]).
Proof.
  intros H. unfold connect_database.
  destruct (key_formats_cons (db_key db_info)) as [f [rest ->]].
  apply try_key_formats_unopened. exact H.
Qed.

Lemma connect_database_unopened_witness :
  connect_database (scenario_env false three_rows) db_a initial_state
  = (Raise UnboundLocalError,
     with_trace initial_state [EvConnect "/a/Message/a.db"]).
Proof.
  apply (connect_database_unopened (scenario_env false three_rows) db_a
           initial_state).
  reflexivity.
Defined.

Lemma for_each_app {A} (l1 l2 : list A) (body : A -> M unit) st :
  for_each (l1 ++ l2) body st
  = match for_each l1 body st with
    | (Ok _, st') => for_each l2 body st'
    | (Raise e, st') => (Raise e, st')
    end.
Proof.
  revert st. induction l1 as [|x l1 IH]; intros st; [reflexivity|].
  cbn [app for_each]. unfold bind.
  destruct (body x st) as [[[]|e] st']; [apply IH|reflexivity].
Qed.

Lemma first_failing {A} (f : A -> bool) (l : list A) x :
  In x l -> f x = false ->
  exists l1 y l2,
    l = l1 ++ y :: l2 /\ (forall z, In z l1 -> f z = true) /\ f y = false.
Proof.
  induction l as [|a l IH]; intros Hx Hf; [destruct Hx|].
  destruct (f a) eqn:Fa.
  - destruct Hx as [->|Hx]; [congruence|].
    destruct (IH Hx Hf) as [l1 [y [l2 [E [H1 H2]]]]].
    exists (a :: l1), y, l2. split; [rewrite E; reflexivity|].
    split; [|exact H2]. intros z [<-|Hz]; [exact Fa|apply H1; exact Hz].
  - exists [], a, l. split; [reflexivity|]. split; [intros z []|exact Fa].
Qed.

Lemma processing_order_all dbs d : In d dbs -> In d (processing_order dbs).
Proof.
  intros H. unfold processing_order. apply in_or_app.
  destruct (is_message_db d) eqn:Md; [left|right]; apply filter_In;
    (split; [exact H|]); rewrite ?Md; reflexivity.
Qed.

(** The loop of [extract_all_chats] up to the first database whose file
    does not open. *)
Lemma extract_all_chats_stops env st done d rest :
  processing_order (databases st) = done ++ d :: rest ->
  (forall x, In x done -> sqlite_connect env (db_path x) = true) ->
  sqlite_connect env (db_path d) = false ->
  fst (extract_all_chats env st) = Raise UnboundLocalError
  /\ exists evs,
       trace (snd (extract_all_chats env st))
       = trace st ++ evs ++ [EvConnect (db_path d)]
       /\ Forall (fun e => In (event_path e) (map db_path done)) evs.
Proof.
  intros E Hd Hf. unfold extract_all_chats, bind, get_databases.
  rewrite E, for_each_app.
  pose proof (for_each_returns done (process_database env)
                (fun x Hx st' => process_database_returns env x st' (Hd x Hx))
                st) as R.
  pose proof (for_each_grows
                (fun e => In (event_path e) (map db_path done))
                done (process_database env)) as G.
  specialize (G (fun x Hx st' =>
                   grows_weaken _ _ _ _
                     (fun e (He : event_path e = db_path x) =>
                        eq_ind_r (fun p => In p (map db_path done))
                          (in_map db_path done x Hx) He)
                     (process_database_grows env x st')) st).
  destruct (for_each done (process_database env) st) as [res st1].
  cbn [fst snd] in R, G. subst res.
  cbn [for_each]. unfold bind.
  rewrite process_database_unopened by exact Hf.
  split; [reflexivity|].
  destruct G as [_ [_ [_ [evs [T F]]]]].
  exists evs. split; [|exact F].
  cbn [snd with_trace trace]. rewrite T, app_assoc. reflexivity.
Qed.

Lemma extract_all_chats_ok_iff env st :
  fst (extract_all_chats env st) = Ok tt <->
  forall d, In d (databases st) -> sqlite_connect env (db_path d) = true.
Proof.
  split.
  - intros Hok d Hd.
    destruct (sqlite_connect env (db_path d)) eqn:C; [reflexivity|].
    exfalso.
    destruct (first_failing (fun x => sqlite_connect env (db_path x))
                (processing_order (databases st)) d
                (processing_order_all _ _ Hd) C)
      as [l1 [y [l2 [E [H1 H2]]]]].
    destruct (extract_all_chats_stops env st l1 y l2 E H1 H2) as [R _].
    rewrite R in Hok. discriminate Hok.
  - intros H. unfold extract_all_chats, bind, get_databases.
    apply for_each_returns. intros d Hd st'.
    apply process_database_returns. apply H.
    apply processing_order_In. exact Hd.
Qed.

(** X19: [extract_all_chats] returns exactly when the file of every database of
    [self.databases] opens; neither a key that fits no format nor a table
    that cannot be read makes it raise.  Otherwise it raises
    [UnboundLocalError] at the first database, in the order of processing,
    whose file does not open: the call of [sqlite.connect] for that file
    is the last the driver sees, and no database behind it is reached. *)
Theorem extract_all_chats_outcome env st :
  (fst (extract_all_chats env st) = Ok tt <->
   forall d, In d (databases st) -> sqlite_connect env (db_path d) = true)
  /\ (forall done d rest,
        processing_order (databases st) = done ++ d :: rest ->
        (forall x, In x done -> sqlite_connect env (db_path x) = true) ->
        sqlite_connect env (db_path d) = false ->
        fst (extract_all_chats env st) = Raise UnboundLocalError
        /\ exists evs,
             trace (snd (extract_all_chats env st))
             = trace st ++ evs ++ [EvConnect (db_path d)]
             /\ Forall (fun e => In (event_path e) (map db_path done)) evs).
Proof.
  split; [apply extract_all_chats_ok_iff|apply extract_all_chats_stops].
Qed.

(** The scenario in which [a.db] does not open: the run stops there. *)
Lemma extract_all_chats_outcome_witness :
  fst (extract_all_chats (scenario_env false three_rows)
         (state_with [db_b; db_a])) = Raise UnboundLocalError
  /\ trace (snd (extract_all_chats (scenario_env false three_rows)
                   (state_with [db_b; db_a])))
     = [EvConnect "/a/Message/a.db"].
Proof.
  destruct (proj2 (extract_all_chats_outcome (scenario_env false three_rows)
                     (state_with [db_b; db_a]))
              [] db_a [db_b] eq_refl (fun x (H : In x []) => match H with end)
              eq_refl) as [R [evs [T F]]].
  split; [exact R|].
  rewrite T. destruct evs as [|e evs]; [reflexivity|].
  inversion F as [|x l Hx]. destruct Hx.
Defined.

(** ** Where the messages come from *)

Lemma adds_refl Q st : adds Q st st.
Proof.
  split; [reflexivity|]. exists []. rewrite app_nil_r.
  split; [reflexivity|constructor].
Qed.

Lemma adds_trans Q a b c : adds Q a b -> adds Q b c -> adds Q a c.
Proof.
  intros [D1 [m1 [C1 F1]]] [D2 [m2 [C2 F2]]]. split; [congruence|].
  exists (m1 ++ m2). split; [rewrite C2, C1, app_assoc; reflexivity|].
  apply Forall_app. split; assumption.
Qed.

Lemma adds_weaken (P Q : dict -> Prop) st st' :
  (forall m, P m -> Q m) -> adds P st st' -> adds Q st st'.
Proof.
  intros H [D [ms [C F]]]. split; [exact D|]. exists ms.
  split; [exact C|]. eapply Forall_impl; [exact H|exact F].
Qed.

Lemma bind_adds {A B} Q (m : M A) (k : A -> M B) st :
  adds Q st (snd (m st)) ->
  (forall a, fst (m st) = Ok a -> adds Q (snd (m st)) (snd (k a (snd (m st))))) ->
  adds Q st (snd (bind m k st)).
Proof.
  intros Hm Hk. unfold bind. destruct (m st) as [[a|e] st']; cbn [fst snd] in *.
  - eapply adds_trans; [exact Hm|apply Hk; reflexivity].
  - exact Hm.
Qed.

Lemma for_each_adds {A} Q (l : list A) (body : A -> M unit) :
  (forall x, In x l -> forall st, adds Q st (snd (body x st))) ->
  forall st, adds Q st (snd (for_each l body st)).
Proof.
  induction l as [|x l IH]; intros H st; [apply adds_refl|].
  cbn [for_each]. apply bind_adds.
  - apply H. left. reflexivity.
  - intros _ _. apply IH. intros y Hy. apply H. right. exact Hy.
Qed.

(** [connect_database] adds no message, and a connection it returns is
    the one a format of the key unlocked. *)
Lemma try_key_formats_quiet env db_info formats : forall b st,
  databases (snd (try_key_formats env db_info formats b st)) = databases st
  /\ chat_data (snd (try_key_formats env db_info formats b st))
     = chat_data st.
Proof.
  induction formats as [|f formats IH]; intros b st; [split; reflexivity|].
  cbn [try_key_formats]. unfold bind, emit.
  destruct (sqlite_connect env (db_path db_info)).
  - destruct (sqlite_unlock env (db_path db_info) f
                (cipher_compatibility db_info)); [split; reflexivity|].
    destruct (IH true
                {| databases := databases st; chat_data := chat_data st;
                   clock := clock st;
                   trace := (trace st ++ [EvConnect (db_path db_info)])
                            ++ [EvKey (db_path db_info) f];
                   log := log st; written := written st |}) as [D C].
    split; [exact D|exact C].
  - destruct b; [|split; reflexivity].
    destruct (IH true
                {| databases := databases st; chat_data := chat_data st;
                   clock := clock st;
                   trace := trace st ++ [EvConnect (db_path db_info)];
                   log := log st; written := written st |}) as [D C].
    split; [exact D|exact C].
Qed.

Lemma try_key_formats_conn env db_info formats : forall b st conn,
  fst (try_key_formats env db_info formats b st) = Ok (Some conn) ->
  sqlite_connect env (db_path db_info) = true
  /\ exists f, In f formats
       /\ sqlite_unlock env (db_path db_info) f
            (cipher_compatibility db_info) = Some conn.
Proof.
  induction formats as [|f formats IH]; intros b st conn H;
    [discriminate H|].
  cbn [try_key_formats] in H. unfold bind, emit in H.
  destruct (sqlite_connect env (db_path db_info)) eqn:C.
  - destruct (sqlite_unlock env (db_path db_info) f
                (cipher_compatibility db_info)) as [conn'|] eqn:U.
    + cbn [fst] in H. inversion H; subst conn'. split; [reflexivity|].
      exists f. split; [left; reflexivity|exact U].
    + destruct (IH _ _ _ H) as [_ [g [Hg Ug]]]. split; [reflexivity|].
      exists g. split; [right; exact Hg|exact Ug].
  - destruct b; [|discriminate H].
    destruct (IH _ _ _ H) as [Q _]. discriminate Q.
Qed.

(** The messages of one table. *)
Lemma process_table_adds env conn db_info table_name st :
  adds (fun m =>
          exists columns all row c,
            validate_chat_table conn table_name = (true, columns)
            /\ query_rows conn
                 (select_sql (select_fields_of columns) table_name) = Some all
            /\ In row all
            /\ m = store_fields env (field_mapping_of columns)
                     (select_fields_of columns) 0 row
                     (new_message db_info table_name (now_iso env c)))
    st (snd (process_table env conn db_info table_name st)).
Proof.
  unfold process_table.
  destruct (validate_chat_table conn table_name) as [[|] columns] eqn:V;
    [|apply adds_refl].
  unfold bind. rewrite extract_chat_data_pure.
  destruct (select_fields_of columns) as [|f fs] eqn:S.
  { split; [reflexivity|]. exists []. split; [reflexivity|constructor]. }
  destruct (query_rows conn (select_sql (f :: fs) table_name)) as [all|] eqn:Q.
  2:{ split; [reflexivity|]. exists []. split; [reflexivity|constructor]. }
  split; [reflexivity|]. eexists. split; [reflexivity|].
  apply Forall_forall. intros m Hm.
  apply messages_from_In in Hm. destruct Hm as [row [c [Hr E]]].
  exists columns, all, row, c. rewrite S.
  split; [reflexivity|]. split; [exact Q|]. split; [exact Hr|exact E].
Qed.

Lemma process_database_adds env d st :
  adds (fun m => sqlite_connect env (db_path d) = true
                 /\ from_database env d m)
    st (snd (process_database env d st)).
Proof.
  unfold process_database. apply bind_adds.
  - destruct (try_key_formats_quiet env d (key_formats (db_key d)) false st)
      as [D C].
    split; [exact D|]. exists []. rewrite app_nil_r.
    split; [exact C|constructor].
  - intros [conn|] Hc; [|apply adds_refl].
    apply try_key_formats_conn in Hc. destruct Hc as [Hs [f [Hf Hu]]].
    apply for_each_adds. intros t Ht st'.
    eapply adds_weaken; [|apply process_table_adds].
    intros m [columns [all [row [c [V [Q [Hr E]]]]]]].
    split; [exact Hs|].
    exists f, conn, t, columns, all, row, c.
    repeat split; assumption.
Qed.

(** X20: [extract_all_chats] only appends to [self.chat_data], also when it
    raises, and every message it appends was made of a row of a table that
    [find_chat_tables] kept and [validate_chat_table] accepted, in a
    database of [self.databases] whose file opened and which one of the
    formats of its key unlocked.  The message carries the descriptor of
    that database and the name of that table. *)
Theorem extracted_records_origin env st :
  databases (snd (extract_all_chats env st)) = databases st
  /\ exists added,
       chat_data (snd (extract_all_chats env st)) = chat_data st ++ added
       /\ forall m, In m added ->
            exists d, In d (databases st)
                      /\ sqlite_connect env (db_path d) = true
                      /\ from_database env d m.
Proof.
  assert (A : adds (fun m => exists d, In d (databases st)
                       /\ sqlite_connect env (db_path d) = true
                       /\ from_database env d m)
                st (snd (extract_all_chats env st))).
  { unfold extract_all_chats, bind, get_databases.
    apply for_each_adds. intros d Hd st'.
    eapply adds_weaken; [|apply process_database_adds].
    intros m [Hs Hf]. exists d.
    split; [apply processing_order_In; exact Hd|]. split; assumption. }
  destruct A as [D [ms [C F]]]. split; [exact D|].
  exists ms. split; [exact C|]. apply Forall_forall. exact F.
Qed.

(** ** Every row gives a message *)









(** ** The end of a run *)

Lemma run_unreadable env keys_file output :
  read_text env keys_file = None ->
  run env keys_file output initial_state
  = (Raise IOError,
     with_log initial_state [(ERROR, LoadKeysFailed); (ERROR, RunFailed)]).
Proof.
  intros H. unfold run, log_and_reraise, bind, load_keys. rewrite H.
  reflexivity.
Qed.

Lemma extract_all_chats_pair env st :
  extract_all_chats env st
  = (fst (extract_all_chats env st), snd (extract_all_chats env st)).
Proof. apply surjective_pairing. Qed.

(** The ways a run ends. *)
Lemma main_outcomes env keys_file output :
  let out := main env keys_file output in
  (fst out = 1%Z /\ written (snd out) = None)
  \/ (fst out = 0%Z /\ written (snd out) = None
      /\ path_exists env keys_file = true
      /\ exists content,
           read_text env keys_file = Some content
           /\ (forall d, In d (usable env content) ->
                 sqlite_connect env (db_path d) = true)
           /\ chat_data (snd (extract_all_chats env (loaded env content)))
              = []
           /\ chat_data (snd out) = [])
  \/ (fst out = 0%Z
      /\ path_exists env keys_file = true
      /\ write_ok env output = true
      /\ exists content c,
           read_text env keys_file = Some content
           /\ (forall d, In d (usable env content) ->
                 sqlite_connect env (db_path d) = true)
           /\ chat_data (snd (extract_all_chats env (loaded env content)))
              <> []
           /\ chat_data (snd out)
              = chat_data (snd (extract_all_chats env (loaded env content)))
           /\ databases (snd out) = usable env content
           /\ written (snd out)
              = Some (output,
                      {| meta_extracted_at := now_iso env c;
                         total_messages := List.length (chat_data (snd out));
                         total_databases :=
                           List.length (databases (snd out));
                         source_keys_file := keys_file;
                         messages := chat_data (snd out) |})).
Proof.
  intros out. subst out.
  destruct (path_exists env keys_file) eqn:Pe.
  2:{ left. unfold main. rewrite Pe. split; reflexivity. }
  rewrite main_cases by exact Pe.
  destruct (read_text env keys_file) as [content|] eqn:Rd.
  2:{ left. rewrite run_unreadable by exact Rd. split; reflexivity. }
  rewrite (run_cases env keys_file output content Rd).
  destruct (usable env content) as [|d0 ds] eqn:U.
  { right; left. cbn [fst snd with_log written chat_data loaded].
    split; [reflexivity|]. split; [reflexivity|]. split; [reflexivity|].
    exists content. split; [reflexivity|].
    split; [rewrite U; intros d []|].
    split; [|reflexivity].
    unfold extract_all_chats, bind, get_databases.
    cbn [loaded databases]. rewrite U. reflexivity. }
  pose proof (extract_all_chats_ok_iff env (loaded env content)) as Iff.
  pose proof (extract_all_chats_grows env (loaded env content)) as G.
  rewrite (extract_all_chats_pair env (loaded env content)) .
  destruct (fst (extract_all_chats env (loaded env content))) as [[]|e] eqn:Fx.
  2:{ left. destruct G as [_ [W _]].
      cbn [fst snd with_log written]. split; [reflexivity|exact W]. }
  assert (Op : forall d, In d (d0 :: ds) ->
                 sqlite_connect env (db_path d) = true).
  { intros d Hd. apply (proj1 Iff eq_refl). cbn [loaded databases].
    rewrite U. exact Hd. }
  destruct G as [D [W _]]. cbn [loaded databases written] in D, W.
  set (st := snd (extract_all_chats env (loaded env content))) in *.
  destruct (chat_data st) as [|m ms] eqn:C.
  { right; left. cbn [fst snd with_log written chat_data].
    split; [reflexivity|]. split; [exact W|]. split; [reflexivity|].
    exists content. rewrite U. split; [reflexivity|]. split; [exact Op|].
    split; exact C. }
  destruct (write_ok env output) eqn:Wo.
  2:{ left. cbn [fst snd with_log written]. split; [reflexivity|exact W]. }
  right; right. cbn [fst snd with_log written chat_data databases].
  split; [reflexivity|]. split; [reflexivity|]. split; [reflexivity|].
  exists content, (clock st). rewrite U, D, U.
  split; [reflexivity|]. split; [exact Op|].
  fold st. rewrite C.
  split; [discriminate|]. split; [reflexivity|]. split; reflexivity.
Qed.



(** X23: The exit status of the process is 0 or 1.  It is 0 exactly when the
    keys file exists and can be read, the file of every database kept from
    it opens, and, if the extraction collected a record, the output can be
    written.  A key that unlocks nothing, a keys file without a usable
    descriptor and an extraction without records all end with status 0. *)
Theorem main_exit_status env keys_file output :
  (fst (main env keys_file output) = 0%Z
   \/ fst (main env keys_file output) = 1%Z)
  /\ (fst (main env keys_file output) = 0%Z <->
      path_exists env keys_file = true
      /\ exists content,
           read_text env keys_file = Some content
           /\ (forall d, In d (parse_keys content) ->
                 path_exists env (db_path d) = true ->
                 sqlite_connect env (db_path d) = true)
           /\ (chat_data (snd (extract_all_chats env (loaded env content)))
                 <> [] ->
               write_ok env output = true)).
Proof.
  split.
  { destruct (main_outcomes env keys_file output)
      as [[E _]|[[E _]|[E _]]]; auto. }
  split.
  - intros E0.
    destruct (main_outcomes env keys_file output)
      as [[E _]|[[_ [_ [Pe [content [Rd [Op [Ce _]]]]]]]
                |[_ [Pe [Wo [content [c [Rd [Op _]]]]]]]]].
    + rewrite E in E0. discriminate E0.
    + split; [exact Pe|]. exists content. split; [exact Rd|].
      split.
      * intros d Hd Hp. apply Op. apply filter_In. split; assumption.
      * intros N. contradiction.
    + split; [exact Pe|]. exists content. split; [exact Rd|].
      split.
      * intros d Hd Hp. apply Op. apply filter_In. split; assumption.
      * intros _. exact Wo.
  - intros [Pe [content [Rd [Op Wr]]]].
    rewrite main_cases by exact Pe.
    rewrite (run_cases env keys_file output content Rd).
    destruct (usable env content) as [|d0 ds] eqn:U; [reflexivity|].
    assert (Ok' : fst (extract_all_chats env (loaded env content)) = Ok tt).
    { apply extract_all_chats_ok_iff. cbn [loaded databases].
      intros d Hd. apply filter_In in Hd. destruct Hd as [Hd Hp].
      apply Op; assumption. }
    rewrite (extract_all_chats_pair env (loaded env content)), Ok'.
    destruct (chat_data (snd (extract_all_chats env (loaded env content))))
      as [|m ms] eqn:C; [reflexivity|].
    rewrite Wr by discriminate. reflexivity.
Qed.
